(** * Real-time dispatch server: session registry, message router and
      ride lifecycle handlers of [RealTimeServer] (websocket-server.ts).

    The development follows the TypeScript class method by method.  The
    server is single-threaded: every event handler (a WebSocket message, a
    close event, a timer) is a transformer of one server state.  An [await]
    inside a handler is a point where other handlers may run; the serial
    semantics below runs each handler to completion, and the part on the
    interleaving of [handleRideAccepted] splits that handler at its awaits
    to study the accept race.

    The clock is an input: every event comes with the reading [now] that
    [Date.now()] gives while it is handled.  Sockets are numbered; the
    state records which of them are OPEN and every frame handed to
    [ws.send]. *)

From stdpp Require Import gmap strings list fin_maps pretty.
From Stdlib Require Import ZArith.

Local Open Scope Z_scope.

(** ** JavaScript values

    Frames are parsed with [JSON.parse]; the fields the server reads are
    scalars.  Numbers are integers (identifiers, millisecond clocks). *)

Inductive jsval : Type :=
| JUndefined
| JNull
| JBool (b : bool)
| JNum (n : Z)
| JStr (s : string).

#[global] Instance jsval_eq_dec : EqDecision jsval.
Proof. solve_decision. Defined.

#[global] Instance jsval_inhabited : Inhabited jsval := populate JUndefined.

(** [!!v] of JavaScript: undefined, null, false, 0 and the empty string are
    falsy. *)
Definition truthy (v : jsval) : bool :=
  match v with
  | JUndefined | JNull => false
  | JBool b => b
  | JNum n => negb (n =? 0)
  | JStr s => negb (String.eqb s "")
  end.

(** [a === b] on scalars. *)
Definition strict_eq (a b : jsval) : bool := bool_decide (a = b).

(** Template-literal conversion [`${v}`]. *)
Definition js_to_string (v : jsval) : string :=
  match v with
  | JUndefined => "undefined"
  | JNull => "null"
  | JBool true => "true"
  | JBool false => "false"
  | JNum n => pretty n
  | JStr s => s
  end.

(** [a || b] on values. *)
Definition js_or (a b : jsval) : jsval := if truthy a then a else b.

(** A JavaScript object with scalar fields.  Reading a missing property
    gives [undefined]. *)
Abbreviation obj := (gmap string jsval).

Definition prop (o : obj) (k : string) : jsval := default JUndefined (o !! k).

(** Outbound payloads may nest one object of scalars inside another. *)
Inductive json : Type :=
| JV (v : jsval)
| JO (fields : list (string * jsval)).

#[global] Instance json_eq_dec : EqDecision json.
Proof. solve_decision. Defined.

(** ** Message types (enum [MessageType]) *)

Module MessageType.
Definition DRIVER_LOCATION_UPDATE : string := "driver_location_update".
Definition DRIVER_STATUS_UPDATE : string := "driver_status_update".
Definition RIDE_REQUEST : string := "ride_request".
Definition RIDE_REQUEST_SUCCESS : string := "ride_request_success".
Definition NEW_RIDE_REQUEST : string := "new_ride_request".
Definition RIDE_ACCEPTED : string := "ride_accepted".
Definition RIDE_REJECTED : string := "ride_rejected".
Definition RIDE_CANCELED : string := "ride_canceled".
Definition RIDE_STARTED : string := "ride_started".
Definition RIDE_COMPLETED : string := "ride_completed".
Definition NEGOTIATION_SETTINGS_UPDATE : string := "negotiation_settings_update".
Definition DYNAMIC_PRICING_UPDATE : string := "dynamic_pricing_update".
Definition FEATURE_TOGGLE_UPDATE : string := "feature_toggle_update".
Definition ERROR : string := "error".
Definition PING : string := "ping".
Definition PONG : string := "pong".
End MessageType.

(** An outbound frame [{type, payload, timestamp}]. *)
Record frame : Type := Frame {
  ftype : string;
  fpayload : list (string * json);
  ftimestamp : Z
}.

#[global] Instance frame_eq_dec : EqDecision frame.
Proof. solve_decision. Defined.

(** What [JSON.parse(message)] gives the message handler: either the parse
    throws (or yields [null], whose [.type] throws), or a value with a
    [type] and a [payload].  A payload that is [undefined] or [null] is
    [None]; any other payload is an object view of its scalar fields. *)
Inductive inbound : Type :=
| Malformed
| Inbound (type : jsval) (payload : option obj).

(** ** Connected clients (interface [ConnectedClient]) *)

Record ConnectedClient : Type := Client {
  ws : nat;
  userId : jsval;
  userType : jsval;
  lastActivity : Z
}.

#[global] Instance ConnectedClient_eq_dec : EqDecision ConnectedClient.
Proof. solve_decision. Defined.

(** ** The store gateway *)

(** Modelled from the spec: the module [./storage] (Ride Store Gateway) is
    not part of the sources.  Following the collaborator contract, it is a
    set of tables keyed by integer identifiers: user (driver) and passenger
    records, one ride table read by [getRideById] and written by
    [createRideRequest] and [updateRide], and one DriverLocation row per
    driver, upserted.  A partial update overwrites exactly the fields it
    carries. *)
Record Storage : Type := Store {
  users : gmap Z obj;
  passengers : gmap Z obj;
  rides : gmap Z obj;
  driverLocations : gmap Z obj;
  nextRideId : Z
}.

(** Calls made on the gateway, as they appear in the handlers. *)
Inductive GatewayCall : Type :=
| GetUser (id : jsval)
| GetPassenger (id : jsval)
| GetDriverLocationByDriverId (id : jsval)
| UpdateDriverLocation (id : jsval) (fields : obj)
| CreateDriverLocation (fields : obj)
| CreateRideRequest (fields : obj)
| GetAvailableDriversNearLocation (lat lng : jsval) (radius : Z)
| GetRideById (id : jsval)
| UpdateRide (id : jsval) (fields : obj).

#[global] Instance GatewayCall_eq_dec : EqDecision GatewayCall.
Proof. solve_decision. Defined.

Definition is_mutation (c : GatewayCall) : bool :=
  match c with
  | UpdateDriverLocation _ _ | CreateDriverLocation _
  | CreateRideRequest _ | UpdateRide _ _ => true
  | _ => false
  end.

(** ** Server state *)

Record Server : Type := Srv {
  clients : list ConnectedClient;      (* this.clients *)
  storage : Storage;                   (* the durable store *)
  faults : list bool;                  (* fate of the next gateway calls:
                                          [true] makes the call reject *)
  gatewayLog : list GatewayCall;       (* gateway calls issued, oldest first *)
  wsOpen : gset nat;                   (* sockets with readyState OPEN *)
  wire : list (nat * frame);           (* ws.send calls, oldest first *)
  authTimers : gset nat                (* connections whose authTimeout is armed *)
}.

Definition set_clients (f : list ConnectedClient → list ConnectedClient) (s : Server) : Server :=
  Srv (f (clients s)) (storage s) (faults s) (gatewayLog s) (wsOpen s) (wire s) (authTimers s).

Definition set_storage (f : Storage → Storage) (s : Server) : Server :=
  Srv (clients s) (f (storage s)) (faults s) (gatewayLog s) (wsOpen s) (wire s) (authTimers s).

Definition set_wsOpen (f : gset nat → gset nat) (s : Server) : Server :=
  Srv (clients s) (storage s) (faults s) (gatewayLog s) (f (wsOpen s)) (wire s) (authTimers s).

Definition set_wire (f : list (nat * frame) → list (nat * frame)) (s : Server) : Server :=
  Srv (clients s) (storage s) (faults s) (gatewayLog s) (wsOpen s) (f (wire s)) (authTimers s).

Definition set_authTimers (f : gset nat → gset nat) (s : Server) : Server :=
  Srv (clients s) (storage s) (faults s) (gatewayLog s) (wsOpen s) (wire s) (f (authTimers s)).

(** ** Handler monad: state and exceptions *)

Inductive outcome (A : Type) : Type :=
| Ok (a : A)
| Throw.
Arguments Ok {A} a.
Arguments Throw {A}.

Definition M (A : Type) : Type := Server → outcome A * Server.

Definition ret {A} (a : A) : M A := λ s, (Ok a, s).

Definition bind {A B} (m : M A) (k : A → M B) : M B :=
  λ s, match m s with
       | (Ok a, s') => k a s'
       | (Throw, s') => (Throw, s')
       end.

Definition throw {A} : M A := λ s, (Throw, s).

(** [try { body } catch { handler }] *)
Definition try_catch {A} (body handler : M A) : M A :=
  λ s, match body s with
       | (Ok a, s') => (Ok a, s')
       | (Throw, s') => handler s'
       end.

Definition get : M Server := λ s, (Ok s, s).
Definition modify (f : Server → Server) : M unit := λ s, (Ok tt, f s).

Declare Scope handler_scope.
Delimit Scope handler_scope with M.
Notation "'let*' x ':=' m 'in' k" := (bind m (λ x, k))
  (at level 10, x name, m at level 100, k at level 200) : handler_scope.
Notation "m '>>' k" := (bind m (λ _, k))
  (at level 100, k at level 200, right associativity) : handler_scope.
Local Open Scope handler_scope.

(** [forEach] over a snapshot of an array. *)
Fixpoint forEach {A} (l : list A) (f : A → M unit) : M unit :=
  match l with
  | [] => ret tt
  | x :: l' => f x >> forEach l' f
  end.

(** The state a handler leaves behind. *)
Definition exec {A} (m : M A) (s : Server) : Server := snd (m s).

(** ** Gateway operations *)

(** Modelled from the spec: row identifiers of the missing store module.
    Keys of the tables are integers; any other value names no row. *)
Definition key (v : jsval) : option Z :=
  match v with
  | JNum n => Some n
  | _ => None
  end.

(** An object literal [{k1: v1, ...}] handed to the store; properties whose
    value is [undefined] are not carried. *)
Definition object_of (l : list (string * jsval)) : obj :=
  list_to_map (filter (λ kv, kv.2 ≠ JUndefined) l).

Definition opt_prop (o : option obj) (k : string) : jsval :=
  match o with
  | Some r => prop r k
  | None => JUndefined
  end.

Definition set_rides (f : gmap Z obj → gmap Z obj) (st : Storage) : Storage :=
  Store (users st) (passengers st) (f (rides st)) (driverLocations st) (nextRideId st).

Definition set_driverLocations (f : gmap Z obj → gmap Z obj) (st : Storage) : Storage :=
  Store (users st) (passengers st) (rides st) (f (driverLocations st)) (nextRideId st).

(** Modelled from the spec: [updateRide(id, partialFields)] of the missing
    store module.  The fields given overwrite those of the row; a missing
    row is left missing. *)
Definition store_updateRide (id : jsval) (fields : obj) (st : Storage) : Storage :=
  match key id with
  | Some k =>
      match rides st !! k with
      | Some r => set_rides (<[k := fields ∪ r]>) st
      | None => st
      end
  | None => st
  end.

(** Modelled from the spec: [updateDriverLocation(driverId, partialFields)]
    of the missing store module, an upsert of the driver's row. *)
Definition store_updateDriverLocation (id : jsval) (fields : obj) (st : Storage) : Storage :=
  match key id with
  | Some k =>
      set_driverLocations
        (<[k := fields ∪ default {["driverId" := JNum k]} (driverLocations st !! k)]>) st
  | None => st
  end.

(** Modelled from the spec: [createDriverLocation] of the missing store
    module; the row is stored under its [driverId]. *)
Definition store_createDriverLocation (fields : obj) (st : Storage) : Storage :=
  match key (prop fields "driverId") with
  | Some k => set_driverLocations (<[k := fields]>) st
  | None => st
  end.

(** Modelled from the spec: [createRideRequest] of the missing store
    module; the store assigns the id.  The owning passenger is kept under
    [passengerId], as the request carries it, and under [userId], as the
    handlers read it back from [getRideById]. *)
Definition new_ride_row (id : Z) (fields : obj) : obj :=
  <["id" := JNum id]> (<["userId" := prop fields "passengerId"]> fields).

(** Modelled from the spec: the row of [createRideRequest] enters the ride
    table under the next identifier. *)
Definition store_createRideRequest (fields : obj) (st : Storage) : Storage :=
  Store (users st) (passengers st)
        (<[nextRideId st := new_ride_row (nextRideId st) fields]> (rides st))
        (driverLocations st) (nextRideId st + 1).

(** Modelled from the spec: every call of the missing store module is
    network I/O that may fail.  A call is logged, consumes the next entry
    of [faults], and rejects when that entry is [true]. *)
Definition gateway (c : GatewayCall) : M unit :=
  λ s, let s' := Srv (clients s) (storage s) (tail (faults s))
                     (gatewayLog s ++ [c]) (wsOpen s) (wire s) (authTimers s) in
       match faults s with
       | true :: _ => (Throw, s')
       | _ => (Ok tt, s')
       end.

Definition getUser (id : jsval) : M (option obj) :=
  gateway (GetUser id) >>
  let* s := get in ret (key id ≫= λ k, users (storage s) !! k).

Definition getPassenger (id : jsval) : M (option obj) :=
  gateway (GetPassenger id) >>
  let* s := get in ret (key id ≫= λ k, passengers (storage s) !! k).

Definition getDriverLocationByDriverId (id : jsval) : M (option obj) :=
  gateway (GetDriverLocationByDriverId id) >>
  let* s := get in ret (key id ≫= λ k, driverLocations (storage s) !! k).

Definition getRideById (id : jsval) : M (option obj) :=
  gateway (GetRideById id) >>
  let* s := get in ret (key id ≫= λ k, rides (storage s) !! k).

Definition updateRide (id : jsval) (fields : obj) : M unit :=
  gateway (UpdateRide id fields) >>
  modify (set_storage (store_updateRide id fields)).

Definition updateDriverLocation (id : jsval) (fields : obj) : M unit :=
  gateway (UpdateDriverLocation id fields) >>
  modify (set_storage (store_updateDriverLocation id fields)).

Definition createDriverLocation (fields : obj) : M unit :=
  gateway (CreateDriverLocation fields) >>
  modify (set_storage (store_createDriverLocation fields)).

Definition createRideRequest (fields : obj) : M obj :=
  gateway (CreateRideRequest fields) >>
  let* s := get in
  modify (set_storage (store_createRideRequest fields)) >>
  ret (new_ride_row (nextRideId (storage s)) fields).

(** ** Sending *)

(** [ws.send(JSON.stringify(f))] *)
Definition ws_send (w : nat) (f : frame) : M unit :=
  modify (set_wire (λ l, l ++ [(w, f)])).

(** [ws.close()]: the socket leaves the OPEN state. *)
Definition ws_close (w : nat) : M unit :=
  modify (set_wsOpen (λ o, o ∖ {[w]})).

Definition readyState_OPEN (w : nat) (s : Server) : bool :=
  bool_decide (w ∈ wsOpen s).

Definition sendMessage (now : Z) (w : nat) (type : string)
    (payload : list (string * json)) : M unit :=
  let* s := get in
  if readyState_OPEN w s then ws_send w (Frame type payload now) else ret tt.

Definition sendError (now : Z) (w : nat) (message : string) : M unit :=
  sendMessage now w MessageType.ERROR [("message", JV (JStr message))].

Definition broadcastToUser (now : Z) (uid : jsval) (utype : string)
    (type : string) (payload : list (string * json)) : M unit :=
  let* s := get in
  let found := filter (λ c, userId c = uid ∧ userType c = JStr utype) (clients s) in
  forEach found (λ c, sendMessage now (ws c) type payload).

Definition broadcastToUserType (now : Z) (utype : string) (type : string)
    (payload : list (string * json)) (excludeUsers : list jsval) : M unit :=
  let* s := get in
  let found := filter (λ c, userType c = JStr utype ∧ userId c ∉ excludeUsers) (clients s) in
  forEach found (λ c, sendMessage now (ws c) type payload).

(** [const { ... } = payload]: destructuring [undefined] or [null] throws. *)
Definition destructure (payload : option obj) : M obj :=
  match payload with
  | Some o => ret o
  | None => throw
  end.

Definition is_driver (c : ConnectedClient) : bool := strict_eq (userType c) (JStr "driver").
Definition is_passenger (c : ConnectedClient) : bool := strict_eq (userType c) (JStr "passenger").

(** A non-integer number literal [n/d] (the handlers use [5.2]). *)
Definition ratio (n d : Z) : json :=
  JO [("numerator", JNum n); ("denominator", JNum d)].

(** ** Ride lifecycle handlers *)

Definition handleRideAccepted (now : Z) (payload : option obj)
    (client : ConnectedClient) : M unit :=
  if negb (is_driver client) then
    sendError now (ws client) "Apenas motoristas podem aceitar corridas"
  else
    let* p := destructure payload in
    let rideRequestId := prop p "rideRequestId" in
    try_catch
      (let* ride := getRideById rideRequestId in
       match ride with
       | None => sendError now (ws client) "Corrida não encontrada"
       | Some ride =>
         if negb (strict_eq (prop ride "status") (JStr "pending")) then
           sendError now (ws client) "Esta corrida não está mais disponível"
         else
           let* driverLocation := getDriverLocationByDriverId (userId client) in
           if truthy (opt_prop driverLocation "currentRideId") then
             sendError now (ws client) "Você já está em uma corrida ativa"
           else
             updateRide rideRequestId
               (object_of [("driverId", userId client); ("status", JStr "accepted")]) >>
             updateDriverLocation (userId client)
               (object_of [("currentRideId", rideRequestId); ("status", JStr "busy")]) >>
             (if truthy (prop ride "userId") then
                broadcastToUser now (prop ride "userId") "passenger" MessageType.RIDE_ACCEPTED
                  [("rideId", JV rideRequestId); ("driverId", JV (userId client));
                   ("message", JV (JStr "Sua corrida foi aceita por um motorista"))]
              else ret tt) >>
             broadcastToUserType now "driver" MessageType.RIDE_REJECTED
               [("rideId", JV rideRequestId);
                ("message", JV (JStr "Esta corrida foi aceita por outro motorista"))]
               [userId client] >>
             sendMessage now (ws client) MessageType.RIDE_ACCEPTED
               [("success", JV (JBool true)); ("rideRequestId", JV rideRequestId);
                ("message", JV (JStr "Corrida aceita com sucesso"))]
       end)
      (sendError now (ws client) "Erro ao aceitar corrida").

Definition handleRideStarted (now : Z) (payload : option obj)
    (client : ConnectedClient) : M unit :=
  if negb (is_driver client) then
    sendError now (ws client) "Apenas motoristas podem iniciar corridas"
  else
    let* p := destructure payload in
    let rideRequestId := prop p "rideRequestId" in
    try_catch
      (let* ride := getRideById rideRequestId in
       match ride with
       | None => sendError now (ws client) "Corrida não encontrada"
       | Some ride =>
         if negb (strict_eq (prop ride "driverId") (userId client)) then
           sendError now (ws client) "Você não está atribuído a esta corrida"
         else if negb (strict_eq (prop ride "status") (JStr "accepted")) then
           sendError now (ws client) "Esta corrida não pode ser iniciada"
         else
           updateRide rideRequestId
             (object_of [("status", JStr "active"); ("startTime", JNum now)]) >>
           (if truthy (prop ride "userId") then
              broadcastToUser now (prop ride "userId") "passenger" MessageType.RIDE_STARTED
                [("rideId", JV rideRequestId); ("driverId", JV (userId client));
                 ("message", JV (JStr "Sua corrida foi iniciada"))]
            else ret tt) >>
           sendMessage now (ws client) MessageType.RIDE_STARTED
             [("success", JV (JBool true)); ("rideRequestId", JV rideRequestId);
              ("message", JV (JStr "Corrida iniciada com sucesso"))]
       end)
      (sendError now (ws client) "Erro ao iniciar corrida").

Definition handleRideCompleted (now : Z) (payload : option obj)
    (client : ConnectedClient) : M unit :=
  if negb (is_driver client) then
    sendError now (ws client) "Apenas motoristas podem completar corridas"
  else
    let* p := destructure payload in
    let rideRequestId := prop p "rideRequestId" in
    try_catch
      (let* ride := getRideById rideRequestId in
       match ride with
       | None => sendError now (ws client) "Corrida não encontrada"
       | Some ride =>
         if negb (strict_eq (prop ride "driverId") (userId client)) then
           sendError now (ws client) "Você não está atribuído a esta corrida"
         else if negb (strict_eq (prop ride "status") (JStr "active")) then
           sendError now (ws client) "Esta corrida não está ativa"
         else
           updateRide rideRequestId
             (object_of [("status", JStr "completed"); ("endTime", JNum now)]) >>
           updateDriverLocation (userId client)
             (object_of [("currentRideId", JNull); ("status", JStr "available")]) >>
           (if truthy (prop ride "userId") then
              broadcastToUser now (prop ride "userId") "passenger" MessageType.RIDE_COMPLETED
                [("rideId", JV rideRequestId); ("driverId", JV (userId client));
                 ("price", JV (prop ride "amount"));
                 ("message", JV (JStr "Sua corrida foi completada"))]
            else ret tt) >>
           sendMessage now (ws client) MessageType.RIDE_COMPLETED
             [("success", JV (JBool true)); ("rideRequestId", JV rideRequestId);
              ("message", JV (JStr "Corrida completada com sucesso"))]
       end)
      (sendError now (ws client) "Erro ao completar corrida").

Definition handleRideCanceled (now : Z) (payload : option obj)
    (client : ConnectedClient) : M unit :=
  let* p := destructure payload in
  let rideRequestId := prop p "rideRequestId" in
  let reason := prop p "reason" in
  try_catch
    (let* ride := getRideById rideRequestId in
     match ride with
     | None => sendError now (ws client) "Corrida não encontrada"
     | Some ride =>
       if is_passenger client && negb (strict_eq (prop ride "userId") (userId client)) then
         sendError now (ws client) "Você não pode cancelar esta corrida"
       else if is_driver client && negb (strict_eq (prop ride "driverId") (userId client)) then
         sendError now (ws client) "Você não pode cancelar esta corrida"
       else
         updateRide rideRequestId (object_of [("status", JStr "canceled")]) >>
         (if truthy (prop ride "driverId") then
            updateDriverLocation (prop ride "driverId")
              (object_of [("currentRideId", JNull); ("status", JStr "available")])
          else ret tt) >>
         (if is_passenger client && truthy (prop ride "driverId") then
            broadcastToUser now (prop ride "driverId") "driver" MessageType.RIDE_CANCELED
              [("rideId", JV rideRequestId); ("canceledBy", JV (JStr "passenger"));
               ("reason", JV reason);
               ("message", JV (JStr "Corrida cancelada pelo passageiro"))]
          else if is_driver client && truthy (prop ride "userId") then
            broadcastToUser now (prop ride "userId") "passenger" MessageType.RIDE_CANCELED
              [("rideId", JV rideRequestId); ("canceledBy", JV (JStr "driver"));
               ("reason", JV reason);
               ("message", JV (JStr "Corrida cancelada pelo motorista"))]
          else ret tt) >>
         sendMessage now (ws client) MessageType.RIDE_CANCELED
           [("success", JV (JBool true)); ("rideRequestId", JV rideRequestId);
            ("message", JV (JStr "Corrida cancelada com sucesso"))]
     end)
    (sendError now (ws client) "Erro ao cancelar corrida").

(** ** Driver handlers *)

Definition handleDriverLocationUpdate (now : Z) (payload : option obj)
    (client : ConnectedClient) : M unit :=
  if negb (is_driver client) then
    sendError now (ws client) "Apenas motoristas podem atualizar localização"
  else
    let* p := destructure payload in
    try_catch
      (updateDriverLocation (userId client)
         (object_of [("latitude", prop p "latitude"); ("longitude", prop p "longitude");
                     ("heading", prop p "heading"); ("speed", prop p "speed");
                     ("accuracy", prop p "accuracy"); ("status", prop p "status")]) >>
       let* driverLocation := getDriverLocationByDriverId (userId client) in
       let currentRideId := opt_prop driverLocation "currentRideId" in
       if truthy currentRideId then
         let* ride := getRideById currentRideId in
         if truthy (opt_prop ride "userId") then
           broadcastToUser now (opt_prop ride "userId") "passenger"
             MessageType.DRIVER_LOCATION_UPDATE
             [("driverId", JV (userId client)); ("latitude", JV (prop p "latitude"));
              ("longitude", JV (prop p "longitude")); ("heading", JV (prop p "heading"));
              ("speed", JV (prop p "speed")); ("accuracy", JV (prop p "accuracy"));
              ("rideId", JV currentRideId)]
         else ret tt
       else ret tt)
      (sendError now (ws client) "Erro ao atualizar localização").

Definition handleDriverStatusUpdate (now : Z) (payload : option obj)
    (client : ConnectedClient) : M unit :=
  if negb (is_driver client) then
    sendError now (ws client) "Apenas motoristas podem atualizar status"
  else
    let* p := destructure payload in
    try_catch
      (updateDriverLocation (userId client) (object_of [("status", prop p "status")]))
      (sendError now (ws client) "Erro ao atualizar status").

Section Dispatch.

(** Geometry of the Driver Locator (a distance computation on coordinates
    inside the store) and the calendar rendering of [Date.toISOString]:
    neither is fixed by the sources. *)
Variable withinRadius : jsval → jsval → Z → obj → bool.
Variable toISOString : Z → string.

(** Modelled from the spec: [getAvailableDriversNearLocation] of the missing
    store module queries the DriverLocation rows with status [available]
    within the radius, and returns an empty list when nothing matches. *)
Definition store_availableDrivers (lat lng : jsval) (radius : Z) (st : Storage) : list obj :=
  filter (λ row, prop row "status" = JStr "available" ∧ withinRadius lat lng radius row = true)
         ((map_to_list (driverLocations st)).*2).

Definition getAvailableDriversNearLocation (lat lng : jsval) (radius : Z) : M (list obj) :=
  gateway (GetAvailableDriversNearLocation lat lng radius) >>
  let* s := get in ret (store_availableDrivers lat lng radius (storage s)).

Definition new_ride_request_payload (rideRequest p : obj) (client : ConnectedClient)
    (passengerName passengerPhone : jsval) (now : Z) : list (string * json) :=
  [("id", JV (prop rideRequest "id"));
   ("passengerId", JV (userId client));
   ("passengerName", JV passengerName);
   ("passengerPhone", JV passengerPhone);
   ("pickupAddress", JV (prop p "originAddress"));
   ("destinationAddress", JV (prop p "destinationAddress"));
   ("pickupLatitude", JV (prop p "originLatitude"));
   ("pickupLongitude", JV (prop p "originLongitude"));
   ("destinationLatitude", JV (prop p "destinationLatitude"));
   ("destinationLongitude", JV (prop p "destinationLongitude"));
   ("estimatedDistance", JV (prop p "estimatedDistance"));
   ("estimatedDuration", JV (prop p "estimatedDuration"));
   ("estimatedPrice", JV (prop p "estimatedPrice"));
   ("requestTime", JV (JStr (toISOString now)));
   ("status", JV (JStr "pending"))].

Definition simulateRideRequestForTesting (now : Z) (payload : option obj)
    (client : ConnectedClient) : M unit :=
  let* p := destructure payload in
  let testRideRequest :=
    [("id", JNum now); ("passengerId", JNum 999999);
     ("passengerName", JStr "Passageiro Teste");
     ("passengerPhone", JStr "(19) 99999-9999");
     ("originAddress", prop p "originAddress");
     ("destinationAddress", prop p "destinationAddress");
     ("estimatedDistance", prop p "estimatedDistance");
     ("estimatedDuration", prop p "estimatedDuration");
     ("estimatedPrice", prop p "estimatedPrice");
     ("requestTime", JStr (toISOString now));
     ("notes", js_or (prop p "notes") (JStr "Solicitação de teste"))] in
  let* s := get in
  forEach (clients s) (λ connectedClient,
    let* s' := get in
    if is_driver connectedClient && readyState_OPEN (ws connectedClient) s' then
      sendMessage now (ws connectedClient) MessageType.NEW_RIDE_REQUEST
        [("rideRequest", JO testRideRequest);
         ("distance", if truthy (prop p "estimatedDistance")
                      then JV (prop p "estimatedDistance") else ratio 26 5);
         ("estimatedArrival", JV (js_or (prop p "estimatedDuration") (JNum 15)))]
    else ret tt) >>
  sendMessage now (ws client) MessageType.RIDE_REQUEST_SUCCESS
    [("success", JV (JBool true)); ("rideId", JV (JNum now));
     ("message", JV (JStr "Teste de notificação enviado com sucesso"))].

Definition handleRideRequest (now : Z) (payload : option obj)
    (client : ConnectedClient) : M unit :=
  if negb (is_passenger client) && negb (is_driver client) then
    sendError now (ws client) "Apenas passageiros e motoristas podem solicitar corridas"
  else if is_driver client then
    simulateRideRequestForTesting now payload client
  else
    try_catch
      (let* p := destructure payload in
       let rideRequestData := object_of
         [("passengerId", userId client); ("status", JStr "pending");
          ("originLatitude", prop p "originLatitude");
          ("originLongitude", prop p "originLongitude");
          ("originAddress", prop p "originAddress");
          ("destinationLatitude", prop p "destinationLatitude");
          ("destinationLongitude", prop p "destinationLongitude");
          ("destinationAddress", prop p "destinationAddress");
          ("estimatedDistance", prop p "estimatedDistance");
          ("estimatedDuration", prop p "estimatedDuration");
          ("estimatedPrice", prop p "estimatedPrice");
          ("requestTime", JNum now)] in
       let* rideRequest := createRideRequest rideRequestData in
       let* availableDrivers :=
         getAvailableDriversNearLocation (prop p "originLatitude")
                                         (prop p "originLongitude") 10000 in
       (if bool_decide (length availableDrivers = 0%nat) then
          let* s := get in
          let driverClients := filter (λ c, is_driver c = true) (clients s) in
          let* passenger := getPassenger (userId client) in
          let passengerName := js_or (opt_prop passenger "fullName")
                (JStr ("Passageiro #" +:+ js_to_string (userId client))) in
          let passengerPhone := js_or (opt_prop passenger "phoneNumber")
                (JStr "(00) 00000-0000") in
          forEach driverClients (λ driverClient,
            sendMessage now (ws driverClient) MessageType.NEW_RIDE_REQUEST
              (new_ride_request_payload rideRequest p client passengerName passengerPhone now))
        else
          let* passenger := getPassenger (userId client) in
          let passengerName := js_or (opt_prop passenger "fullName")
                (JStr ("Passageiro #" +:+ js_to_string (userId client))) in
          let passengerPhone := js_or (opt_prop passenger "phoneNumber")
                (JStr "(00) 00000-0000") in
          forEach availableDrivers (λ driver,
            broadcastToUser now (prop driver "driverId") "driver" MessageType.NEW_RIDE_REQUEST
              (new_ride_request_payload rideRequest p client passengerName passengerPhone now))) >>
       sendMessage now (ws client) MessageType.RIDE_REQUEST
         [("success", JV (JBool true)); ("rideId", JV (prop rideRequest "id"));
          ("message", JV (JStr "Solicitação de corrida criada com sucesso"))])
      (sendError now (ws client) "Erro ao criar solicitação de corrida").

(** ** Message router *)

Definition handleMessage (now : Z) (type : jsval) (payload : option obj)
    (client : ConnectedClient) : M unit :=
  try_catch
    (if strict_eq type (JStr MessageType.DRIVER_LOCATION_UPDATE) then
       handleDriverLocationUpdate now payload client
     else if strict_eq type (JStr MessageType.DRIVER_STATUS_UPDATE) then
       handleDriverStatusUpdate now payload client
     else if strict_eq type (JStr MessageType.RIDE_REQUEST) then
       handleRideRequest now payload client
     else if strict_eq type (JStr MessageType.RIDE_ACCEPTED) then
       handleRideAccepted now payload client
     else if strict_eq type (JStr MessageType.RIDE_STARTED) then
       handleRideStarted now payload client
     else if strict_eq type (JStr MessageType.RIDE_COMPLETED) then
       handleRideCompleted now payload client
     else if strict_eq type (JStr MessageType.RIDE_CANCELED) then
       handleRideCanceled now payload client
     else if strict_eq type (JStr MessageType.PING) then
       sendMessage now (ws client) MessageType.PONG []
     else ret tt)
    (sendError now (ws client) "Erro interno do servidor").

(** [this.clients.findIndex(client => client.ws === ws)] *)
Definition findIndex_ws (w : nat) (cs : list ConnectedClient) : option (nat * ConnectedClient) :=
  list_find (λ c, ws c = w) cs.

Definition touch (now : Z) (c : ConnectedClient) : ConnectedClient :=
  Client (ws c) (userId c) (userType c) now.

(** The body of [ws.on('message', ...)] for the connection [w]. *)
Definition on_message (now : Z) (w : nat) (message : inbound) : M unit :=
  try_catch
    (match message with
     | Malformed => throw
     | Inbound type payload =>
       if strict_eq type (JStr "auth") || strict_eq type (JStr MessageType.PING) then
         modify (set_authTimers (λ t, t ∖ {[w]})) >>
         let p := default ∅ payload in
         let uid := prop p "userId" in
         let utype := prop p "userType" in
         if negb (truthy uid) || negb (truthy utype) then
           sendError now w "Dados de autenticação inválidos"
         else
           let* userExists :=
             (if strict_eq utype (JStr "driver") then
                let* driver := getUser uid in ret (bool_decide (is_Some driver))
              else if strict_eq utype (JStr "passenger") then
                let* passenger := getPassenger uid in ret (bool_decide (is_Some passenger))
              else ret true) in
           if negb userExists then
             sendError now w "Usuário não encontrado"
           else
             modify (set_clients (λ cs,
               filter (λ c, ¬ (userId c = uid ∧ userType c = utype)) cs
               ++ [Client w uid utype now])) >>
             ws_send w (Frame "auth_success"
                          [("userId", JV uid); ("userType", JV utype)] now) >>
             if strict_eq utype (JStr "driver") then
               let* location := getDriverLocationByDriverId uid in
               match location with
               | Some location =>
                   updateDriverLocation uid
                     (object_of [("status",
                        if truthy (prop location "currentRideId")
                        then JStr "busy" else JStr "available")])
               | None =>
                   createDriverLocation
                     (object_of [("driverId", uid); ("latitude", JNum 0);
                                 ("longitude", JNum 0); ("status", JStr "offline")])
               end
             else ret tt
       else
         let* s := get in
         match findIndex_ws w (clients s) with
         | None => sendError now w "Cliente não autenticado"
         | Some (clientIndex, c) =>
             modify (set_clients (<[clientIndex := touch now c]>)) >>
             handleMessage now type payload (touch now c)
         end
     end)
    (sendError now w "Erro ao processar mensagem").

(** The body of [wss.on('connection', ...)]: a placeholder client is
    registered at once and the authentication timer is armed. *)
Definition on_connection (now : Z) (w : nat) : M unit :=
  modify (set_wsOpen (λ o, {[w]} ∪ o)) >>
  modify (set_clients (λ cs, cs ++ [Client w (JNum 0) (JStr "passenger") now])) >>
  modify (set_authTimers (λ t, {[w]} ∪ t)).

(** The callback of the authentication timer (30 seconds after connecting),
    when it has not been cleared. *)
Definition on_authTimeout (now : Z) (w : nat) : M unit :=
  let* s := get in
  if bool_decide (w ∈ authTimers s) then
    modify (set_authTimers (λ t, t ∖ {[w]})) >>
    if readyState_OPEN w s then
      sendError now w "Timeout de autenticação" >> ws_close w
    else ret tt
  else ret tt.

(** The body of [ws.on('close', ...)]; the socket is closed by then.  The
    offline update is fired without being awaited and its failure is only
    logged. *)
Definition on_close (w : nat) : M unit :=
  modify (set_wsOpen (λ o, o ∖ {[w]})) >>
  modify (set_authTimers (λ t, t ∖ {[w]})) >>
  let* s := get in
  match findIndex_ws w (clients s) with
  | Some (clientIndex, c) =>
      (if is_driver c then
         try_catch (updateDriverLocation (userId c) (object_of [("status", JStr "offline")]))
                   (ret tt)
       else ret tt) >>
      modify (set_clients (delete clientIndex))
  | None => ret tt
  end.

Definition HEARTBEAT_INTERVAL : Z := 30000.
Definition HEARTBEAT_TIMEOUT : Z := 60000.

(** [this.clients.forEach((client, index) => ...)] of the heartbeat: the
    callback splices the array it is iterating.  [forEach] visits the
    indices [0 .. len-1] of the length read at the start, looks each index
    up in the array as it is at that moment, and skips an index that is no
    longer present. *)
Fixpoint heartbeat_loop (now : Z) (remaining index : nat) : M unit :=
  match remaining with
  | O => ret tt
  | S remaining' =>
      let* s := get in
      match clients s !! index with
      | Some client =>
          (if bool_decide (now - lastActivity client > HEARTBEAT_TIMEOUT) then
             (if readyState_OPEN (ws client) s then ws_close (ws client) else ret tt) >>
             modify (set_clients (delete index))
           else ret tt) >>
          heartbeat_loop now remaining' (S index)
      | None => heartbeat_loop now remaining' (S index)
      end
  end.

(** One tick of the [setInterval] callback of [setupHeartbeat]. *)
Definition heartbeat (now : Z) : M unit :=
  let* s := get in heartbeat_loop now (length (clients s)) 0.

(** ** Public broadcasts *)

Definition broadcastFeatureToggleUpdate (now : Z) (featureName : string)
    (isEnabled : bool) : M unit :=
  let* s := get in
  forEach (clients s) (λ client,
    sendMessage now (ws client) MessageType.FEATURE_TOGGLE_UPDATE
      [("featureName", JV (JStr featureName)); ("isEnabled", JV (JBool isEnabled))]).

Definition broadcastNegotiationSettingsUpdate (now : Z)
    (settings : list (string * json)) : M unit :=
  let* s := get in
  forEach (clients s) (λ client,
    sendMessage now (ws client) MessageType.NEGOTIATION_SETTINGS_UPDATE settings).

Definition broadcastDynamicPricingUpdate (now : Z)
    (pricingData : list (string * json)) : M unit :=
  let* s := get in
  forEach (clients s) (λ client,
    sendMessage now (ws client) MessageType.DYNAMIC_PRICING_UPDATE pricingData).

(** ** Events of the server, each at a reading [now] of the clock *)

Inductive event : Type :=
| Connection (w : nat)
| Message (w : nat) (message : inbound)
| Close (w : nat)
| AuthTimeout (w : nat)
| HeartbeatTick.

Definition handle (now : Z) (e : event) : M unit :=
  match e with
  | Connection w => on_connection now w
  | Message w message => on_message now w message
  | Close w => on_close w
  | AuthTimeout w => on_authTimeout now w
  | HeartbeatTick => heartbeat now
  end.

(** Serial run of a list of timed events. *)
Fixpoint run (es : list (Z * event)) (s : Server) : Server :=
  match es with
  | [] => s
  | (now, e) :: es' => run es' (exec (handle now e) s)
  end.

End Dispatch.

(** A server that has just been constructed over a given store. *)
Definition fresh_server (st : Storage) : Server :=
  Srv [] st [] [] ∅ [] ∅.

(** Frames sent on a socket, oldest first. *)
Definition received (w : nat) (s : Server) : list frame :=
  (filter (λ wf, wf.1 = w) (wire s)).*2.

Definition error_frame (now : Z) (message : string) : frame :=
  Frame MessageType.ERROR [("message", JV (JStr message))] now.

(** ** Interleaving of [handleRideAccepted]

    The handler awaits four gateway calls.  Between two awaits it runs
    without interruption; at an await other handlers may run.  A program
    point records where an invocation is suspended and the local variables
    it holds there. *)

Inductive AcceptPoint : Type :=
| AtEntry
| AwaitGetRide (rideRequestId : jsval)
| AwaitGetLocation (rideRequestId : jsval) (ride : obj)
| AwaitUpdateRide (rideRequestId : jsval) (ride : obj)
| AwaitUpdateLocation (rideRequestId : jsval) (ride : obj)
| Finished.

#[global] Instance AcceptPoint_eq_dec : EqDecision AcceptPoint.
Proof. solve_decision. Defined.

(** One uninterrupted segment: complete the awaited gateway call and run
    up to the next await. *)
Definition accept_step (now : Z) (payload : option obj) (client : ConnectedClient)
    (pt : AcceptPoint) : M AcceptPoint :=
  let failed := sendError now (ws client) "Erro ao aceitar corrida" >> ret Finished in
  match pt with
  | AtEntry =>
      if negb (is_driver client) then
        sendError now (ws client) "Apenas motoristas podem aceitar corridas" >> ret Finished
      else
        let* p := destructure payload in
        ret (AwaitGetRide (prop p "rideRequestId"))
  | AwaitGetRide rideRequestId =>
      try_catch
        (let* ride := getRideById rideRequestId in
         match ride with
         | None => sendError now (ws client) "Corrida não encontrada" >> ret Finished
         | Some ride =>
           if negb (strict_eq (prop ride "status") (JStr "pending")) then
             sendError now (ws client) "Esta corrida não está mais disponível" >> ret Finished
           else ret (AwaitGetLocation rideRequestId ride)
         end)
        failed
  | AwaitGetLocation rideRequestId ride =>
      try_catch
        (let* driverLocation := getDriverLocationByDriverId (userId client) in
         if truthy (opt_prop driverLocation "currentRideId") then
           sendError now (ws client) "Você já está em uma corrida ativa" >> ret Finished
         else ret (AwaitUpdateRide rideRequestId ride))
        failed
  | AwaitUpdateRide rideRequestId ride =>
      try_catch
        (updateRide rideRequestId
           (object_of [("driverId", userId client); ("status", JStr "accepted")]) >>
         ret (AwaitUpdateLocation rideRequestId ride))
        failed
  | AwaitUpdateLocation rideRequestId ride =>
      try_catch
        (updateDriverLocation (userId client)
           (object_of [("currentRideId", rideRequestId); ("status", JStr "busy")]) >>
         (if truthy (prop ride "userId") then
            broadcastToUser now (prop ride "userId") "passenger" MessageType.RIDE_ACCEPTED
              [("rideId", JV rideRequestId); ("driverId", JV (userId client));
               ("message", JV (JStr "Sua corrida foi aceita por um motorista"))]
          else ret tt) >>
         broadcastToUserType now "driver" MessageType.RIDE_REJECTED
           [("rideId", JV rideRequestId);
            ("message", JV (JStr "Esta corrida foi aceita por outro motorista"))]
           [userId client] >>
         sendMessage now (ws client) MessageType.RIDE_ACCEPTED
           [("success", JV (JBool true)); ("rideRequestId", JV rideRequestId);
            ("message", JV (JStr "Corrida aceita com sucesso"))] >>
         ret Finished)
        failed
  | Finished => ret Finished
  end.

(** Segments run back to back. *)
Fixpoint accept_segments (n : nat) (now : Z) (payload : option obj)
    (client : ConnectedClient) (pt : AcceptPoint) : M AcceptPoint :=
  match n with
  | O => ret pt
  | S n' =>
      let* pt' := accept_step now payload client pt in
      accept_segments n' now payload client pt'
  end.

(** An invocation of the handler in flight. *)
Record AcceptTask : Type := Task {
  task_client : ConnectedClient;
  task_payload : option obj;
  task_point : AcceptPoint
}.

(** The scheduler resumes task [i] for one segment.  An exception that
    escapes the handler is caught by [handleMessage]. *)
Definition resume (now : Z) (i : nat) (st : Server * list AcceptTask)
    : Server * list AcceptTask :=
  match st.2 !! i with
  | None => st
  | Some t =>
      match accept_step now (task_payload t) (task_client t) (task_point t) st.1 with
      | (Ok pt, s') => (s', <[i := Task (task_client t) (task_payload t) pt]> st.2)
      | (Throw, s') =>
          (exec (sendError now (ws (task_client t)) "Erro interno do servidor") s',
           <[i := Task (task_client t) (task_payload t) Finished]> st.2)
      end
  end.

Definition interleave (now : Z) (schedule : list nat) (st : Server * list AcceptTask)
    : Server * list AcceptTask :=
  foldl (λ st i, resume now i st) st schedule.

Definition all_finished (ts : list AcceptTask) : bool :=
  forallb (λ t, bool_decide (task_point t = Finished)) ts.

(** Attempts handled one after the other, each to completion. *)
Definition serial_accepts (now : Z) (payload : option obj)
    (attempts : list ConnectedClient) (s : Server) : Server :=
  foldl (λ s c, exec (handleRideAccepted now payload c) s) s attempts.

(** Outcome of an attempt, read off the frames sent during the run. *)
Definition accept_confirmation (now : Z) (rideRequestId : jsval) : frame :=
  Frame MessageType.RIDE_ACCEPTED
    [("success", JV (JBool true)); ("rideRequestId", JV rideRequestId);
     ("message", JV (JStr "Corrida aceita com sucesso"))] now.

(** Frames put on the wire between two states of a run. *)
Definition emitted (s final : Server) : list (nat * frame) :=
  drop (length (wire s)) (wire final).

Definition confirmed (now : Z) (rideRequestId : jsval) (c : ConnectedClient)
    (sent : list (nat * frame)) : Prop :=
  (ws c, accept_confirmation now rideRequestId) ∈ sent.

Definition rejected (c : ConnectedClient) (sent : list (nat * frame)) : Prop :=
  ∃ f, (ws c, f) ∈ sent ∧ ftype f = MessageType.ERROR.

(** The at-most-one-acceptance property of a finished set of attempts,
    started in [s], on the ride stored under [k]: one attempt is confirmed,
    the ride carries that driver and the status [accepted], and every other
    attempt is rejected and not confirmed. *)
Definition exactly_one_accepted (now : Z) (k : Z) (attempts : list ConnectedClient)
    (s final : Server) : Prop :=
  ∃ winner, winner ∈ attempts
    ∧ confirmed now (JNum k) winner (emitted s final)
    ∧ opt_prop (rides (storage final) !! k) "driverId" = userId winner
    ∧ opt_prop (rides (storage final) !! k) "status" = JStr "accepted"
    ∧ ∀ c, c ∈ attempts → c ≠ winner →
        rejected c (emitted s final) ∧ ¬ confirmed now (JNum k) c (emitted s final).

(** ** Concrete scenes used by the examples below *)

Definition everywhere : jsval → jsval → Z → obj → bool := λ _ _ _ _, true.
Definition nowhere : jsval → jsval → Z → obj → bool := λ _ _ _ _, false.
Definition plain_date : Z → string := λ t, pretty t.

Definition auth_frame (uid : Z) (utype : string) : inbound :=
  Inbound (JStr "auth") (Some {["userId" := JNum uid; "userType" := JStr utype]}).

Definition ride_frame (type : string) (rideRequestId : Z) : inbound :=
  Inbound (JStr type) (Some {["rideRequestId" := JNum rideRequestId]}).

(** Passenger 10, drivers 20 and 21, both drivers available. *)
Definition example_store : Storage :=
  Store {[20 := {["name" := JStr "D1"]}; 21 := {["name" := JStr "D2"]}]}
        {[10 := {["fullName" := JStr "P"]}]}
        ∅
        {[20 := {["driverId" := JNum 20; "status" := JStr "available"]};
          21 := {["driverId" := JNum 21; "status" := JStr "available"]}]}
        1.

Definition passenger_P : ConnectedClient := Client 1 (JNum 10) (JStr "passenger") 0.
Definition driver_D1 : ConnectedClient := Client 2 (JNum 20) (JStr "driver") 0.
Definition driver_D2 : ConnectedClient := Client 3 (JNum 21) (JStr "driver") 0.

(** The same store with ride 1 of passenger 10 in a given state. *)
Definition store_with_ride (ride : obj) : Storage :=
  set_rides (<[1 := ride]>) example_store.

Definition pending_ride : obj :=
  {["id" := JNum 1; "userId" := JNum 10; "status" := JStr "pending"]}.

Definition ride_of_D1 (status : string) : obj :=
  {["id" := JNum 1; "userId" := JNum 10; "driverId" := JNum 20; "status" := JStr status]}.

(** A registry holding exactly the three authenticated sessions. *)
Definition three_sessions (st : Storage) : Server :=
  Srv [passenger_P; driver_D1; driver_D2] st [] [] {[1%nat; 2%nat; 3%nat]} [] ∅.

(** Both drivers send [ride_accepted] for ride 1; the two invocations take
    turns at every await. *)
Definition racing_accepts : Server * list AcceptTask :=
  interleave 5 [0; 1; 0; 1; 0; 1; 0; 1; 0; 1]%nat
    (three_sessions (store_with_ride pending_ride),
     [Task driver_D1 (Some {["rideRequestId" := JNum 1]}) AtEntry;
      Task driver_D2 (Some {["rideRequestId" := JNum 1]}) AtEntry]).

(** ** Vocabulary of the statements *)

(** The state after a gateway call has been issued. *)
Definition called (c : GatewayCall) (s : Server) : Server :=
  Srv (clients s) (storage s) (tail (faults s)) (gatewayLog s ++ [c])
      (wsOpen s) (wire s) (authTimers s).

(** The next gateway call does not reject. *)
Definition next_call_ok (s : Server) : Prop := head (faults s) ≠ Some true.

(** No gateway call rejects. *)
Definition no_faults (s : Server) : Prop := Forall (λ b, b = false) (faults s).

(** A handler relates every state to the state it leaves. *)
Definition steps (R : relation Server) {A} (m : M A) : Prop := ∀ s, R s (m s).2.

Definition same_clients : relation Server := λ s s', clients s' = clients s.
Definition same_gateway : relation Server :=
  λ s s', storage s' = storage s ∧ gatewayLog s' = gatewayLog s ∧ faults s' = faults s.
Definition same_sockets : relation Server := λ s s', wsOpen s' = wsOpen s.
Definition same_timers : relation Server := λ s s', authTimers s' = authTimers s.

(** The wire only grows, and by frames that satisfy [Q]. *)
Definition wire_grows (Q : nat * frame → Prop) : relation Server :=
  λ s s', ∃ l, wire s' = wire s ++ l ∧ Forall Q l.

(** ** Identities bound in the registry *)

Definition identity (c : ConnectedClient) : jsval * jsval := (userId c, userType c).

(** An entry is bound once it carries a truthy [userId]; the placeholder of
    a connection carries [0]. *)
Definition is_bound (c : ConnectedClient) : Prop := truthy (userId c) = true.

Definition bound (cs : list ConnectedClient) : list (jsval * jsval) :=
  identity <$> (filter is_bound cs).

(** At most one entry per bound identity. *)
Definition unique_identities (s : Server) : Prop := NoDup (bound (clients s)).

Definition keeps_unique : relation Server :=
  λ s s', unique_identities s → unique_identities s'.

(** The reading of "binding a second connection evicts the first and closes
    its connection": the earlier entry [old] is gone and its socket is no
    longer open. *)
Definition evicted_and_closed (old : ConnectedClient) (s' : Server) : Prop :=
  (old ∉ clients s') ∧ (ws old ∉ wsOpen s').

(** The user-existence check of the authentication branch, read on the
    store: only the [driver] and [passenger] roles are looked up. *)
Definition user_exists (st : Storage) (uid utype : jsval) : bool :=
  if strict_eq utype (JStr "driver") then
    bool_decide (is_Some (key uid ≫= λ k, users st !! k))
  else if strict_eq utype (JStr "passenger") then
    bool_decide (is_Some (key uid ≫= λ k, passengers st !! k))
  else true.

(** ** Event traces used by the examples *)

(** The scenario of the specification: passenger 10 and drivers 20 and 21
    connect and authenticate, the passenger requests a ride. *)
Definition scenario_before_accept : list (Z * event) :=
  [(0, Connection 1); (1, Message 1 (auth_frame 10 "passenger"));
   (2, Connection 2); (3, Message 2 (auth_frame 20 "driver"));
   (4, Connection 3); (5, Message 3 (auth_frame 21 "driver"));
   (6, Message 1 (Inbound (JStr "ride_request")
                    (Some {["originLatitude" := JNum (-23);
                            "originLongitude" := JNum (-47)]})))].

(** Driver 20 then accepts ride 1 on its connection. *)
Definition scenario_accept : list (Z * event) :=
  scenario_before_accept ++ [(7, Message 2 (ride_frame "ride_accepted" 1))].

(** Driver 20 connects and authenticates. *)
Definition driver_session : list (Z * event) :=
  [(0, Connection 1); (1000, Message 1 (auth_frame 20 "driver"))].

(** Two connections that send an [auth] frame without identity (which
    clears their authentication timers) and then stay silent. *)
Definition two_silent_connections : list (Z * event) :=
  [(0, Connection 1); (10, Message 1 (Inbound (JStr "auth") None));
   (20, Connection 2); (30, Message 2 (Inbound (JStr "auth") None))].

(** Two driver sessions that then stay silent. *)
Definition two_silent_drivers : list (Z * event) :=
  [(0, Connection 1); (10, Message 1 (auth_frame 20 "driver"));
   (20, Connection 2); (30, Message 2 (auth_frame 21 "driver"))].

(** A driver session that keeps sending frames after authenticating. *)
Definition talking_driver : list (Z * event) :=
  driver_session
  ++ [(50000, Message 1 (Inbound (JStr "driver_status_update")
                           (Some {["status" := JStr "available"]})))].

(** Passenger 10 connects, authenticates late, and sends [ride_canceled]
    for ride 1 right after a heartbeat tick. *)
Definition late_cancel : list (Z * event) :=
  [(0, Connection 1); (50000, Message 1 (auth_frame 10 "passenger"));
   (60001, HeartbeatTick); (60002, Message 1 (ride_frame "ride_canceled" 1))].

(** Driver 20 authenticates on connection 1, then again on connection 2. *)
Definition rebinding : list (Z * event) :=
  [(0, Connection 1); (1, Message 1 (auth_frame 20 "driver"));
   (2, Connection 2); (3, Message 2 (auth_frame 20 "driver"))].

(** ** The placeholder entry of a connection *)

(** The first registry entry of socket [w], the one the message handler
    resolves the connection to, is the placeholder registered when the
    connection was opened. *)
Definition placeholder_first (w : nat) (s : Server) : Prop :=
  ∃ i c, findIndex_ws w (clients s) = Some (i, c)
         ∧ userId c = JNum 0 ∧ userType c = JStr "passenger".

Definition keeps_placeholders : relation Server :=
  λ s s', ∀ w, placeholder_first w s → placeholder_first w s'.

(** Events that remove entries from the registry. *)
Definition registry_shrinking (e : event) : bool :=
  match e with
  | Close _ | HeartbeatTick => true
  | _ => false
  end.

(** ** Counting drivers *)

(** [getDriverCount()]: the registry entries of type ['driver'] whose socket
    is OPEN ([readyState === 1]). *)
Definition getDriverCount (s : Server) : nat :=
  length (filter (λ client, is_driver client = true ∧ readyState_OPEN (ws client) s = true)
                 (clients s)).

(** ** The heartbeat scan, entry by entry *)

(** The test of the scan: the last activity is more than [HEARTBEAT_TIMEOUT]
    old at the reading [now]. *)
Definition inactive (now : Z) (c : ConnectedClient) : Prop :=
  now - lastActivity c > HEARTBEAT_TIMEOUT.

#[global] Instance inactive_dec now c : Decision (inactive now c).
Proof. unfold inactive. apply _. Defined.

(** The registry one scan leaves behind, read off the entries in order: an
    inactive entry that is reached is spliced out, and the entry that moves
    into its index is passed over. *)
Fixpoint scanned (now : Z) (cs : list ConnectedClient) : list ConnectedClient :=
  match cs with
  | [] => []
  | c :: cs' =>
      if decide (inactive now c) then
        match cs' with
        | [] => []
        | c' :: cs'' => c' :: scanned now cs''
        end
      else c :: scanned now cs'
  end.

(** The entries one scan splices out. *)
Fixpoint evicted (now : Z) (cs : list ConnectedClient) : list ConnectedClient :=
  match cs with
  | [] => []
  | c :: cs' =>
      if decide (inactive now c) then
        c :: match cs' with
             | [] => []
             | _ :: cs'' => evicted now cs''
             end
      else evicted now cs'
  end.

(** No inactive entry is directly followed by another inactive entry. *)
Definition inactive_apart (now : Z) (cs : list ConnectedClient) : Prop :=
  ∀ i c c', cs !! i = Some c → cs !! S i = Some c' → inactive now c → ¬ inactive now c'.

(** ** What a handler may touch *)

(** The footprint of the handlers reached from the router: registry, socket
    states and timers stay as they are, and the wire grows by frames handed
    to sockets that are OPEN. *)
Definition handler_footprint : relation Server :=
  λ s s', clients s' = clients s
          ∧ wsOpen s' = wsOpen s
          ∧ authTimers s' = authTimers s
          ∧ ∃ l, wire s' = wire s ++ l ∧ Forall (λ wf, wf.1 ∈ wsOpen s) l.

(** The entries of the registry that belong to socket [w]. *)
Definition entries_of (w : nat) (cs : list ConnectedClient) : list ConnectedClient :=
  filter (λ c, ws c = w) cs.

(** ** Frames handed out by the sending helpers *)

(** The registry entries [broadcastToUser] reaches: those of the identity
    whose socket is OPEN, in registry order. *)
Definition sessions (uid : jsval) (utype : string) (s : Server) : list ConnectedClient :=
  filter (λ c, ws c ∈ wsOpen s)
         (filter (λ c, userId c = uid ∧ userType c = JStr utype) (clients s)).

(** The registry entries [broadcastToUserType] reaches: those of the type,
    outside the excluded users, whose socket is OPEN. *)
Definition sessions_of_type (utype : string) (excludeUsers : list jsval) (s : Server)
    : list ConnectedClient :=
  filter (λ c, ws c ∈ wsOpen s)
         (filter (λ c, userType c = JStr utype ∧ userId c ∉ excludeUsers) (clients s)).

(** One copy of a frame for the socket of each listed entry. *)
Definition deliver (f : frame) (cs : list ConnectedClient) : list (nat * frame) :=
  (λ c, (ws c, f)) <$> cs.

(** What [sendMessage] hands to a socket: the frame when the socket is
    OPEN, nothing otherwise. *)
Definition reply (w : nat) (f : frame) (s : Server) : list (nat * frame) :=
  if bool_decide (w ∈ wsOpen s) then [(w, f)] else [].

(** ** Frame types reserved to drivers *)

(** The types whose handler starts with the test
    [client.userType !== 'driver'], each with the message of the [error]
    frame that test answers with. *)
Definition driver_only : list (string * string) :=
  [(MessageType.DRIVER_LOCATION_UPDATE, "Apenas motoristas podem atualizar localização");
   (MessageType.DRIVER_STATUS_UPDATE, "Apenas motoristas podem atualizar status");
   (MessageType.RIDE_ACCEPTED, "Apenas motoristas podem aceitar corridas");
   (MessageType.RIDE_STARTED, "Apenas motoristas podem iniciar corridas");
   (MessageType.RIDE_COMPLETED, "Apenas motoristas podem completar corridas")].

(** The types the [switch] of the router has a case for. *)
Definition routed : list string :=
  [MessageType.DRIVER_LOCATION_UPDATE; MessageType.DRIVER_STATUS_UPDATE;
   MessageType.RIDE_REQUEST; MessageType.RIDE_ACCEPTED; MessageType.RIDE_STARTED;
   MessageType.RIDE_COMPLETED; MessageType.RIDE_CANCELED; MessageType.PING].

(** ** Further scenes *)

(** The same server with a given fate for its next gateway calls. *)
Definition with_faults (fs : list bool) (s : Server) : Server :=
  Srv (clients s) (storage s) fs (gatewayLog s) (wsOpen s) (wire s) (authTimers s).

(** A server on which one connection has just been opened. *)
Definition one_connection : Server :=
  exec (on_connection 0 1) (fresh_server example_store).

(** A registry with an entry last active at 0, one at 50000 and one at 0. *)
Definition aging_sessions : Server :=
  Srv [Client 1 (JNum 10) (JStr "passenger") 0;
       Client 2 (JNum 20) (JStr "driver") 50000;
       Client 3 (JNum 21) (JStr "driver") 0]
      example_store [] [] {[1%nat; 2%nat; 3%nat]} [] ∅.

(** * Properties *)

(** ** Values *)

Lemma strict_eq_true a b : strict_eq a b = true ↔ a = b.
Proof. unfold strict_eq. apply bool_decide_eq_true. Qed.

Lemma strict_eq_false a b : strict_eq a b = false ↔ a ≠ b.
Proof. unfold strict_eq. apply bool_decide_eq_false. Qed.

Lemma strict_eq_refl a : strict_eq a a = true.
Proof. by apply strict_eq_true. Qed.

Lemma strict_eq_ne a b : a ≠ b → strict_eq a b = false.
Proof. by intros; apply strict_eq_false. Qed.

Lemma is_passenger_not_driver c : is_passenger c = true → is_driver c = false.
Proof.
  unfold is_passenger, is_driver. intros H%strict_eq_true. rewrite H.
  by apply strict_eq_ne.
Qed.

(** ** Primitive runs *)

Lemma sendMessage_open now w type payload s :
  w ∈ wsOpen s →
  sendMessage now w type payload s
  = (Ok tt, set_wire (λ l, l ++ [(w, Frame type payload now)]) s).
Proof.
  intros Hw. unfold sendMessage, bind, get, readyState_OPEN.
  by rewrite bool_decide_eq_true_2.
Qed.

Lemma sendMessage_not_open now w type payload s :
  w ∉ wsOpen s → sendMessage now w type payload s = (Ok tt, s).
Proof.
  intros Hw. unfold sendMessage, bind, get, readyState_OPEN.
  by rewrite bool_decide_eq_false_2.
Qed.

Lemma gateway_ok c s : next_call_ok s → gateway c s = (Ok tt, called c s).
Proof.
  unfold next_call_ok, gateway, called. destruct (faults s) as [|[] ?]; naive_solver.
Qed.

Lemma gateway_fails c s : head (faults s) = Some true → gateway c s = (Throw, called c s).
Proof.
  unfold gateway, called. destruct (faults s) as [|[] ?]; naive_solver.
Qed.

(** ** Frame rules

    A relation between the state before and after a handler that is
    reflexive and transitive is established for a handler by establishing
    it for the primitive operations the handler is made of. *)

Section Frame.

Context (R : relation Server) `{!Reflexive R, !Transitive R}.

Lemma steps_ret {A} (a : A) : steps R (ret a).
Proof. intros s. simpl. reflexivity. Qed.

Lemma steps_throw {A} : steps R (@throw A).
Proof. intros s. simpl. reflexivity. Qed.

Lemma steps_get : steps R get.
Proof. intros s. simpl. reflexivity. Qed.

Lemma steps_bind {A B} (m : M A) (k : A → M B) :
  steps R m → (∀ a, steps R (k a)) → steps R (bind m k).
Proof.
  intros Hm Hk s. unfold bind. specialize (Hm s).
  destruct (m s) as [[a|] s1]; simpl in *; [|done].
  etrans; [exact Hm|apply Hk].
Qed.

Lemma steps_try_catch {A} (m h : M A) :
  steps R m → steps R h → steps R (try_catch m h).
Proof.
  intros Hm Hh s. unfold try_catch. specialize (Hm s).
  destruct (m s) as [[a|] s1]; simpl in *; [done|].
  etrans; [exact Hm|apply Hh].
Qed.

Lemma steps_forEach {A} (l : list A) (f : A → M unit) :
  (∀ x, steps R (f x)) → steps R (forEach l f).
Proof.
  intros Hf. induction l as [|x l IH]; simpl.
  - apply steps_ret.
  - apply steps_bind; [apply Hf|intros _; apply IH].
Qed.

Lemma steps_destructure payload : steps R (destructure payload).
Proof. destruct payload; [apply steps_ret|apply steps_throw]. Qed.

Lemma steps_get_bind {B} (k : Server → M B) :
  (∀ s, R s (k s s).2) → steps R (bind get k).
Proof. intros H s. apply H. Qed.

Lemma steps_at {A} (m : M A) s : steps R m → R s (m s).2.
Proof. intros H. apply H. Qed.

End Frame.

(** ** The relations of the statements are preorders *)

#[global] Instance same_clients_refl : Reflexive same_clients.
Proof. by intros s. Qed.
#[global] Instance same_clients_trans : Transitive same_clients.
Proof. unfold same_clients. intros s1 s2 s3 H1 H2. congruence. Qed.

#[global] Instance same_gateway_refl : Reflexive same_gateway.
Proof. by intros s. Qed.
#[global] Instance same_gateway_trans : Transitive same_gateway.
Proof. unfold same_gateway. intros s1 s2 s3 (?&?&?) (?&?&?). repeat split; congruence. Qed.

#[global] Instance same_sockets_refl : Reflexive same_sockets.
Proof. by intros s. Qed.
#[global] Instance same_sockets_trans : Transitive same_sockets.
Proof. unfold same_sockets. intros s1 s2 s3 H1 H2. congruence. Qed.

#[global] Instance wire_grows_refl Q : Reflexive (wire_grows Q).
Proof. intros s. exists []. by rewrite app_nil_r. Qed.
#[global] Instance wire_grows_trans Q : Transitive (wire_grows Q).
Proof.
  intros s1 s2 s3 (l1 & E1 & F1) (l2 & E2 & F2). exists (l1 ++ l2).
  split; [by rewrite E2, E1, app_assoc|by apply Forall_app].
Qed.

(** ** Primitive operations under each relation *)

Lemma gateway_state c s : (gateway c s).2 = called c s.
Proof. unfold gateway, called. by destruct (faults s) as [|[] ?]. Qed.

Lemma gateway_same_clients c : steps same_clients (gateway c).
Proof. intros s. by rewrite gateway_state. Qed.

Lemma gateway_same_sockets c : steps same_sockets (gateway c).
Proof. intros s. by rewrite gateway_state. Qed.

Lemma gateway_wire_grows Q c : steps (wire_grows Q) (gateway c).
Proof. intros s. rewrite gateway_state. exists []. by rewrite app_nil_r. Qed.

Lemma sendMessage_state now w type payload s :
  (sendMessage now w type payload s).2
  = if bool_decide (w ∈ wsOpen s)
    then set_wire (λ l, l ++ [(w, Frame type payload now)]) s else s.
Proof. unfold sendMessage, bind, get, readyState_OPEN. by case_bool_decide. Qed.

Lemma sendMessage_same_clients now w type payload :
  steps same_clients (sendMessage now w type payload).
Proof. intros s. rewrite sendMessage_state. by case_bool_decide. Qed.

Lemma sendMessage_same_sockets now w type payload :
  steps same_sockets (sendMessage now w type payload).
Proof. intros s. rewrite sendMessage_state. by case_bool_decide. Qed.

Lemma sendMessage_wire_grows (Q : nat * frame → Prop) now w type payload :
  Q (w, Frame type payload now) → steps (wire_grows Q) (sendMessage now w type payload).
Proof.
  intros HQ s. rewrite sendMessage_state. case_bool_decide.
  - exists [(w, Frame type payload now)]. split; [done|by constructor].
  - exists []. by rewrite app_nil_r.
Qed.

Lemma ws_send_wire_grows (Q : nat * frame → Prop) w f :
  Q (w, f) → steps (wire_grows Q) (ws_send w f).
Proof. intros HQ s. exists [(w, f)]. split; [done|by constructor]. Qed.

Lemma modify_wire_grows Q (f : Server → Server) :
  (∀ s, wire (f s) = wire s) → steps (wire_grows Q) (modify f).
Proof. intros Hf s. exists []. simpl. by rewrite Hf, app_nil_r. Qed.

(** Structural decomposition of a handler for a goal [steps R m]. *)
Ltac steps_structure :=
  repeat match goal with
    | |- steps _ (ret _) => refine (steps_ret _ _)
    | |- steps _ throw => refine (steps_throw _)
    | |- steps _ get => refine (steps_get _)
    | |- steps _ (destructure _) => refine (steps_destructure _ _)
    | |- steps _ (bind _ _) => refine (steps_bind _ _ _ _ _); [|intros ?]
    | |- steps _ (try_catch _ _) => refine (steps_try_catch _ _ _ _ _)
    | |- steps _ (forEach _ _) => refine (steps_forEach _ _ _ _); intros ?
    | |- steps _ (if ?b then _ else _) => destruct b
    | |- steps _ (match ?x with _ => _ end) => destruct x
    end.

(** ** Handlers under a relation kept by their primitives *)

Section GatewayFrame.

Context (R : relation Server) `{!Reflexive R, !Transitive R}.
Hypothesis R_gateway : ∀ c, steps R (gateway c).
Hypothesis R_storage : ∀ f, steps R (modify (set_storage f)).

Lemma getUser_steps id : steps R (getUser id).
Proof. unfold getUser. steps_structure. apply R_gateway. Qed.

Lemma getPassenger_steps id : steps R (getPassenger id).
Proof. unfold getPassenger. steps_structure. apply R_gateway. Qed.

Lemma getDriverLocationByDriverId_steps id : steps R (getDriverLocationByDriverId id).
Proof. unfold getDriverLocationByDriverId. steps_structure. apply R_gateway. Qed.

Lemma getRideById_steps id : steps R (getRideById id).
Proof. unfold getRideById. steps_structure. apply R_gateway. Qed.

Lemma updateRide_steps id fields : steps R (updateRide id fields).
Proof. unfold updateRide. steps_structure; [apply R_gateway|apply R_storage]. Qed.

Lemma updateDriverLocation_steps id fields : steps R (updateDriverLocation id fields).
Proof. unfold updateDriverLocation. steps_structure; [apply R_gateway|apply R_storage]. Qed.

Lemma createDriverLocation_steps fields : steps R (createDriverLocation fields).
Proof. unfold createDriverLocation. steps_structure; [apply R_gateway|apply R_storage]. Qed.

Lemma createRideRequest_steps fields : steps R (createRideRequest fields).
Proof. unfold createRideRequest. steps_structure; [apply R_gateway|apply R_storage]. Qed.

Lemma getAvailableDriversNearLocation_steps within lat lng radius :
  steps R (getAvailableDriversNearLocation within lat lng radius).
Proof. unfold getAvailableDriversNearLocation. steps_structure. apply R_gateway. Qed.

Hypothesis R_sendMessage : ∀ now w type payload, steps R (sendMessage now w type payload).

Lemma sendError_steps now w message : steps R (sendError now w message).
Proof. apply R_sendMessage. Qed.

Lemma broadcastToUser_steps now uid utype type payload :
  steps R (broadcastToUser now uid utype type payload).
Proof. unfold broadcastToUser. steps_structure. apply R_sendMessage. Qed.

Lemma broadcastToUserType_steps now utype type payload excludeUsers :
  steps R (broadcastToUserType now utype type payload excludeUsers).
Proof. unfold broadcastToUserType. steps_structure. apply R_sendMessage. Qed.

#[local] Hint Resolve getUser_steps getPassenger_steps getDriverLocationByDriverId_steps
  getRideById_steps updateRide_steps updateDriverLocation_steps createDriverLocation_steps
  createRideRequest_steps getAvailableDriversNearLocation_steps sendError_steps
  broadcastToUser_steps broadcastToUserType_steps : core.

Lemma handleRideAccepted_steps now payload client :
  steps R (handleRideAccepted now payload client).
Proof. unfold handleRideAccepted. steps_structure; auto. Qed.

Lemma handleRideStarted_steps now payload client :
  steps R (handleRideStarted now payload client).
Proof. unfold handleRideStarted. steps_structure; auto. Qed.

Lemma handleRideCompleted_steps now payload client :
  steps R (handleRideCompleted now payload client).
Proof. unfold handleRideCompleted. steps_structure; auto. Qed.

Lemma handleRideCanceled_steps now payload client :
  steps R (handleRideCanceled now payload client).
Proof. unfold handleRideCanceled. steps_structure; auto. Qed.

Lemma handleDriverLocationUpdate_steps now payload client :
  steps R (handleDriverLocationUpdate now payload client).
Proof. unfold handleDriverLocationUpdate. steps_structure; auto. Qed.

Lemma handleDriverStatusUpdate_steps now payload client :
  steps R (handleDriverStatusUpdate now payload client).
Proof. unfold handleDriverStatusUpdate. steps_structure; auto. Qed.

Lemma simulateRideRequestForTesting_steps iso now payload client :
  steps R (simulateRideRequestForTesting iso now payload client).
Proof. unfold simulateRideRequestForTesting. steps_structure; auto. Qed.

Lemma handleRideRequest_steps within iso now payload client :
  steps R (handleRideRequest within iso now payload client).
Proof.
  unfold handleRideRequest. steps_structure; auto using simulateRideRequestForTesting_steps.
Qed.

(** Every handler reached from the router keeps a relation that the
    gateway, the store update and [sendMessage] keep. *)
Lemma handleMessage_steps within iso now type payload client :
  steps R (handleMessage within iso now type payload client).
Proof.
  unfold handleMessage.
  steps_structure;
    auto using handleRideAccepted_steps, handleRideStarted_steps, handleRideCompleted_steps,
      handleRideCanceled_steps, handleDriverLocationUpdate_steps,
      handleDriverStatusUpdate_steps, handleRideRequest_steps.
Qed.

End GatewayFrame.

(** A gateway operation keeps a relation kept by the gateway call and by
    the store update. *)
Ltac gateway_op :=
  first [ apply getUser_steps | apply getPassenger_steps
        | apply getDriverLocationByDriverId_steps | apply getRideById_steps
        | apply updateRide_steps | apply updateDriverLocation_steps
        | apply createDriverLocation_steps | apply createRideRequest_steps
        | apply getAvailableDriversNearLocation_steps ].

Lemma modify_same_clients (f : Server → Server) :
  (∀ s, clients (f s) = clients s) → steps same_clients (modify f).
Proof. intros Hf s. apply Hf. Qed.

Lemma modify_same_sockets (f : Server → Server) :
  (∀ s, wsOpen (f s) = wsOpen s) → steps same_sockets (modify f).
Proof. intros Hf s. apply Hf. Qed.

(** No handler reached from the router touches the registry or closes a
    socket. *)
Lemma handleMessage_same_clients within iso now type payload client :
  steps same_clients (handleMessage within iso now type payload client).
Proof.
  apply handleMessage_steps; try apply _.
  - apply gateway_same_clients.
  - intros f. by apply modify_same_clients.
  - apply sendMessage_same_clients.
Qed.

Lemma handleMessage_same_sockets within iso now type payload client :
  steps same_sockets (handleMessage within iso now type payload client).
Proof.
  apply handleMessage_steps; try apply _.
  - apply gateway_same_sockets.
  - intros f. by apply modify_same_sockets.
  - apply sendMessage_same_sockets.
Qed.

(** ** Identity uniqueness *)

#[global] Instance keeps_unique_refl : Reflexive keeps_unique.
Proof. intros s H. exact H. Qed.
#[global] Instance keeps_unique_trans : Transitive keeps_unique.
Proof. unfold keeps_unique. intros s1 s2 s3 H1 H2 H. auto. Qed.

Lemma same_clients_keeps_unique {A} (m : M A) :
  steps same_clients m → steps keeps_unique m.
Proof. intros H s. specialize (H s). unfold keeps_unique, unique_identities. by rewrite H. Qed.

Lemma bound_app cs1 cs2 : bound (cs1 ++ cs2) = bound cs1 ++ bound cs2.
Proof. unfold bound. by rewrite filter_app, fmap_app. Qed.

Lemma bound_sublist cs1 cs2 : sublist cs1 cs2 → sublist (bound cs1) (bound cs2).
Proof.
  intros H. unfold bound. apply fmap_sublist.
  induction H as [|x l1 l2 H IH|x l1 l2 H IH]; [done| |].
  - rewrite !filter_cons. case_decide; [by constructor|done].
  - rewrite filter_cons. case_decide; [by constructor|done].
Qed.

Lemma bound_delete i cs : NoDup (bound cs) → NoDup (bound (delete i cs)).
Proof. intros H. eapply sublist_NoDup; [exact H|]. apply bound_sublist, sublist_delete. Qed.

Lemma bound_touch now i c cs :
  cs !! i = Some c → bound (<[i := touch now c]> cs) = bound cs.
Proof.
  revert i. induction cs as [|x cs IH]; intros [|i] Hi; simplify_eq/=; [|].
  - unfold bound. rewrite !filter_cons.
    change (is_bound (touch now c)) with (is_bound c).
    by destruct (decide (is_bound c)).
  - unfold bound in *. rewrite !filter_cons. specialize (IH _ Hi).
    destruct (decide (is_bound x)); [|done]. rewrite !fmap_cons. by f_equal.
Qed.

Lemma bound_rebind w uid utype now cs :
  NoDup (bound cs) →
  NoDup (bound (filter (λ c, ¬ (userId c = uid ∧ userType c = utype)) cs
                ++ [Client w uid utype now])).
Proof.
  intros H. rewrite bound_app. apply NoDup_app. split_and!.
  - eapply sublist_NoDup; [exact H|]. apply bound_sublist, sublist_filter.
  - intros [a b] Hin Hin2. unfold bound in *.
    apply list_elem_of_fmap in Hin as (c & Hc & Hin).
    apply list_elem_of_filter in Hin as [_ Hin].
    apply list_elem_of_filter in Hin as [Hne _].
    apply list_elem_of_fmap in Hin2 as (c2 & Hc2 & Hin2).
    apply list_elem_of_filter in Hin2 as [_ Hin2].
    apply list_elem_of_singleton in Hin2. subst c2.
    unfold identity in *. simplify_eq/=. naive_solver.
  - unfold bound. rewrite filter_cons, filter_nil. case_decide; simpl.
    + apply NoDup_singleton.
    + apply NoDup_nil_2.
Qed.


Ltac same_clients_prim :=
  apply same_clients_keeps_unique;
  first [ apply sendMessage_same_clients
        | by apply modify_same_clients
        | apply gateway_same_clients
        | gateway_op;
          first [ apply _ | apply gateway_same_clients | intros; by apply modify_same_clients ] ].

(** ** Gateway calls that succeed or reject *)

Lemma getRideById_ok id s :
  next_call_ok s →
  getRideById id s = (Ok (key id ≫= λ k, rides (storage s) !! k), called (GetRideById id) s).
Proof. intros H. unfold getRideById, bind. by rewrite gateway_ok. Qed.

Lemma getRideById_fails id s :
  head (faults s) = Some true →
  getRideById id s = (Throw, called (GetRideById id) s).
Proof. intros H. unfold getRideById, bind. by rewrite gateway_fails. Qed.

Lemma getDriverLocationByDriverId_ok id s :
  next_call_ok s →
  getDriverLocationByDriverId id s
  = (Ok (key id ≫= λ k, driverLocations (storage s) !! k),
     called (GetDriverLocationByDriverId id) s).
Proof. intros H. unfold getDriverLocationByDriverId, bind. by rewrite gateway_ok. Qed.

Lemma getPassenger_ok id s :
  next_call_ok s →
  getPassenger id s
  = (Ok (key id ≫= λ k, passengers (storage s) !! k), called (GetPassenger id) s).
Proof. intros H. unfold getPassenger, bind. by rewrite gateway_ok. Qed.

Lemma updateRide_ok id fields s :
  next_call_ok s →
  updateRide id fields s
  = (Ok tt, set_storage (store_updateRide id fields) (called (UpdateRide id fields) s)).
Proof. intros H. unfold updateRide, bind. by rewrite gateway_ok. Qed.

Lemma updateDriverLocation_ok id fields s :
  next_call_ok s →
  updateDriverLocation id fields s
  = (Ok tt, set_storage (store_updateDriverLocation id fields)
                        (called (UpdateDriverLocation id fields) s)).
Proof. intros H. unfold updateDriverLocation, bind. by rewrite gateway_ok. Qed.

Lemma createRideRequest_ok fields s :
  next_call_ok s →
  createRideRequest fields s
  = (Ok (new_ride_row (nextRideId (storage s)) fields),
     set_storage (store_createRideRequest fields) (called (CreateRideRequest fields) s)).
Proof. intros H. unfold createRideRequest, bind. by rewrite gateway_ok. Qed.

Lemma no_faults_next s : no_faults s → next_call_ok s.
Proof.
  unfold no_faults, next_call_ok. destruct (faults s) as [|b l]; [done|].
  intros H. apply Forall_cons in H as [-> _]. done.
Qed.

Lemma no_faults_called c s : no_faults s → no_faults (called c s).
Proof.
  unfold no_faults. simpl. destruct (faults s) as [|b l]; [done|].
  intros H. by apply Forall_cons in H as [_ ?].
Qed.

(** ** Store rows after an update, and fan-out *)

Lemma prop_union_l (f r : obj) k v : f !! k = Some v → prop (f ∪ r) k = v.
Proof. intros H. unfold prop. by rewrite (lookup_union_Some_l _ _ _ _ H). Qed.

Lemma rides_updateRide k fields st ride :
  rides st !! k = Some ride →
  rides (store_updateRide (JNum k) fields st) = <[k := fields ∪ ride]> (rides st).
Proof. intros H. unfold store_updateRide. simpl. by rewrite H. Qed.

Lemma rides_updateDriverLocation id fields st :
  rides (store_updateDriverLocation id fields st) = rides st.
Proof. unfold store_updateDriverLocation. by repeat case_match. Qed.

Lemma driverLocations_updateDriverLocation d fields st :
  driverLocations (store_updateDriverLocation (JNum d) fields st)
  = <[d := fields ∪ default {["driverId" := JNum d]} (driverLocations st !! d)]>
      (driverLocations st).
Proof. done. Qed.

Lemma no_faults_set_storage f s : no_faults s → no_faults (set_storage f s).
Proof. done. Qed.

Lemma no_faults_set_wire f s : no_faults s → no_faults (set_wire f s).
Proof. done. Qed.

(** Discharges [next_call_ok] and [no_faults] side conditions along a run. *)
Ltac calls_ok :=
  try apply no_faults_next;
  repeat first [ assumption | apply no_faults_called | apply no_faults_set_storage
               | apply no_faults_set_wire ].

Lemma sendMessage_run now w type payload s :
  sendMessage now w type payload s
  = (Ok tt, if bool_decide (w ∈ wsOpen s)
            then set_wire (λ l, l ++ [(w, Frame type payload now)]) s else s).
Proof. unfold sendMessage, bind, get, readyState_OPEN. by case_bool_decide. Qed.

(** The frames a fan-out puts on the wire: one per listed client whose
    socket is open, in list order. *)
Lemma forEach_sendMessage now type payload (l : list ConnectedClient) s :
  forEach l (λ c, sendMessage now (ws c) type payload) s
  = (Ok tt,
     set_wire (λ wr, wr ++ ((λ c, (ws c, Frame type payload now))
                              <$> filter (λ c, ws c ∈ wsOpen s) l)) s).
Proof.
  revert s. induction l as [|c l IH]; intros s.
  - simpl. unfold ret, set_wire. destruct s; simpl. by rewrite app_nil_r.
  - simpl forEach. unfold bind. rewrite filter_cons.
    destruct (decide (ws c ∈ wsOpen s)) as [Hc|Hc].
    + rewrite sendMessage_open by done. rewrite IH. simpl.
      unfold set_wire; simpl. by rewrite <- app_assoc.
    + rewrite sendMessage_not_open by done. by rewrite IH.
Qed.

Lemma broadcastToUser_run now uid utype type payload s :
  broadcastToUser now uid utype type payload s
  = (Ok tt,
     set_wire (λ wr, wr ++ ((λ c, (ws c, Frame type payload now))
        <$> filter (λ c, ws c ∈ wsOpen s)
              (filter (λ c, userId c = uid ∧ userType c = JStr utype) (clients s)))) s).
Proof. unfold broadcastToUser, bind, get. by rewrite forEach_sendMessage. Qed.

Lemma broadcastToUserType_run now utype type payload excludeUsers s :
  broadcastToUserType now utype type payload excludeUsers s
  = (Ok tt,
     set_wire (λ wr, wr ++ ((λ c, (ws c, Frame type payload now))
        <$> filter (λ c, ws c ∈ wsOpen s)
              (filter (λ c, userType c = JStr utype ∧ userId c ∉ excludeUsers)
                      (clients s)))) s).
Proof. unfold broadcastToUserType, bind, get. by rewrite forEach_sendMessage. Qed.

(** ** Ride lifecycle *)

(** The handler on a ride that is not pending: the store is unchanged, the
    only gateway call is the read of the ride, the registry is unchanged,
    and the driver's socket is sent exactly one [error] frame, which says
    that the ride is no longer available unless the read itself was
    rejected by the gateway. *)
Lemma handleRideAccepted_conflict now p client s k ride :
  is_driver client = true →
  prop p "rideRequestId" = JNum k →
  rides (storage s) !! k = Some ride →
  prop ride "status" ≠ JStr "pending" →
  ws client ∈ wsOpen s →
  let s' := exec (handleRideAccepted now (Some p) client) s in
  storage s' = storage s
  ∧ gatewayLog s' = gatewayLog s ++ [GetRideById (JNum k)]
  ∧ clients s' = clients s
  ∧ ∃ message,
      wire s' = wire s ++ [(ws client, error_frame now message)]
      ∧ (next_call_ok s → message = "Esta corrida não está mais disponível").
Proof.
  intros Hdrv Hid Hride Hst Hopen s'. subst s'.
  unfold exec, handleRideAccepted. rewrite Hdrv.
  unfold try_catch, bind, destructure, ret. cbn [negb]. cbv beta iota zeta. rewrite Hid.
  destruct (decide (head (faults s) = Some true)) as [Hf|Hf].
  - rewrite getRideById_fails by done.
    unfold sendError. rewrite sendMessage_open by done. simpl.
    repeat split; eauto. eexists; split; [reflexivity|]. intros Hok. by destruct Hok.
  - rewrite getRideById_ok by done. simpl. rewrite Hride.
    rewrite (strict_eq_ne _ _ Hst). simpl.
    unfold sendError. rewrite sendMessage_open by done. simpl.
    repeat split; eauto.
Qed.

(** C7. When [ride_completed] is handled for the driver assigned to a
    stored ride whose status is [active] and the gateway calls succeed, the
    handler reads the ride, updates it to the status [completed] with its
    end time, and updates the driver's DriverLocation to the status
    [available] with a null [currentRideId]; the rows of the store carry
    these values afterwards, and the driver is sent the success
    confirmation. *)
Theorem C7_completion_frees_driver now p client s k d ride :
  is_driver client = true →
  userId client = JNum d →
  prop p "rideRequestId" = JNum k →
  rides (storage s) !! k = Some ride →
  prop ride "driverId" = JNum d →
  prop ride "status" = JStr "active" →
  no_faults s →
  let s' := exec (handleRideCompleted now (Some p) client) s in
  gatewayLog s'
  = gatewayLog s
    ++ [GetRideById (JNum k);
        UpdateRide (JNum k)
          (object_of [("status", JStr "completed"); ("endTime", JNum now)]);
        UpdateDriverLocation (JNum d)
          (object_of [("currentRideId", JNull); ("status", JStr "available")])]
  ∧ (∃ ride', rides (storage s') !! k = Some ride'
      ∧ prop ride' "status" = JStr "completed"
      ∧ prop ride' "endTime" = JNum now)
  ∧ (∃ location, driverLocations (storage s') !! d = Some location
      ∧ prop location "status" = JStr "available"
      ∧ prop location "currentRideId" = JNull)
  ∧ (ws client ∈ wsOpen s →
     (ws client,
      Frame MessageType.RIDE_COMPLETED
        [("success", JV (JBool true)); ("rideRequestId", JV (JNum k));
         ("message", JV (JStr "Corrida completada com sucesso"))] now) ∈ wire s').
Proof.
  intros Hdrv Huid Hid Hride Hdid Hst Hnf s'. subst s'.
  unfold exec, handleRideCompleted. rewrite Hdrv.
  unfold try_catch, bind, destructure, ret. cbn [negb]. cbv beta iota zeta.
  rewrite Hid, Huid.
  rewrite getRideById_ok by calls_ok.
  cbn [key mbind option_bind]. change (storage (called _ s)) with (storage s).
  rewrite Hride. cbv beta iota. rewrite Hdid, Hst, !strict_eq_refl. cbn [negb]. cbv iota.
  rewrite updateRide_ok by calls_ok.
  cbv iota.
  rewrite updateDriverLocation_ok by calls_ok.
  cbv iota.
  match goal with |- context [(if _ then _ else _) ?x] => set (s3 := x) end.
  assert (∃ g, (if truthy (prop ride "userId")
       then broadcastToUser now (prop ride "userId") "passenger"
              MessageType.RIDE_COMPLETED
              [("rideId", JV (JNum k)); ("driverId", JV (JNum d));
               ("price", JV (prop ride "amount"));
               ("message", JV (JStr "Sua corrida foi completada"))]
       else λ s0 : Server, (Ok (), s0)) s3 = (Ok tt, set_wire g s3)) as [g ->].
  { destruct (truthy (prop ride "userId")).
    - rewrite broadcastToUser_run. eauto.
    - exists (λ wr, wr). by destruct s3. }
  cbv iota. rewrite sendMessage_run. cbn [snd].
  match goal with |- context [storage ?x] =>
    assert (storage x
            = store_updateDriverLocation (JNum d)
                (object_of [("currentRideId", JNull); ("status", JStr "available")])
                (store_updateRide (JNum k)
                   (object_of [("status", JStr "completed"); ("endTime", JNum now)])
                   (storage s))) as -> by (by case_bool_decide)
  end.
  split_and!.
  - case_bool_decide; simpl; by rewrite <- !app_assoc.
  - exists (object_of [("status", JStr "completed"); ("endTime", JNum now)] ∪ ride).
    split_and!.
    + rewrite rides_updateDriverLocation, (rides_updateRide _ _ _ _ Hride).
      apply lookup_insert_eq.
    + by apply prop_union_l.
    + by apply prop_union_l.
  - eexists. split_and!.
    + rewrite driverLocations_updateDriverLocation. apply lookup_insert_eq.
    + by apply prop_union_l.
    + by apply prop_union_l.
  - intros Hopen. rewrite bool_decide_eq_true_2 by done. simpl.
    apply elem_of_app. right. by apply list_elem_of_singleton.
Qed.

(** ** The accept race *)

Lemma accept_segments_Finished n now payload client s :
  accept_segments n now payload client Finished s = (Ok Finished, s).
Proof. induction n as [|n IH]; [done|]. simpl. unfold bind. simpl. apply IH. Qed.

(** Running the five segments back to back is the handler itself. *)
Lemma handleRideAccepted_segments now payload client s :
  handleRideAccepted now payload client s
  = match accept_segments 5 now payload client AtEntry s with
    | (Ok _, s') => (Ok tt, s')
    | (Throw, s') => (Throw, s')
    end.
Proof.
  unfold handleRideAccepted.
  cbn [accept_segments]. unfold accept_step.
  unfold try_catch, bind, ret, throw, destructure. cbv beta iota zeta.
  destruct (is_driver client); cbn [negb]; cbv iota.
  2:{ by destruct (sendError _ _ _ s) as [[[]|] ?]. }
  destruct payload as [p|]; unfold ret, throw; cbv beta iota; [|done].
  repeat first
    [ reflexivity
    | match goal with
      | |- context [getRideById ?a ?b] => destruct (getRideById a b) as [[[?|]|] ?]
      | |- context [getDriverLocationByDriverId ?a ?b] =>
          destruct (getDriverLocationByDriverId a b) as [[?|] ?]
      | |- context [updateRide ?a ?f ?b] => destruct (updateRide a f b) as [[[]|] ?]
      | |- context [updateDriverLocation ?a ?f ?b] =>
          destruct (updateDriverLocation a f b) as [[[]|] ?]
      | |- context [broadcastToUserType ?a ?b ?c ?d ?e ?f] =>
          destruct (broadcastToUserType a b c d e f) as [[[]|] ?]
      | |- context [broadcastToUser ?a ?b ?c ?d ?e ?f] =>
          destruct (broadcastToUser a b c d e f) as [[[]|] ?]
      | |- context [sendMessage ?a ?b ?c ?d ?e] =>
          destruct (sendMessage a b c d e) as [[[]|] ?]
      | |- context [sendError ?a ?b ?c ?d] => destruct (sendError a b c d) as [[[]|] ?]
      | |- context [if ?b then _ else _] => destruct b
      end; cbv beta iota ].
Qed.

Lemma accept_rejected_run now p c s k ride :
  is_driver c = true →
  prop p "rideRequestId" = JNum k →
  rides (storage s) !! k = Some ride →
  prop ride "status" ≠ JStr "pending" →
  ws c ∈ wsOpen s →
  next_call_ok s →
  exec (handleRideAccepted now (Some p) c) s
  = set_wire (λ l, l ++ [(ws c, error_frame now "Esta corrida não está mais disponível")])
             (called (GetRideById (JNum k)) s).
Proof.
  intros Hdrv Hid Hride Hst Hopen Hok.
  unfold exec, handleRideAccepted. rewrite Hdrv.
  unfold try_catch, bind, destructure, ret. cbn [negb]. cbv beta iota zeta. rewrite Hid.
  rewrite getRideById_ok by done. simpl. rewrite Hride.
  rewrite (strict_eq_ne _ _ Hst). simpl.
  unfold sendError. by rewrite sendMessage_open by done.
Qed.

Lemma accept_conflict_run now p c s k ride :
  is_driver c = true →
  prop p "rideRequestId" = JNum k →
  rides (storage s) !! k = Some ride →
  prop ride "status" ≠ JStr "pending" →
  ws c ∈ wsOpen s →
  handleRideAccepted now (Some p) c s
  = (Ok tt,
     set_wire (λ l, l ++ [(ws c, error_frame now
                 (if bool_decide (head (faults s) = Some true)
                  then "Erro ao aceitar corrida"
                  else "Esta corrida não está mais disponível"))])
              (called (GetRideById (JNum k)) s)).
Proof.
  intros Hdrv Hid Hride Hst Hopen.
  unfold handleRideAccepted. rewrite Hdrv.
  unfold try_catch, bind, destructure, ret. cbn [negb]. cbv beta iota zeta. rewrite Hid.
  case_bool_decide as Hf.
  - rewrite getRideById_fails by done.
    unfold sendError. by rewrite sendMessage_open by done.
  - rewrite getRideById_ok by done. simpl. rewrite Hride.
    rewrite (strict_eq_ne _ _ Hst). simpl.
    unfold sendError. by rewrite sendMessage_open by done.
Qed.

Lemma serial_rejections now p k ride ds s :
  prop p "rideRequestId" = JNum k →
  rides (storage s) !! k = Some ride →
  prop ride "status" ≠ JStr "pending" →
  Forall (λ c, is_driver c = true) ds →
  Forall (λ c, ws c ∈ wsOpen s) ds →
  no_faults s →
  let s' := serial_accepts now (Some p) ds s in
  storage s' = storage s
  ∧ wire s' = wire s
      ++ ((λ c, (ws c, error_frame now "Esta corrida não está mais disponível")) <$> ds).
Proof.
  intros Hid Hride Hst Hdrv Hopen Hnf. simpl. revert s Hride Hopen Hnf.
  induction Hdrv as [|c ds Hc Hdrv IH]; intros s Hride Hopen Hnf.
  - simpl. by rewrite app_nil_r.
  - apply Forall_cons in Hopen as [Hoc Hopen]. simpl.
    rewrite (accept_rejected_run now p c s k ride) by (done || calls_ok).
    match goal with |- context [serial_accepts _ _ _ ?x] => destruct (IH x) as [E1 E2] end;
      [done|done|calls_ok|].
    rewrite E1, E2. simpl. split; [done|]. by rewrite <- app_assoc.
Qed.

Lemma storage_called c s : storage (called c s) = storage s.
Proof. done. Qed.

Lemma accept_success_run now p d s k ride :
  is_driver d = true →
  prop p "rideRequestId" = JNum k →
  rides (storage s) !! k = Some ride →
  prop ride "status" = JStr "pending" →
  truthy (opt_prop (key (userId d) ≫= λ i, driverLocations (storage s) !! i)
                   "currentRideId") = false →
  ws d ∈ wsOpen s →
  no_faults s →
  let s1 := exec (handleRideAccepted now (Some p) d) s in
  storage s1
  = store_updateDriverLocation (userId d)
      (object_of [("currentRideId", JNum k); ("status", JStr "busy")])
      (store_updateRide (JNum k)
         (object_of [("driverId", userId d); ("status", JStr "accepted")]) (storage s))
  ∧ wsOpen s1 = wsOpen s
  ∧ no_faults s1
  ∧ ∃ sent, wire s1 = wire s ++ sent ++ [(ws d, accept_confirmation now (JNum k))]
            ∧ Forall (λ wf, wf.2 ≠ accept_confirmation now (JNum k)) sent.
Proof.
  intros Hdrv Hid Hride Hst Hfree Hopen Hnf s1. subst s1.
  unfold exec, handleRideAccepted. rewrite Hdrv.
  unfold try_catch, bind, destructure, ret. cbn [negb]. cbv beta iota zeta. rewrite Hid.
  rewrite getRideById_ok by calls_ok.
  cbn [key mbind option_bind].
  rewrite Hride. cbv beta iota. rewrite Hst, strict_eq_refl. cbn [negb]. cbv iota.
  rewrite getDriverLocationByDriverId_ok by calls_ok. cbv iota.
  rewrite ?storage_called.
  rewrite Hfree. cbv iota.
  rewrite updateRide_ok by calls_ok. cbv iota.
  rewrite updateDriverLocation_ok by calls_ok. cbv iota.
  match goal with |- context [(if _ then _ else _) ?x] => set (s3 := x) end.
  set (frames1 := if truthy (prop ride "userId") then
        ((λ c, (ws c, Frame MessageType.RIDE_ACCEPTED
              [("rideId", JV (JNum k)); ("driverId", JV (userId d));
               ("message", JV (JStr "Sua corrida foi aceita por um motorista"))] now))
         <$> filter (λ c, ws c ∈ wsOpen s3)
               (filter (λ c, userId c = prop ride "userId" ∧ userType c = JStr "passenger")
                       (clients s3))) else []).
  assert ((if truthy (prop ride "userId")
       then broadcastToUser now (prop ride "userId") "passenger"
              MessageType.RIDE_ACCEPTED
              [("rideId", JV (JNum k)); ("driverId", JV (userId d));
               ("message", JV (JStr "Sua corrida foi aceita por um motorista"))]
       else λ s0 : Server, (Ok (), s0)) s3
       = (Ok tt, set_wire (λ wr, wr ++ frames1) s3)) as ->.
  { unfold frames1. destruct (truthy (prop ride "userId")).
    - by rewrite broadcastToUser_run.
    - unfold set_wire. destruct s3; simpl. by rewrite app_nil_r. }
  cbv iota. rewrite broadcastToUserType_run. cbv iota.
  rewrite sendMessage_open by done.
  cbn [snd].
  match goal with |- context [set_wire (λ wr, wr ++ ?f2) (set_wire _ s3)] =>
    set (frames2 := f2) end.
  split_and!; [done|done|calls_ok; apply Hnf|].
  exists (frames1 ++ frames2). split.
  - simpl. by rewrite <- !app_assoc.
  - apply Forall_app. split.
    + unfold frames1. destruct (truthy (prop ride "userId")); [|done].
      apply Forall_fmap, Forall_forall. intros c _. simpl. discriminate.
    + unfold frames2. apply Forall_fmap, Forall_forall. intros c _. simpl. discriminate.
Qed.

Lemma lookup_object_of l k v :
  NoDup l.*1 → (k, v) ∈ l → v ≠ JUndefined → object_of l !! k = Some v.
Proof.
  intros Hnd Hin Hv. unfold object_of. apply elem_of_list_to_map_1.
  - eapply sublist_NoDup; [exact Hnd|]. apply fmap_sublist, sublist_filter.
  - apply list_elem_of_filter. by split.
Qed.

Lemma accept_busy_run now p c s k ride :
  is_driver c = true →
  prop p "rideRequestId" = JNum k →
  rides (storage s) !! k = Some ride →
  prop ride "status" = JStr "pending" →
  truthy (opt_prop (key (userId c) ≫= λ i, driverLocations (storage s) !! i)
                   "currentRideId") = true →
  ws c ∈ wsOpen s →
  no_faults s →
  exec (handleRideAccepted now (Some p) c) s
  = set_wire (λ l, l ++ [(ws c, error_frame now "Você já está em uma corrida ativa")])
             (called (GetDriverLocationByDriverId (userId c))
                     (called (GetRideById (JNum k)) s)).
Proof.
  intros Hdrv Hid Hride Hst Hbusy Hopen Hnf.
  unfold exec, handleRideAccepted. rewrite Hdrv.
  unfold try_catch, bind, destructure, ret. cbn [negb]. cbv beta iota zeta. rewrite Hid.
  rewrite getRideById_ok by calls_ok.
  cbn [key mbind option_bind]. rewrite Hride. cbv beta iota.
  rewrite Hst, strict_eq_refl. cbn [negb]. cbv iota.
  rewrite getDriverLocationByDriverId_ok by calls_ok. cbv iota.
  rewrite ?storage_called. rewrite Hbusy. cbv iota.
  unfold sendError. by rewrite sendMessage_open by done.
Qed.

Lemma serial_busy now p k ride ds s :
  prop p "rideRequestId" = JNum k →
  rides (storage s) !! k = Some ride →
  prop ride "status" = JStr "pending" →
  Forall (λ c, is_driver c = true) ds →
  Forall (λ c, truthy (opt_prop (key (userId c) ≫= λ i, driverLocations (storage s) !! i)
                                "currentRideId") = true) ds →
  Forall (λ c, ws c ∈ wsOpen s) ds →
  no_faults s →
  let s' := serial_accepts now (Some p) ds s in
  storage s' = storage s ∧ wsOpen s' = wsOpen s ∧ no_faults s'
  ∧ wire s' = wire s
      ++ ((λ c, (ws c, error_frame now "Você já está em uma corrida ativa")) <$> ds).
Proof.
  intros Hid Hride Hst Hdrv Hbusy Hopen Hnf. simpl. revert s Hride Hbusy Hopen Hnf.
  induction Hdrv as [|c ds Hc Hdrv IH]; intros s Hride Hbusy Hopen Hnf.
  - simpl. by rewrite app_nil_r.
  - apply Forall_cons in Hopen as [Hoc Hopen].
    apply Forall_cons in Hbusy as [Hbc Hbusy]. simpl.
    rewrite (accept_busy_run now p c s k ride) by done.
    match goal with |- context [serial_accepts _ _ _ ?x] =>
      destruct (IH x) as (E1 & E2 & E3 & E4) end; [done|done|done|calls_ok|].
    rewrite E1, E2, E4. simpl. split_and!; [done|done|done|]. by rewrite <- app_assoc.
Qed.

Lemma serial_accepts_app now payload l1 l2 s :
  serial_accepts now payload (l1 ++ l2) s
  = serial_accepts now payload l2 (serial_accepts now payload l1 s).
Proof. unfold serial_accepts. apply foldl_app. Qed.

Lemma emitted_app s final sent : wire final = wire s ++ sent → emitted s final = sent.
Proof. intros E. unfold emitted. rewrite E. apply drop_app_length. Qed.

(** C1 (amended). When the [ride_accepted] attempts on a pending ride are
    handled one after the other, each to completion, by drivers on open
    and pairwise different sockets, and the gateway calls succeed, then
    the first attempt of a driver that has no current ride is the only one
    confirmed: the ride ends with that driver's id and the status
    [accepted], and every other attempt is sent an [error] frame and no
    confirmation.  The check of the status and the update are separate
    gateway calls. *)
Theorem C1_serial_first_free_driver_wins now p k ride s busy d others :
  prop p "rideRequestId" = JNum k →
  rides (storage s) !! k = Some ride →
  prop ride "status" = JStr "pending" →
  Forall (λ c, is_driver c = true) (busy ++ d :: others) →
  Forall (λ c, ws c ∈ wsOpen s) (busy ++ d :: others) →
  Forall (λ c, truthy (opt_prop (key (userId c) ≫= λ i, driverLocations (storage s) !! i)
                                "currentRideId") = true) busy →
  truthy (opt_prop (key (userId d) ≫= λ i, driverLocations (storage s) !! i)
                   "currentRideId") = false →
  userId d ≠ JUndefined →
  Forall (λ c, ws c ≠ ws d) (busy ++ others) →
  no_faults s →
  exactly_one_accepted now k (busy ++ d :: others) s
    (serial_accepts now (Some p) (busy ++ d :: others) s).
Proof.
  intros Hid Hride Hst Hdrv Hopen Hbusy Hfree Hdef Hws Hnf.
  apply Forall_app in Hdrv as [Hdrv1 Hdrv2]. apply Forall_cons in Hdrv2 as [Hdrvd Hdrv2].
  apply Forall_app in Hopen as [Hopen1 Hopen2]. apply Forall_cons in Hopen2 as [Hopend Hopen2].
  apply Forall_app in Hws as [Hws1 Hws2].
  rewrite serial_accepts_app.
  destruct (serial_busy now p k ride busy s) as (B1 & B2 & B3 & B4); try done.
  set (s1 := serial_accepts now (Some p) busy s) in *.
  change (serial_accepts now (Some p) (d :: others) s1)
    with (serial_accepts now (Some p) others (exec (handleRideAccepted now (Some p) d) s1)).
  destruct (accept_success_run now p d s1 k ride) as (W1 & W2 & W3 & sent & W4 & W5);
    try (by rewrite ?B1, ?B2).
  set (s2 := exec (handleRideAccepted now (Some p) d) s1) in *.
  assert (Hride2 : rides (storage s2) !! k
     = Some (object_of [("driverId", userId d); ("status", JStr "accepted")] ∪ ride)).
  { rewrite W1, rides_updateDriverLocation, B1, (rides_updateRide _ _ _ _ Hride).
    apply lookup_insert_eq. }
  assert (Hpatch : NoDup [("driverId", userId d); ("status", JStr "accepted")].*1).
  { apply (bool_decide_unpack (NoDup _)). vm_compute. exact I. }
  assert (Hp1 : object_of [("driverId", userId d); ("status", JStr "accepted")]
                 !! "driverId" = Some (userId d)).
  { apply lookup_object_of; [done|apply list_elem_of_here|done]. }
  assert (Hp2 : object_of [("driverId", userId d); ("status", JStr "accepted")]
                 !! "status" = Some (JStr "accepted")).
  { apply lookup_object_of; [done|apply list_elem_of_further, list_elem_of_here|done]. }
  destruct (serial_rejections now p k _ others s2 Hid Hride2) as (R1 & R2); try done.
  { by rewrite (prop_union_l _ _ _ _ Hp2). }
  { by rewrite W2, B2. }
  set (s3 := serial_accepts now (Some p) others s2) in *.
  assert (Hem : emitted s s3
    = ((λ c, (ws c, error_frame now "Você já está em uma corrida ativa")) <$> busy)
      ++ sent ++ [(ws d, accept_confirmation now (JNum k))]
      ++ ((λ c, (ws c, error_frame now "Esta corrida não está mais disponível")) <$> others)).
  { apply emitted_app. rewrite R2, W4, B4. by rewrite <- !app_assoc. }
  exists d. rewrite Hem, R1, Hride2. simpl. split_and!.
  - apply elem_of_app. right. apply list_elem_of_here.
  - unfold confirmed. rewrite !elem_of_app, elem_of_cons. right. right. by left.
  - by apply prop_union_l.
  - by apply prop_union_l.
  - intros c Hc Hne. split.
    + apply elem_of_app in Hc as [Hc|Hc].
      * exists (error_frame now "Você já está em uma corrida ativa").
        split; [|reflexivity]. apply elem_of_app. left.
        by apply (list_elem_of_fmap_2 (λ c, (ws c, _))).
      * apply elem_of_cons in Hc as [->|Hc]; [done|].
        exists (error_frame now "Esta corrida não está mais disponível").
        split; [|reflexivity]. rewrite !elem_of_app, elem_of_cons. right. right. right.
        by apply (list_elem_of_fmap_2 (λ c, (ws c, _))).
    + assert (ws c ≠ ws d) as Hwc.
      { apply elem_of_app in Hc as [Hc|Hc].
        - by apply (proj1 (Forall_forall _ _) Hws1).
        - apply elem_of_cons in Hc as [->|Hc]; [done|].
          by apply (proj1 (Forall_forall _ _) Hws2). }
      unfold confirmed. rewrite !elem_of_app, elem_of_cons.
      intros [H|[H|[H|H]]].
      * apply list_elem_of_fmap in H as (c' & H & _). discriminate.
      * apply (proj1 (Forall_forall _ _) W5) in H. by apply H.
      * congruence.
      * apply list_elem_of_fmap in H as (c' & H & _). discriminate.
Qed.

(** ** Heartbeat and cancel, in general *)

(** The heartbeat scan never calls the gateway. *)
Lemma heartbeat_loop_same_gateway now remaining index :
  steps same_gateway (heartbeat_loop now remaining index).
Proof.
  revert index. induction remaining as [|n IH]; intros index; simpl.
  - apply steps_ret; apply _.
  - steps_structure; try apply IH; by intros s.
Qed.

Lemma heartbeat_same_gateway now : steps same_gateway (heartbeat now).
Proof.
  unfold heartbeat. steps_structure. apply heartbeat_loop_same_gateway.
Qed.

(** The cancel handler never reads the status of the ride: for the owning
    passenger it writes [canceled] over any status. *)
Lemma handleRideCanceled_overwrites_status now p client s k ride :
  is_passenger client = true →
  prop p "rideRequestId" = JNum k →
  rides (storage s) !! k = Some ride →
  prop ride "userId" = userId client →
  no_faults s →
  opt_prop (rides (storage (exec (handleRideCanceled now (Some p) client) s)) !! k) "status"
  = JStr "canceled".
Proof.
  intros Hpas Hid Hride Hown Hnf.
  assert (∀ x, rides (storage x) !! k
               = Some (object_of [("status", JStr "canceled")] ∪ ride) →
          opt_prop (rides (storage x) !! k) "status" = JStr "canceled") as Hdone.
  { intros x ->. by apply prop_union_l. }
  unfold exec, handleRideCanceled. rewrite Hpas, (is_passenger_not_driver _ Hpas).
  unfold try_catch, bind, destructure, ret. cbv beta iota zeta. rewrite Hid.
  rewrite getRideById_ok by calls_ok.
  cbn [key mbind option_bind]. rewrite Hride. cbv beta iota.
  rewrite Hown, strict_eq_refl. cbn [negb andb]. cbv iota.
  rewrite updateRide_ok by calls_ok. cbv iota.
  set (s2 := set_storage _ _).
  assert (Hs2 : rides (storage s2) !! k
                = Some (object_of [("status", JStr "canceled")] ∪ ride)).
  { unfold s2. simpl. rewrite (rides_updateRide _ _ _ _ Hride). apply lookup_insert_eq. }
  assert (Hnf2 : no_faults s2) by (unfold s2; calls_ok).
  clearbody s2.
  destruct (truthy (prop ride "driverId")).
  - rewrite updateDriverLocation_ok by calls_ok. cbv iota.
    rewrite broadcastToUser_run. cbv iota. rewrite sendMessage_run. cbn [snd].
    apply Hdone. case_bool_decide; simpl; by rewrite rides_updateDriverLocation.
  - cbv iota. rewrite sendMessage_run. cbn [snd].
    apply Hdone. by case_bool_decide.
Qed.

(** ** The placeholder stays first *)

#[global] Instance keeps_placeholders_refl : Reflexive keeps_placeholders.
Proof. intros s w H. exact H. Qed.
#[global] Instance keeps_placeholders_trans : Transitive keeps_placeholders.
Proof. intros s1 s2 s3 H1 H2 w H. apply H2, H1, H. Qed.

Lemma same_clients_keeps_placeholders {A} (m : M A) :
  steps same_clients m → steps keeps_placeholders m.
Proof.
  intros H s w. specialize (H s). unfold placeholder_first. by rewrite H.
Qed.

Lemma findIndex_ws_cons w c cs :
  findIndex_ws w (c :: cs)
  = if decide (ws c = w) then Some (0%nat, c)
    else prod_map S id <$> findIndex_ws w cs.
Proof. done. Qed.

Lemma findIndex_ws_touch w now i c cs :
  cs !! i = Some c →
  ∀ j x, findIndex_ws w cs = Some (j, x) →
         ∃ x', findIndex_ws w (<[i := touch now c]> cs) = Some (j, x')
               ∧ userId x' = userId x ∧ userType x' = userType x.
Proof.
  revert i. induction cs as [|y cs IH]; intros i Hi j x; [done|].
  destruct i as [|i]; simpl in Hi.
  - simplify_eq. change (<[0%nat := touch now c]> (c :: cs)) with (touch now c :: cs).
    rewrite !findIndex_ws_cons. change (ws (touch now c)) with (ws c).
    destruct (decide (ws c = w)); [|eauto].
    intros [= <- <-]. eauto.
  - change (<[S i := touch now c]> (y :: cs)) with (y :: <[i := touch now c]> cs).
    rewrite !findIndex_ws_cons. destruct (decide (ws y = w)); [eauto|].
    destruct (findIndex_ws w cs) as [[j' x']|] eqn:E; [|done].
    intros [= <- <-]. destruct (IH i Hi j' x' eq_refl) as (x'' & -> & ? & ?).
    simpl. eauto.
Qed.

Lemma findIndex_ws_filter_app w (Q : ConnectedClient → Prop) `{!∀ c, Decision (Q c)}
    cs extra i c :
  findIndex_ws w cs = Some (i, c) → Q c →
  ∃ i', findIndex_ws w (filter Q cs ++ extra) = Some (i', c).
Proof.
  revert i. induction cs as [|y cs IH]; intros i; [done|].
  rewrite findIndex_ws_cons, filter_cons.
  destruct (decide (ws y = w)) as [Hy|Hy].
  - intros [= <- <-] Hq. rewrite decide_True by done.
    rewrite <- app_comm_cons, findIndex_ws_cons, decide_True by done. eauto.
  - destruct (findIndex_ws w cs) as [[j x]|] eqn:E; [|done].
    intros [= <- <-] Hq. destruct (IH j eq_refl Hq) as [i' Hi'].
    destruct (decide (Q y)); [|eauto].
    rewrite <- app_comm_cons, findIndex_ws_cons, decide_False by done.
    rewrite Hi'. simpl. eauto.
Qed.

Lemma rebind_keeps_placeholders w uid utype now s :
  truthy uid = true →
  keeps_placeholders s
    (set_clients (λ cs, filter (λ c, ¬ (userId c = uid ∧ userType c = utype)) cs
                        ++ [Client w uid utype now]) s).
Proof.
  intros Hid w0 (i & c & Hfind & Hu & Ht). unfold placeholder_first. simpl.
  destruct (findIndex_ws_filter_app w0
              (λ c, ¬ (userId c = uid ∧ userType c = utype))
              (clients s) [Client w uid utype now] i c Hfind) as [i' Hi'].
  - intros [E _]. rewrite Hu in E. subst uid. done.
  - eauto.
Qed.

Lemma connection_keeps_placeholders now w : steps keeps_placeholders (on_connection now w).
Proof.
  unfold on_connection. steps_structure; try (apply same_clients_keeps_placeholders;
    by apply modify_same_clients).
  intros s w0 (i & c & Hfind & Hu & Ht). unfold placeholder_first. simpl.
  exists i, c. split; [|done]. unfold findIndex_ws in *.
  apply list_find_app_Some. by left.
Qed.

Section Properties.

Variable withinRadius : jsval → jsval → Z → obj → bool.
Variable toISOString : Z → string.

Local Abbreviation on_message := (on_message withinRadius toISOString).
Local Abbreviation handleMessage := (handleMessage withinRadius toISOString).
Local Abbreviation handleRideRequest := (handleRideRequest withinRadius toISOString).
Local Abbreviation handle := (handle withinRadius toISOString).
Local Abbreviation run := (run withinRadius toISOString).

(** C10. An [auth] frame whose payload has truthy [userId] and [userType],
    the type being neither ['driver'] nor ['passenger'], always succeeds:
    the authentication timer is cleared, earlier entries of the same
    identity are dropped, the new entry is appended, [auth_success] is sent
    on the socket, and the gateway is not called at all (its log, the
    pending faults and the store are untouched). *)
Theorem C10_auth_other_roles_skip_store now w p s :
  truthy (prop p "userId") = true →
  truthy (prop p "userType") = true →
  prop p "userType" ≠ JStr "driver" →
  prop p "userType" ≠ JStr "passenger" →
  on_message now w (Inbound (JStr "auth") (Some p)) s
  = (Ok tt,
     Srv (filter (λ c, ¬ (userId c = prop p "userId" ∧ userType c = prop p "userType"))
                 (clients s)
          ++ [Client w (prop p "userId") (prop p "userType") now])
         (storage s) (faults s) (gatewayLog s) (wsOpen s)
         (wire s ++ [(w, Frame "auth_success"
                           [("userId", JV (prop p "userId"));
                            ("userType", JV (prop p "userType"))] now)])
         (authTimers s ∖ {[w]})).
Proof.
  intros Hid Hty Hd Hp.
  unfold on_message, try_catch, bind. simpl.
  rewrite Hid, Hty. simpl.
  rewrite !(strict_eq_ne _ _ Hd), !(strict_eq_ne _ _ Hp). simpl.
  reflexivity.
Qed.

(** ** The router *)

(** A [ping] frame is taken by the authentication branch of the message
    handler: whatever its payload and whatever the state, no [pong] frame is
    sent in response. *)
Lemma ping_never_pong now w payload :
  steps (wire_grows (λ wf, ftype wf.2 ≠ MessageType.PONG))
        (on_message now w (Inbound (JStr MessageType.PING) payload)).
Proof.
  unfold on_message.
  replace (strict_eq (JStr MessageType.PING) (JStr "auth")
           || strict_eq (JStr MessageType.PING) (JStr MessageType.PING)) with true
    by reflexivity.
  steps_structure;
    try (apply sendMessage_wire_grows; by compute);
    try (apply ws_send_wire_grows; by compute);
    try (by apply modify_wire_grows);
    gateway_op;
    first [ apply _ | apply gateway_wire_grows | intros; by apply modify_wire_grows ].
Qed.

(** The router never lets an exception escape. *)
Lemma handleMessage_returns now type payload client s :
  (handleMessage now type payload client s).1 = Ok tt.
Proof.
  unfold handleMessage, try_catch.
  match goal with |- context [let (_, _) := ?m s in _] => destruct (m s) as [[[]|] s1] end;
    [done|].
  unfold sendError. by rewrite sendMessage_run.
Qed.

(** A frame that is neither [auth] nor [ping] is handled for the first
    registry entry of its socket, after that entry's [lastActivity] has
    been refreshed. *)
Lemma on_message_resolves now w type payload s i c :
  strict_eq type (JStr "auth") || strict_eq type (JStr MessageType.PING) = false →
  findIndex_ws w (clients s) = Some (i, c) →
  on_message now w (Inbound type payload) s
  = handleMessage now type payload (touch now c)
      (set_clients (<[i := touch now c]>) s).
Proof.
  intros Htype Hfind. unfold on_message. rewrite Htype.
  unfold try_catch at 1, bind at 1, get. cbv beta iota. rewrite Hfind.
  unfold bind, modify. cbv beta iota.
  pose proof (handleMessage_returns now type payload (touch now c)
                (set_clients (<[i := touch now c]>) s)) as Hok.
  destruct (handleMessage _ _ _ _ _) as [o s1]. simpl in Hok. by subst o.
Qed.

(** ** Registry invariant *)

Lemma on_message_keeps_unique now w message :
  steps keeps_unique (on_message now w message).
Proof.
  unfold on_message. refine (steps_try_catch _ _ _ _ _); [|same_clients_prim].
  destruct message as [|type payload]; [apply steps_throw; apply _|].
  destruct (strict_eq type (JStr "auth") || strict_eq type (JStr MessageType.PING)).
  - steps_structure; try same_clients_prim.
    intros s. unfold keeps_unique, unique_identities. simpl. apply bound_rebind.
  - apply steps_get_bind. intros s.
    destruct (findIndex_ws w (clients s)) as [[i c]|] eqn:E.
    + apply list_find_Some in E as (Hi & _ & _).
      transitivity (set_clients (<[i := touch now c]>) s).
      * unfold keeps_unique, unique_identities. simpl. by rewrite bound_touch.
      * unfold bind, modify. simpl.
        apply steps_at, same_clients_keeps_unique, handleMessage_same_clients.
    + apply steps_at. same_clients_prim.
Qed.

Lemma on_close_keeps_unique w : steps keeps_unique (on_close w).
Proof.
  unfold on_close. steps_structure; try same_clients_prim;
    intros s'; unfold keeps_unique, unique_identities; simpl; apply bound_delete.
Qed.

Lemma on_connection_keeps_unique now w : steps keeps_unique (on_connection now w).
Proof.
  unfold on_connection. steps_structure; try same_clients_prim.
  intros s. unfold keeps_unique, unique_identities. simpl.
  rewrite bound_app. intros H.
  replace (bound [Client w (JNum 0) (JStr "passenger") now]) with (@nil (jsval * jsval))
    by reflexivity.
  by rewrite app_nil_r.
Qed.

Lemma on_authTimeout_keeps_unique now w : steps keeps_unique (on_authTimeout now w).
Proof.
  unfold on_authTimeout. apply steps_get_bind. intros s.
  apply steps_at. steps_structure; try same_clients_prim.
Qed.

Lemma heartbeat_loop_keeps_unique now remaining index :
  steps keeps_unique (heartbeat_loop now remaining index).
Proof.
  revert index. induction remaining as [|n IH]; intros index; simpl.
  - apply steps_ret; apply _.
  - apply steps_get_bind. intros s.
    destruct (clients s !! index) as [client|]; [|apply steps_at, IH].
    destruct (readyState_OPEN (ws client) s); apply steps_at;
      steps_structure; try same_clients_prim; try apply IH;
      intros s'; unfold keeps_unique, unique_identities; simpl; apply bound_delete.
Qed.

Lemma heartbeat_keeps_unique now : steps keeps_unique (heartbeat now).
Proof.
  unfold heartbeat. apply steps_get_bind. intros s.
  apply steps_at, heartbeat_loop_keeps_unique.
Qed.

Lemma handle_keeps_unique now e :
  steps keeps_unique (handle now e).
Proof.
  destruct e; simpl;
    auto using on_connection_keeps_unique, on_message_keeps_unique, on_close_keeps_unique,
      on_authTimeout_keeps_unique, heartbeat_keeps_unique.
Qed.

(** The invariant holds after every event of every run. *)
Lemma run_unique_identities es s :
  unique_identities s → unique_identities (run es s).
Proof.
  revert s. induction es as [|[now e] es IH]; intros s H; simpl; [done|].
  apply IH. by apply (handle_keeps_unique now e s).
Qed.

Lemma on_message_auth_accepted now w payload s :
  let uid := prop (default ∅ payload) "userId" in
  let utype := prop (default ∅ payload) "userType" in
  truthy uid = true → truthy utype = true →
  user_exists (storage s) uid utype = true →
  next_call_ok s →
  let s' := exec (on_message now w (Inbound (JStr "auth") payload)) s in
  clients s'
  = filter (λ c, ¬ (userId c = uid ∧ userType c = utype)) (clients s)
    ++ [Client w uid utype now]
  ∧ wsOpen s' = wsOpen s.
Proof.
  intros uid utype Hid Hty Hex Hok s'. subst s'.
  unfold exec, on_message.
  rewrite strict_eq_refl, orb_true_l.
  fold uid utype. rewrite Hid, Hty. simpl negb. simpl orb. cbv iota.
  unfold user_exists in Hex.
  set (s0 := set_authTimers (λ t, t ∖ {[w]}) s).
  assert (Hok0 : next_call_ok s0) by done.
  match goal with |- context [bind ?c _] =>
    match c with (if _ then _ else _) => set (check := c) end end.
  assert (∃ s1, check s0 = (Ok true, s1) ∧ clients s1 = clients s ∧ wsOpen s1 = wsOpen s)
    as (s1 & Hcheck & Hc1 & Hw1).
  { unfold check. destruct (strict_eq utype (JStr "driver")).
    - unfold getUser, bind. rewrite gateway_ok by done. simpl.
      change (storage (called _ s0)) with (storage s). rewrite Hex. eauto.
    - destruct (strict_eq utype (JStr "passenger")).
      + unfold getPassenger, bind. rewrite gateway_ok by done. simpl.
        change (storage (called _ s0)) with (storage s). rewrite Hex. eauto.
      + eexists; split; [reflexivity|done]. }
  match goal with |- context [bind (ws_send _ _) (λ _, ?r)] => set (rest := r) end.
  assert (Hrest : ∀ x, clients (rest x).2 = clients x ∧ wsOpen (rest x).2 = wsOpen x).
  { intros x. split.
    - apply (steps_at same_clients). unfold rest. steps_structure;
        gateway_op; first [ apply _ | apply gateway_same_clients
                          | intros; by apply modify_same_clients ].
    - apply (steps_at same_sockets). unfold rest. steps_structure;
        gateway_op; first [ apply _ | apply gateway_same_sockets
                          | intros; by apply modify_same_sockets ]. }
  unfold try_catch, bind, modify, ws_send. simpl. fold s0. rewrite Hcheck. simpl.
  match goal with |- context [rest ?x] => specialize (Hrest x); destruct (rest x) as [[[]|] s3] end;
    simpl in *; destruct Hrest as [Hc3 Hw3].
  - by rewrite Hc3, Hw3, Hc1, Hw1.
  - rewrite <- Hc1, <- Hw1, <- Hc3, <- Hw3. split.
    + apply (steps_at same_clients _ s3), sendMessage_same_clients.
    + apply (steps_at same_sockets _ s3), sendMessage_same_sockets.
Qed.

(** C6 (amended). At every instant between two events of a run that starts
    with an empty registry, no two registry entries carry the same bound
    identity (a truthy [userId] with its [userType]).  When an [auth] frame
    is accepted, every earlier entry of that identity is removed from the
    registry and the new entry is appended; no socket is closed by it: the
    set of open sockets is the same before and after. *)
Theorem C6_identity_unique_rebind_keeps_socket :
  (∀ es s0, clients s0 = [] → unique_identities (run es s0))
  ∧ (∀ now w payload s,
       let uid := prop (default ∅ payload) "userId" in
       let utype := prop (default ∅ payload) "userType" in
       truthy uid = true → truthy utype = true →
       user_exists (storage s) uid utype = true →
       next_call_ok s →
       let s' := exec (on_message now w (Inbound (JStr "auth") payload)) s in
       clients s'
       = filter (λ c, ¬ (userId c = uid ∧ userType c = utype)) (clients s)
         ++ [Client w uid utype now]
       ∧ wsOpen s' = wsOpen s).
Proof.
  split.
  - intros es s0 H0. apply run_unique_identities.
    unfold unique_identities. rewrite H0. apply NoDup_nil_2.
  - intros now w payload s. apply on_message_auth_accepted.
Qed.

(** ** Ride requests *)


Lemma getAvailableDriversNearLocation_ok lat lng radius s :
  next_call_ok s →
  getAvailableDriversNearLocation withinRadius lat lng radius s
  = (Ok (store_availableDrivers withinRadius lat lng radius (storage s)),
     called (GetAvailableDriversNearLocation lat lng radius) s).
Proof. intros H. unfold getAvailableDriversNearLocation, bind. by rewrite gateway_ok. Qed.

Lemma store_availableDrivers_createRideRequest lat lng radius fields st :
  store_availableDrivers withinRadius lat lng radius (store_createRideRequest fields st)
  = store_availableDrivers withinRadius lat lng radius st.
Proof. done. Qed.

Lemma prop_object_of l k v :
  NoDup l.*1 → (k, v) ∈ l → prop (object_of l) k = v.
Proof.
  intros Hnd Hin. unfold prop, object_of.
  destruct (decide (v = JUndefined)) as [->|Hv].
  - rewrite (not_elem_of_list_to_map_1 _ k); [done|].
    intros ([k' v'] & Hk & Hin')%list_elem_of_fmap. simpl in Hk. subst k'.
    apply list_elem_of_filter in Hin' as [Hv' Hin']. simpl in Hv'.
    pose proof (elem_of_list_to_map_1 (M:=gmap string) l k _ Hnd Hin) as E1.
    pose proof (elem_of_list_to_map_1 (M:=gmap string) l k _ Hnd Hin') as E2.
    congruence.
  - erewrite elem_of_list_to_map_1; [done| |].
    + eapply sublist_NoDup; [exact Hnd|]. apply fmap_sublist, sublist_filter.
    + apply list_elem_of_filter. by split.
Qed.

(** C8. When [ride_request] is handled for a passenger, the gateway calls
    succeed and the Driver Locator finds no available driver within the
    10 km radius, a pending ride row is created under the next identifier,
    every registered driver session whose socket is open is sent a
    [new_ride_request] frame carrying that identifier, and the passenger is
    sent the acknowledgement. *)
Theorem C8_fallback_broadcast now p client s :
  is_passenger client = true →
  no_faults s →
  store_availableDrivers withinRadius (prop p "originLatitude") (prop p "originLongitude")
                         10000 (storage s) = [] →
  let s' := exec (handleRideRequest now (Some p) client) s in
  let id := nextRideId (storage s) in
  ∃ row sent,
    rides (storage s') !! id = Some row
    ∧ prop row "id" = JNum id
    ∧ prop row "status" = JStr "pending"
    ∧ prop row "passengerId" = userId client
    ∧ (∃ data, gatewayLog s'
         = gatewayLog s
           ++ [CreateRideRequest data;
               GetAvailableDriversNearLocation (prop p "originLatitude")
                                               (prop p "originLongitude") 10000;
               GetPassenger (userId client)])
    ∧ wire s' = wire s ++ sent
    ∧ (∀ c, c ∈ clients s → is_driver c = true → ws c ∈ wsOpen s →
         ∃ f, (ws c, f) ∈ sent
              ∧ ftype f = MessageType.NEW_RIDE_REQUEST
              ∧ fpayload f !! 0%nat = Some ("id", JV (JNum id)))
    ∧ (ws client ∈ wsOpen s →
         (ws client,
          Frame MessageType.RIDE_REQUEST
            [("success", JV (JBool true)); ("rideId", JV (JNum id));
             ("message", JV (JStr "Solicitação de corrida criada com sucesso"))] now)
         ∈ sent).
Proof.
  intros Hpas Hnf Hnone s' id. subst s'.
  unfold exec, handleRideRequest. rewrite Hpas, (is_passenger_not_driver _ Hpas).
  cbn [negb andb]. cbv iota.
  unfold try_catch, bind, destructure, ret, get. cbv beta iota zeta.
  match goal with |- context [createRideRequest ?d] => set (data := d) end.
  rewrite createRideRequest_ok by calls_ok. cbv iota.
  set (row := new_ride_row (nextRideId (storage s)) data).
  rewrite getAvailableDriversNearLocation_ok by calls_ok. cbv iota.
  change (storage (set_storage ?f ?x)) with (f (storage x)).
  rewrite store_availableDrivers_createRideRequest.
  change (storage (called _ s)) with (storage s). rewrite Hnone.
  cbn [length]. rewrite bool_decide_eq_true_2 by done. cbv iota.
  rewrite getPassenger_ok by calls_ok. cbv iota beta.
  rewrite forEach_sendMessage. cbv iota. rewrite sendMessage_run. cbn [snd].
  assert (Hrid : prop row "id" = JNum id).
  { unfold row, new_ride_row, prop. by rewrite lookup_insert_eq. }
  rewrite Hrid.
  match goal with |- context [new_ride_request_payload _ _ _ _ ?n ?ph _] =>
    set (passengerName := n); set (passengerPhone := ph) end.
  match goal with |- context [set_wire (λ wr, wr ++ ?fr) _] => set (frames := fr) end.
  match goal with |- context [set_wire (λ l, l ++ [?a]) _] => set (ack := a) end.
  exists row, (frames ++ if bool_decide (ws client ∈ wsOpen s) then [ack] else []).
  assert (Hrow : ∀ k v, k ≠ "id" → k ≠ "userId" → (k, v) ∈
            [("passengerId", userId client); ("status", JStr "pending")] →
            prop row k = v).
  { intros k v H1 H2 Hin. unfold row, new_ride_row, prop.
    rewrite !lookup_insert_ne by done. apply prop_object_of.
    - apply (bool_decide_unpack (NoDup _)). vm_compute. exact I.
    - apply elem_of_cons in Hin as [->|Hin%list_elem_of_singleton];
        [|rewrite Hin]; repeat constructor. }
  split_and!.
  - case_bool_decide; apply lookup_insert_eq.
  - done.
  - apply Hrow; [done|done|apply list_elem_of_further, list_elem_of_here].
  - apply Hrow; [done|done|apply list_elem_of_here].
  - exists data. case_bool_decide; simpl; by rewrite <- !app_assoc.
  - change (wsOpen (set_wire _ _)) with (wsOpen s).
    case_bool_decide; simpl; by rewrite ?app_assoc, ?app_nil_r.
  - intros c Hc Hdrv Hopen.
    exists (Frame MessageType.NEW_RIDE_REQUEST
              (new_ride_request_payload toISOString row p client
                 passengerName passengerPhone now) now).
    split; [|split; [done|by simpl; rewrite Hrid]].
    apply elem_of_app. left. unfold frames.
    apply (list_elem_of_fmap_2 (λ c, (ws c, _))).
    apply list_elem_of_filter. split; [done|].
    apply list_elem_of_filter. by split.
  - intros Hopen. rewrite bool_decide_eq_true_2 by done.
    apply elem_of_app. right. by apply list_elem_of_singleton.
Qed.

(** ** State conflicts of accept *)


Lemma handleMessage_ride_accepted now payload client :
  handleMessage now (JStr MessageType.RIDE_ACCEPTED) payload client
  = try_catch (handleRideAccepted now payload client)
              (sendError now (ws client) "Erro interno do servidor").
Proof. reflexivity. Qed.

(** The same frame arriving on an open connection, whatever entry of the
    registry the connection resolves to: no mutating gateway call, the
    store unchanged, one [error] frame in response. *)
Lemma on_message_accept_conflict now w p s k ride :
  prop p "rideRequestId" = JNum k →
  rides (storage s) !! k = Some ride →
  prop ride "status" ≠ JStr "pending" →
  w ∈ wsOpen s →
  let s' := exec (on_message now w
                    (Inbound (JStr MessageType.RIDE_ACCEPTED) (Some p))) s in
  storage s' = storage s
  ∧ Forall (λ c, is_mutation c = false) (drop (length (gatewayLog s)) (gatewayLog s'))
  ∧ ∃ message, wire s' = wire s ++ [(w, error_frame now message)].
Proof.
  intros Hid Hride Hst Hopen s'. subst s'.
  unfold exec, on_message.
  replace (strict_eq (JStr MessageType.RIDE_ACCEPTED) (JStr "auth")
           || strict_eq (JStr MessageType.RIDE_ACCEPTED) (JStr MessageType.PING))
    with false by reflexivity.
  cbv iota. unfold try_catch, bind, get, modify. cbv beta iota.
  destruct (findIndex_ws w (clients s)) as [[i c]|] eqn:Hfind.
  - apply list_find_Some in Hfind as (Hi & Hw & _).
    set (s0 := set_clients (<[i:=touch now c]>) s).
    rewrite handleMessage_ride_accepted. unfold try_catch.
    destruct (is_driver (touch now c)) eqn:Hdrv.
    + rewrite (accept_conflict_run now p (touch now c) s0 k ride) by (done || (simpl; by rewrite Hw)).
      simpl. rewrite Hw, drop_app_length. split_and!; [done|by repeat constructor|eauto].
    + unfold handleRideAccepted. rewrite Hdrv. simpl.
      unfold sendError. rewrite sendMessage_open by (simpl; by rewrite Hw).
      simpl. rewrite Hw, drop_all. split_and!; [done|done|eauto].
  - unfold sendError. rewrite sendMessage_open by done.
    simpl. rewrite drop_all. split_and!; [done|done|eauto].
Qed.

(** C3. A [ride_accepted] frame that names a stored ride whose status is
    not [pending] mutates nothing and is answered with an [error] frame.
    Handled for a driver, the store is unchanged, the only gateway call is
    the read of the ride, the registry is unchanged, and the one frame sent
    says that the ride is no longer available (unless the read itself was
    rejected by the gateway).  Arriving on any open connection, it leaves
    the store unchanged, issues no mutating gateway call and is answered
    with exactly one [error] frame. *)
Theorem C3_accept_conflict_no_mutation now p s k ride :
  prop p "rideRequestId" = JNum k →
  rides (storage s) !! k = Some ride →
  prop ride "status" ≠ JStr "pending" →
  (∀ client, is_driver client = true → ws client ∈ wsOpen s →
     let s' := exec (handleRideAccepted now (Some p) client) s in
     storage s' = storage s
     ∧ gatewayLog s' = gatewayLog s ++ [GetRideById (JNum k)]
     ∧ clients s' = clients s
     ∧ ∃ message,
         wire s' = wire s ++ [(ws client, error_frame now message)]
         ∧ (next_call_ok s → message = "Esta corrida não está mais disponível"))
  ∧ (∀ w, w ∈ wsOpen s →
       let s' := exec (on_message now w
                         (Inbound (JStr MessageType.RIDE_ACCEPTED) (Some p))) s in
       storage s' = storage s
       ∧ Forall (λ c, is_mutation c = false)
                (drop (length (gatewayLog s)) (gatewayLog s'))
       ∧ ∃ message, wire s' = wire s ++ [(w, error_frame now message)]).
Proof.
  intros Hid Hride Hst. split.
  - intros client Hdrv Hopen. by apply (handleRideAccepted_conflict now p client s k ride).
  - intros w Hopen. by apply (on_message_accept_conflict now w p s k ride).
Qed.

(** ** Frames handled under the placeholder *)


Ltac placeholders_prim :=
  apply same_clients_keeps_placeholders;
  first [ apply sendMessage_same_clients
        | by apply modify_same_clients
        | apply gateway_same_clients
        | gateway_op;
          first [ apply _ | apply gateway_same_clients | intros; by apply modify_same_clients ] ].

Lemma on_message_keeps_placeholders now w message :
  steps keeps_placeholders (on_message now w message).
Proof.
  unfold on_message. refine (steps_try_catch _ _ _ _ _); [|placeholders_prim].
  destruct message as [|type payload]; [apply steps_throw; apply _|].
  destruct (strict_eq type (JStr "auth") || strict_eq type (JStr MessageType.PING)).
  - refine (steps_bind _ _ _ _ _); [placeholders_prim|intros _].
    destruct (truthy (prop (default ∅ payload) "userId")) eqn:Hid; [|placeholders_prim].
    steps_structure; try placeholders_prim.
    intros s. by apply rebind_keeps_placeholders.
  - apply steps_get_bind. intros s.
    destruct (findIndex_ws w (clients s)) as [[i c]|] eqn:E.
    + apply list_find_Some in E as (Hi & _ & _).
      transitivity (set_clients (<[i := touch now c]>) s).
      * intros w0 (j & x & Hfind & Hu & Ht).
        destruct (findIndex_ws_touch w0 now i c (clients s) Hi j x Hfind)
          as (x' & Hx' & Hu' & Ht').
        exists j, x'. split; [done|]. by rewrite Hu', Ht'.
      * unfold bind, modify. simpl.
        apply steps_at, same_clients_keeps_placeholders, handleMessage_same_clients.
    + apply steps_at. placeholders_prim.
Qed.

Lemma on_authTimeout_keeps_placeholders now w :
  steps keeps_placeholders (on_authTimeout now w).
Proof.
  unfold on_authTimeout. apply steps_get_bind. intros s.
  apply steps_at. steps_structure; try placeholders_prim.
Qed.

(** While no close event and no heartbeat tick occurs, a connection whose
    first registry entry is its placeholder keeps it in first place,
    whatever frames arrive: in particular after it has authenticated. *)
Lemma run_keeps_placeholders es s w :
  Forall (λ ne, registry_shrinking ne.2 = false) es →
  placeholder_first w s →
  placeholder_first w (run es s).
Proof.
  intros Hes. revert s. induction Hes as [|[now e] es He Hes IH]; intros s H; [done|].
  simpl. apply IH.
  assert (keeps_placeholders s (handle now e s).2) as Hk;
    [|by apply Hk].
  destruct e; try done; simpl.
  - apply connection_keeps_placeholders.
  - apply on_message_keeps_placeholders.
  - apply on_authTimeout_keeps_placeholders.
Qed.

Lemma on_connection_placeholder_first now w s :
  w ∉ ws <$> clients s → placeholder_first w (exec (on_connection now w) s).
Proof.
  intros Hfresh. exists (length (clients s)), (Client w (JNum 0) (JStr "passenger") now).
  split; [|done]. unfold findIndex_ws. simpl. apply list_find_app_Some. right.
  split_and!.
  - done.
  - apply list_find_None, Forall_forall. intros c Hc Hw. apply Hfresh.
    apply list_elem_of_fmap. eauto.
  - rewrite Nat.sub_diag. simpl. by rewrite decide_True.
Qed.

(** A [ride_accepted] frame on a connection whose first entry is the
    placeholder is answered as a frame of a non-driver. *)
Lemma accept_under_placeholder now w payload s :
  placeholder_first w s → w ∈ wsOpen s →
  let s' := exec (on_message now w
                    (Inbound (JStr MessageType.RIDE_ACCEPTED) payload)) s in
  wire s' = wire s ++ [(w, error_frame now "Apenas motoristas podem aceitar corridas")]
  ∧ storage s' = storage s
  ∧ gatewayLog s' = gatewayLog s.
Proof.
  intros (i & c & Hfind & Hu & Ht) Hopen s'. subst s'.
  unfold exec, on_message.
  replace (strict_eq (JStr MessageType.RIDE_ACCEPTED) (JStr "auth")
           || strict_eq (JStr MessageType.RIDE_ACCEPTED) (JStr MessageType.PING))
    with false by reflexivity.
  cbv iota. unfold try_catch, bind, get, modify. cbv beta iota. rewrite Hfind.
  apply list_find_Some in Hfind as (Hi & Hw & _).
  rewrite handleMessage_ride_accepted. unfold try_catch, handleRideAccepted.
  replace (is_driver (touch now c)) with false
    by (unfold is_driver; simpl; rewrite Ht; reflexivity).
  simpl. unfold sendError. rewrite sendMessage_open by (simpl; by rewrite Hw).
  simpl. by rewrite Hw.
Qed.

(** From the opening of a connection on, and as long as no close event and
    no heartbeat tick has occurred, every [ride_accepted] frame on the
    connection is refused as coming from a non-driver, whatever was sent
    before, authentication included. *)
Lemma accept_refused_on_live_connection now0 now w es payload s :
  w ∉ ws <$> clients s →
  Forall (λ ne, registry_shrinking ne.2 = false) es →
  let s1 := run es (exec (on_connection now0 w) s) in
  w ∈ wsOpen s1 →
  let s' := exec (on_message now w
                    (Inbound (JStr MessageType.RIDE_ACCEPTED) payload)) s1 in
  wire s' = wire s1 ++ [(w, error_frame now "Apenas motoristas podem aceitar corridas")]
  ∧ storage s' = storage s1
  ∧ gatewayLog s' = gatewayLog s1.
Proof.
  intros Hfresh Hes s1 Hopen. apply accept_under_placeholder; [|done].
  apply run_keeps_placeholders; [done|]. by apply on_connection_placeholder_first.
Qed.

End Properties.

(** * Examples on concrete scenes *)

Lemma racing_accepts_finished : all_finished racing_accepts.2 = true.
Proof. vm_compute. reflexivity. Qed.

(** C1, counterexample.  Drivers 20 and 21 both accept the pending ride 1
    and their handlers take turns at every await: both read the ride
    while it is pending, both write it and both are confirmed. *)
Lemma C1_counterexample_both_racers_confirmed :
  ¬ exactly_one_accepted 5 1 [driver_D1; driver_D2]
      (three_sessions (store_with_ride pending_ride)) racing_accepts.1.
Proof.
  assert (H1 : confirmed 5 (JNum 1) driver_D1
                 (emitted (three_sessions (store_with_ride pending_ride)) racing_accepts.1)).
  { unfold confirmed. apply (bool_decide_unpack _). vm_compute. exact I. }
  assert (H2 : confirmed 5 (JNum 1) driver_D2
                 (emitted (three_sessions (store_with_ride pending_ride)) racing_accepts.1)).
  { unfold confirmed. apply (bool_decide_unpack _). vm_compute. exact I. }
  intros (winner & _ & _ & _ & _ & Hothers).
  destruct (decide (winner = driver_D1)) as [->|Hne].
  - destruct (Hothers driver_D2) as [_ Hn]; [repeat constructor|discriminate|]. exact (Hn H2).
  - destruct (Hothers driver_D1) as [_ Hn]; [repeat constructor|congruence|]. exact (Hn H1).
Qed.

(** Decides a closed proposition by evaluation. *)
Ltac evaluate := apply (bool_decide_unpack _); vm_compute; exact I.

(** C2.  The scenario of the specification, on the code: passenger 10 and
    drivers 20 and 21 authenticate, each on its own connection, and both
    drivers are sent [new_ride_request] for the pending ride 1.  The
    [ride_accepted] frame that driver 20 then sends on its connection is
    handled under the placeholder entry registered when the connection was
    opened (user 0, type [passenger]), which precedes the authenticated
    entry in the registry: the only frame sent in response is the error
    reserved for non-drivers, and the store is left as it was. *)
Theorem C2_accept_on_authenticated_connection_refused :
  let before := run everywhere plain_date scenario_before_accept (fresh_server example_store) in
  let after := run everywhere plain_date scenario_accept (fresh_server example_store) in
  ftype <$> received 2 before = ["auth_success"; "new_ride_request"]
  ∧ ftype <$> received 3 before = ["auth_success"; "new_ride_request"]
  ∧ opt_prop (rides (storage before) !! 1) "status" = JStr "pending"
  ∧ emitted before after
    = [(2%nat, error_frame 7 "Apenas motoristas podem aceitar corridas")]
  ∧ storage after = storage before.
Proof. vm_compute. repeat split; reflexivity. Qed.

(** C9.  On the connection of the authenticated driver 20, a [ping] frame
    without identity in its payload (absent or empty) is answered with the
    error for invalid authentication data; no [pong] is sent and no entry
    of the registry has its [lastActivity] changed. *)
Theorem C9_ping_gets_error_and_no_refresh :
  let before := run everywhere plain_date driver_session (fresh_server example_store) in
  let after := exec (on_message everywhere plain_date 2000 1 (Inbound (JStr "ping") None))
                    before in
  let after' := exec (on_message everywhere plain_date 2000 1
                        (Inbound (JStr "ping") (Some ∅))) before in
  emitted before after = [(1%nat, error_frame 2000 "Dados de autenticação inválidos")]
  ∧ clients after = clients before
  ∧ after' = after.
Proof. vm_compute. repeat split; reflexivity. Qed.

(** C5.  Three scenes at the tick of time 70000.  Two silent connections,
    both timed out: the scan evicts the first and skips the second, which
    stays registered with its socket open.  Two silent driver sessions, all
    four entries timed out: the two authenticated entries survive the scan,
    and the scan calls no gateway operation.  A driver session whose
    authenticated entry is evicted while the entry of its connection that
    precedes it is fresh: after the tick and the close event of the socket
    the registry is empty, no gateway call has been made, and the driver's
    location row still says [available]. *)
Theorem C5_heartbeat_skips_neighbour_and_sets_nothing_offline :
  let unbound := run everywhere plain_date two_silent_connections (fresh_server example_store) in
  let silent := run everywhere plain_date two_silent_drivers (fresh_server example_store) in
  let talking := run everywhere plain_date talking_driver (fresh_server example_store) in
  let closed := run everywhere plain_date [(70000, HeartbeatTick); (70001, Close 1)] talking in
  (Forall (λ c, 70000 - lastActivity c > HEARTBEAT_TIMEOUT) (clients unbound)
   ∧ clients (exec (heartbeat 70000) unbound) = [Client 2 (JNum 0) (JStr "passenger") 20]
   ∧ wsOpen (exec (heartbeat 70000) unbound) = {[2%nat]})
  ∧ (Forall (λ c, 70000 - lastActivity c > HEARTBEAT_TIMEOUT) (clients silent)
     ∧ clients (exec (heartbeat 70000) silent)
       = [Client 1 (JNum 20) (JStr "driver") 10; Client 2 (JNum 21) (JStr "driver") 30]
     ∧ gatewayLog (exec (heartbeat 70000) silent) = gatewayLog silent)
  ∧ (Client 1 (JNum 20) (JStr "driver") 1000 ∈ clients talking
     ∧ clients closed = []
     ∧ gatewayLog closed = gatewayLog talking
     ∧ opt_prop (driverLocations (storage closed) !! 20) "status" = JStr "available").
Proof.
  split_and!; first [evaluate | vm_compute; reflexivity].
Qed.

(** C4.  Ride 1 of passenger 10 and driver 20 is [completed].  Handling
    [ride_canceled] for the owning passenger sets its status to [canceled]
    and frees the driver; so does the frame sent on the passenger's
    connection in the trace [late_cancel]. *)
Theorem C4_cancel_overwrites_completed :
  let s := three_sessions (store_with_ride (ride_of_D1 "completed")) in
  let s' := exec (handleRideCanceled 9 (Some {["rideRequestId" := JNum 1]}) passenger_P) s in
  let t := run everywhere plain_date late_cancel
               (fresh_server (store_with_ride (ride_of_D1 "completed"))) in
  opt_prop (rides (storage s) !! 1) "status" = JStr "completed"
  ∧ opt_prop (rides (storage s') !! 1) "status" = JStr "canceled"
  ∧ opt_prop (driverLocations (storage s') !! 20) "status" = JStr "available"
  ∧ opt_prop (rides (storage t) !! 1) "status" = JStr "canceled".
Proof. vm_compute. repeat split; reflexivity. Qed.

(** ** Witnesses and counterexamples *)

(** C6, counterexample.  Driver 20 authenticates on connection 1 and then
    on connection 2: the entry of connection 1 is replaced, yet socket 1 is
    still open. *)
Lemma C6_counterexample_old_socket_stays_open :
  ¬ evicted_and_closed (Client 1 (JNum 20) (JStr "driver") 1)
      (run everywhere plain_date rebinding (fresh_server example_store)).
Proof. intros [_ Hclosed]. apply Hclosed. evaluate. Qed.

Lemma C6_witness :
  unique_identities (run everywhere plain_date rebinding (fresh_server example_store))
  ∧ (let payload : option obj :=
       Some {["userId" := JNum 20; "userType" := JStr "driver"]} in
     let s := run everywhere plain_date (take 3 rebinding) (fresh_server example_store) in
     let uid := prop (default ∅ payload) "userId" in
     let utype := prop (default ∅ payload) "userType" in
     let s' := exec (on_message everywhere plain_date 3 2 (Inbound (JStr "auth") payload)) s in
     clients s'
     = filter (λ c, ¬ (userId c = uid ∧ userType c = utype)) (clients s)
       ++ [Client 2 uid utype 3]
     ∧ wsOpen s' = wsOpen s).
Proof.
  destruct (C6_identity_unique_rebind_keeps_socket everywhere plain_date) as [Hinv Hbind].
  split.
  - apply Hinv. reflexivity.
  - intros payload s. apply (Hbind 3 2%nat payload s).
    + reflexivity.
    + reflexivity.
    + vm_compute. reflexivity.
    + unfold next_call_ok. vm_compute. discriminate.
Defined.

Lemma C10_witness :
  on_message everywhere plain_date 5 1
    (Inbound (JStr "auth") (Some {["userId" := JNum 7; "userType" := JStr "admin"]}))
    (exec (on_connection 0 1) (fresh_server example_store))
  = (Ok tt,
     Srv [Client 1 (JNum 0) (JStr "passenger") 0; Client 1 (JNum 7) (JStr "admin") 5]
         example_store [] [] {[1%nat]}
         [(1%nat, Frame "auth_success"
                    [("userId", JV (JNum 7)); ("userType", JV (JStr "admin"))] 5)]
         ∅).
Proof.
  rewrite (C10_auth_other_roles_skip_store everywhere plain_date 5 1%nat
             {["userId" := JNum 7; "userType" := JStr "admin"]}).
  - vm_compute. reflexivity.
  - reflexivity.
  - reflexivity.
  - vm_compute. discriminate.
  - vm_compute. discriminate.
Defined.

Lemma C3_witness :
  let s := three_sessions (store_with_ride (ride_of_D1 "accepted")) in
  let p : obj := {["rideRequestId" := JNum 1]} in
  (∀ client, is_driver client = true → ws client ∈ wsOpen s →
     let s' := exec (handleRideAccepted 5 (Some p) client) s in
     storage s' = storage s
     ∧ gatewayLog s' = gatewayLog s ++ [GetRideById (JNum 1)]
     ∧ clients s' = clients s
     ∧ ∃ message,
         wire s' = wire s ++ [(ws client, error_frame 5 message)]
         ∧ (next_call_ok s → message = "Esta corrida não está mais disponível"))
  ∧ (∀ w, w ∈ wsOpen s →
       let s' := exec (on_message everywhere plain_date 5 w
                         (Inbound (JStr MessageType.RIDE_ACCEPTED) (Some p))) s in
       storage s' = storage s
       ∧ Forall (λ c, is_mutation c = false)
                (drop (length (gatewayLog s)) (gatewayLog s'))
       ∧ ∃ message, wire s' = wire s ++ [(w, error_frame 5 message)]).
Proof.
  apply (C3_accept_conflict_no_mutation everywhere plain_date 5
           {["rideRequestId" := JNum 1]}
           (three_sessions (store_with_ride (ride_of_D1 "accepted"))) 1
           (ride_of_D1 "accepted")).
  - reflexivity.
  - reflexivity.
  - vm_compute. discriminate.
Defined.

Lemma C7_witness :
  let s := three_sessions (store_with_ride (ride_of_D1 "active")) in
  let s' := exec (handleRideCompleted 5 (Some {["rideRequestId" := JNum 1]}) driver_D1) s in
  gatewayLog s'
  = gatewayLog s
    ++ [GetRideById (JNum 1);
        UpdateRide (JNum 1)
          (object_of [("status", JStr "completed"); ("endTime", JNum 5)]);
        UpdateDriverLocation (JNum 20)
          (object_of [("currentRideId", JNull); ("status", JStr "available")])]
  ∧ (∃ ride', rides (storage s') !! 1 = Some ride'
      ∧ prop ride' "status" = JStr "completed"
      ∧ prop ride' "endTime" = JNum 5)
  ∧ (∃ location, driverLocations (storage s') !! 20 = Some location
      ∧ prop location "status" = JStr "available"
      ∧ prop location "currentRideId" = JNull)
  ∧ (ws driver_D1 ∈ wsOpen s →
     (ws driver_D1,
      Frame MessageType.RIDE_COMPLETED
        [("success", JV (JBool true)); ("rideRequestId", JV (JNum 1));
         ("message", JV (JStr "Corrida completada com sucesso"))] 5) ∈ wire s').
Proof.
  apply (C7_completion_frees_driver 5 {["rideRequestId" := JNum 1]} driver_D1
           (three_sessions (store_with_ride (ride_of_D1 "active"))) 1 20
           (ride_of_D1 "active")).
  - reflexivity.
  - reflexivity.
  - reflexivity.
  - reflexivity.
  - reflexivity.
  - reflexivity.
  - unfold no_faults. simpl. constructor.
Defined.

Lemma C8_witness :
  let p : obj := {["originLatitude" := JNum (-23); "originLongitude" := JNum (-47)]} in
  let s := three_sessions example_store in
  let s' := exec (handleRideRequest nowhere plain_date 6 (Some p) passenger_P) s in
  ∃ row sent,
    rides (storage s') !! 1 = Some row
    ∧ prop row "id" = JNum 1
    ∧ prop row "status" = JStr "pending"
    ∧ prop row "passengerId" = JNum 10
    ∧ (∃ data, gatewayLog s'
         = gatewayLog s
           ++ [CreateRideRequest data;
               GetAvailableDriversNearLocation (prop p "originLatitude")
                                               (prop p "originLongitude") 10000;
               GetPassenger (JNum 10)])
    ∧ wire s' = wire s ++ sent
    ∧ (∀ c, c ∈ clients s → is_driver c = true → ws c ∈ wsOpen s →
         ∃ f, (ws c, f) ∈ sent
              ∧ ftype f = MessageType.NEW_RIDE_REQUEST
              ∧ fpayload f !! 0%nat = Some ("id", JV (JNum 1)))
    ∧ (ws passenger_P ∈ wsOpen s →
         (ws passenger_P,
          Frame MessageType.RIDE_REQUEST
            [("success", JV (JBool true)); ("rideId", JV (JNum 1));
             ("message", JV (JStr "Solicitação de corrida criada com sucesso"))] 6)
         ∈ sent).
Proof.
  apply (C8_fallback_broadcast nowhere plain_date 6
           {["originLatitude" := JNum (-23); "originLongitude" := JNum (-47)]}
           passenger_P (three_sessions example_store)).
  - reflexivity.
  - unfold no_faults. simpl. constructor.
  - vm_compute. reflexivity.
Defined.

Lemma C1_witness :
  exactly_one_accepted 5 1 [driver_D1; driver_D2]
    (three_sessions (store_with_ride pending_ride))
    (serial_accepts 5 (Some {["rideRequestId" := JNum 1]}) [driver_D1; driver_D2]
       (three_sessions (store_with_ride pending_ride))).
Proof.
  apply (C1_serial_first_free_driver_wins 5 {["rideRequestId" := JNum 1]} 1 pending_ride
           (three_sessions (store_with_ride pending_ride)) [] driver_D1 [driver_D2]).
  - reflexivity.
  - reflexivity.
  - reflexivity.
  - evaluate.
  - evaluate.
  - constructor.
  - reflexivity.
  - vm_compute. discriminate.
  - evaluate.
  - unfold no_faults. simpl. constructor.
Defined.

(** * The rest of the server *)

(** ** The heartbeat scan in closed form *)

(** Past the end of the registry the scan does nothing. *)
Lemma heartbeat_loop_past_end now n i s :
  (length (clients s) ≤ i)%nat → heartbeat_loop now n i s = (Ok tt, s).
Proof.
  revert i. induction n as [|n IH]; intros i Hi; [done|].
  simpl. unfold bind, get. rewrite lookup_ge_None_2 by done.
  apply IH. lia.
Qed.

Lemma close_if_open w s :
  (if readyState_OPEN w s then ws_close w else ret tt) s
  = (Ok tt, set_wsOpen (λ o, o ∖ {[w]}) s).
Proof.
  unfold readyState_OPEN. case_bool_decide as Hw; [done|].
  unfold ret, set_wsOpen. f_equal. destruct s; simpl in *. f_equal.
  symmetry. apply difference_disjoint_L. by apply disjoint_singleton_r.
Qed.

(** The scan from index [length pre] on, with enough iterations left for
    the entries [rest] that lie ahead. *)
Lemma heartbeat_loop_scanned now n pre rest s :
  clients s = pre ++ rest → (length rest ≤ n)%nat →
  heartbeat_loop now n (length pre) s
  = (Ok tt, Srv (pre ++ scanned now rest) (storage s) (faults s) (gatewayLog s)
                (wsOpen s ∖ list_to_set (ws <$> evicted now rest)) (wire s) (authTimers s)).
Proof.
  revert pre rest s. induction n as [|n IH]; intros pre rest s Hcs Hn.
  - destruct rest; [|simpl in Hn; lia]. simpl. unfold ret. f_equal.
    destruct s; simpl in *. rewrite Hcs. f_equal. by rewrite difference_empty_L.
  - simpl heartbeat_loop. unfold bind at 1. unfold get. cbv beta iota.
    rewrite Hcs. destruct rest as [|c rest].
    + rewrite lookup_ge_None_2 by (rewrite app_nil_r; lia).
      rewrite heartbeat_loop_past_end by (rewrite Hcs, app_nil_r; lia).
      f_equal. destruct s; simpl in *. rewrite Hcs. f_equal. by rewrite difference_empty_L.
    + rewrite lookup_app_r by lia. rewrite Nat.sub_diag. cbn [lookup list_lookup].
      simpl scanned. simpl evicted.
      destruct (decide (inactive now c)) as [Hc|Hc].
      * rewrite bool_decide_eq_true_2 by exact Hc.
        unfold bind. rewrite close_if_open. cbn [modify].
        set (s1 := set_clients _ _).
        assert (Hs1 : clients s1 = pre ++ rest).
        { unfold s1. simpl. rewrite Hcs. rewrite delete_middle. done. }
        destruct rest as [|c' rest].
        -- rewrite heartbeat_loop_past_end by (rewrite Hs1, app_nil_r; lia).
           f_equal. unfold s1, set_clients, set_wsOpen; simpl. rewrite Hcs, delete_middle.
           f_equal. by rewrite union_empty_r_L.
        -- replace (S (length pre)) with (length (pre ++ [c']))
             by (rewrite length_app; simpl; lia).
           rewrite (IH (pre ++ [c']) rest s1); [|by rewrite Hs1, <- app_assoc|simpl in Hn; lia].
           f_equal. unfold s1; simpl. rewrite <- app_assoc. simpl. f_equal.
           by rewrite difference_difference_l_L.
      * rewrite bool_decide_eq_false_2 by exact Hc.
        unfold bind. cbn [ret].
        replace (S (length pre)) with (length (pre ++ [c]))
          by (rewrite length_app; simpl; lia).
        rewrite (IH (pre ++ [c]) rest s); [|by rewrite Hcs, <- app_assoc|simpl in Hn; lia].
        by rewrite <- app_assoc.
Qed.

Lemma scanned_sublist now cs : sublist (scanned now cs) cs.
Proof.
  induction cs as [cs IH] using (induction_ltof1 _ length). unfold ltof in IH.
  destruct cs as [|c [|c' cs]]; simpl.
  - done.
  - destruct (decide _); [by apply sublist_nil_l|done].
  - destruct (decide (inactive now c)).
    + apply sublist_cons. apply sublist_skip. apply IH. simpl. lia.
    + apply sublist_skip. apply (IH (c' :: cs)). simpl. lia.
Qed.

Lemma scanned_keeps_active now cs :
  sublist (filter (λ c, ¬ inactive now c) cs) (scanned now cs).
Proof.
  induction cs as [cs IH] using (induction_ltof1 _ length). unfold ltof in IH.
  destruct cs as [|c [|c' cs]]; simpl.
  - done.
  - rewrite filter_cons, filter_nil. destruct (decide (inactive now c)).
    + by rewrite decide_False by tauto.
    + by rewrite decide_True by done.
  - rewrite filter_cons. destruct (decide (inactive now c)).
    + rewrite decide_False by tauto. rewrite filter_cons.
      destruct (decide (¬ inactive now c')).
      * apply sublist_skip. apply IH. simpl. lia.
      * apply sublist_cons. apply IH. simpl. lia.
    + rewrite decide_True by done. apply sublist_skip. apply (IH (c' :: cs)). simpl. lia.
Qed.

Lemma evicted_inactive now cs c : c ∈ evicted now cs → c ∈ cs ∧ inactive now c.
Proof.
  induction cs as [cs IH] using (induction_ltof1 _ length). unfold ltof in IH.
  destruct cs as [|c0 [|c' cs]]; simpl.
  - by intros ?%elem_of_nil.
  - destruct (decide (inactive now c0)); [|by intros ?%elem_of_nil].
    intros ->%list_elem_of_singleton. split; [apply list_elem_of_here|done].
  - destruct (decide (inactive now c0)).
    + intros [->|H]%elem_of_cons; [split; [apply list_elem_of_here|done]|].
      apply IH in H as [? ?]; [|simpl; lia]. split; [|done].
      by do 2 apply list_elem_of_further.
    + intros H. apply (IH (c' :: cs)) in H as [? ?]; [|simpl; lia].
      split; [|done]. by apply list_elem_of_further.
Qed.

Lemma inactive_apart_tail now c cs : inactive_apart now (c :: cs) → inactive_apart now cs.
Proof. intros H i x y Hx Hy. exact (H (S i) x y Hx Hy). Qed.

Lemma scanned_apart now cs :
  inactive_apart now cs →
  scanned now cs = filter (λ c, ¬ inactive now c) cs
  ∧ evicted now cs = filter (inactive now) cs.
Proof.
  induction cs as [cs IH] using (induction_ltof1 _ length). unfold ltof in IH.
  intros Hap. destruct cs as [|c [|c' cs]].
  - done.
  - simpl. rewrite !filter_cons, !filter_nil. by repeat case_decide.
  - assert (inactive now c → ¬ inactive now c') as Hcc'
      by exact (Hap 0%nat c c' eq_refl eq_refl).
    pose proof (inactive_apart_tail _ _ _ Hap) as Hap1.
    pose proof (inactive_apart_tail _ _ _ Hap1) as Hap2.
    destruct (IH (c' :: cs)) as [E1 E2]; [simpl; lia|done|].
    destruct (IH cs) as [E3 E4]; [simpl; lia|done|].
    cbn [scanned evicted]. cbn [scanned evicted] in E1, E2.
    rewrite !(filter_cons _ c). rewrite !(filter_cons _ c') in *.
    rewrite E3, E4.
    repeat case_decide; try tauto; try done; by rewrite ?E1, ?E2.
Qed.

(** X1. One tick of the heartbeat goes through the registry in order: an
    inactive entry it reaches is removed and its socket closed, and the
    entry that follows a removed one is passed over, whatever its age.  The
    tick leaves exactly that registry and those sockets; it calls no gateway
    operation, sends no frame and touches no timer. *)
Theorem heartbeat_tick_in_closed_form now s :
  heartbeat now s
  = (Ok tt, Srv (scanned now (clients s)) (storage s) (faults s) (gatewayLog s)
               (wsOpen s ∖ list_to_set (ws <$> evicted now (clients s)))
               (wire s) (authTimers s)).
Proof.
  exact (heartbeat_loop_scanned now _ [] (clients s) s eq_refl (le_n _)).
Qed.

(** X2. A tick of the heartbeat only removes entries, never an entry that
    was active within the last [HEARTBEAT_TIMEOUT] milliseconds, and keeps
    the order of the entries that stay; it opens no socket, and every socket
    it closes belongs to an inactive entry. *)
Theorem heartbeat_keeps_active_entries now s :
  let s' := exec (heartbeat now) s in
  sublist (clients s') (clients s)
  ∧ sublist (filter (λ c, ¬ inactive now c) (clients s)) (clients s')
  ∧ wsOpen s' ⊆ wsOpen s
  ∧ (∀ w, w ∈ wsOpen s → w ∉ wsOpen s' →
       ∃ c, c ∈ clients s ∧ ws c = w ∧ inactive now c).
Proof.
  intros s'. subst s'. unfold exec.
  change (heartbeat now s)
    with (heartbeat_loop now (length (clients s)) (length (@nil ConnectedClient)) s).
  rewrite (heartbeat_loop_scanned now _ [] (clients s) s eq_refl (le_n _)).
  simpl. split_and!.
  - apply scanned_sublist.
  - apply scanned_keeps_active.
  - intros w Hw. by apply elem_of_difference in Hw as [? _].
  - intros w Hw Hnw.
    destruct (decide (w ∈ (list_to_set (ws <$> evicted now (clients s)) : gset nat)))
      as [Hin|Hin].
    + apply elem_of_list_to_set, list_elem_of_fmap in Hin as (c & -> & Hc).
      apply evicted_inactive in Hc as [? ?]. eauto.
    + destruct Hnw. by apply elem_of_difference.
Qed.

(** X3. When no inactive entry is directly followed by another inactive
    entry, one tick of the heartbeat removes every inactive entry, leaving
    the active entries in their order, and the socket of every inactive
    entry is closed afterwards. *)
Theorem heartbeat_evicts_inactive_apart now s :
  inactive_apart now (clients s) →
  let s' := exec (heartbeat now) s in
  clients s' = filter (λ c, ¬ inactive now c) (clients s)
  ∧ (∀ c, c ∈ clients s → inactive now c → ws c ∉ wsOpen s').
Proof.
  intros Hap s'. subst s'. unfold exec.
  change (heartbeat now s)
    with (heartbeat_loop now (length (clients s)) (length (@nil ConnectedClient)) s).
  rewrite (heartbeat_loop_scanned now _ [] (clients s) s eq_refl (le_n _)).
  simpl. destruct (scanned_apart _ _ Hap) as [-> ->]. split; [done|].
  intros c Hc Hin Hopen. apply elem_of_difference in Hopen as [_ Hopen]. apply Hopen.
  apply elem_of_list_to_set, list_elem_of_fmap. exists c. split; [done|].
  by apply list_elem_of_filter.
Qed.
(** ** What the handlers reached from the router leave alone *)

#[global] Instance handler_footprint_refl : Reflexive handler_footprint.
Proof. intros s. repeat split. exists []. by rewrite app_nil_r. Qed.

#[global] Instance handler_footprint_trans : Transitive handler_footprint.
Proof.
  intros s1 s2 s3 (C1 & O1 & T1 & l1 & W1 & F1) (C2 & O2 & T2 & l2 & W2 & F2).
  split_and!; [congruence..|].
  exists (l1 ++ l2). split; [by rewrite W2, W1, app_assoc|].
  apply Forall_app. split; [done|]. by rewrite <- O1.
Qed.

Lemma gateway_footprint c : steps handler_footprint (gateway c).
Proof. intros s. rewrite gateway_state. repeat split. exists []. by rewrite app_nil_r. Qed.

Lemma set_storage_footprint f : steps handler_footprint (modify (set_storage f)).
Proof. intros s. repeat split. exists []. simpl. by rewrite app_nil_r. Qed.

Lemma sendMessage_footprint now w type payload :
  steps handler_footprint (sendMessage now w type payload).
Proof.
  intros s. rewrite sendMessage_state. case_bool_decide.
  - repeat split. exists [(w, Frame type payload now)]. split; [done|].
    by repeat constructor.
  - reflexivity.
Qed.

Lemma handleMessage_keeps_footprint within iso now type payload client :
  steps handler_footprint (handleMessage within iso now type payload client).
Proof.
  apply (handleMessage_steps handler_footprint).
  - apply gateway_footprint.
  - apply set_storage_footprint.
  - apply sendMessage_footprint.
Qed.

(** X4. Whatever the frame, the client it is handled for, the store and
    the fate of the gateway calls, the router and the handlers it reaches
    leave the registry, the state of every socket and the authentication
    timers as they are, never retract a frame, and hand frames only to
    sockets that are OPEN. *)
Theorem handleMessage_footprint within iso now type payload client s :
  let s' := exec (handleMessage within iso now type payload client) s in
  clients s' = clients s
  ∧ wsOpen s' = wsOpen s
  ∧ authTimers s' = authTimers s
  ∧ ∃ sent, wire s' = wire s ++ sent ∧ Forall (λ wf, wf.1 ∈ wsOpen s) sent.
Proof. apply handleMessage_keeps_footprint. Qed.
(** ** Runs of the handlers, frame by frame *)

Lemma set_wire_nil s : set_wire (λ l, l ++ []) s = s.
Proof. destruct s. unfold set_wire. simpl. by rewrite app_nil_r. Qed.

Lemma sendMessage_reply now w type payload s :
  sendMessage now w type payload s
  = (Ok tt, set_wire (λ l, l ++ reply w (Frame type payload now) s) s).
Proof.
  rewrite sendMessage_run. unfold reply. case_bool_decide; [done|].
  by rewrite set_wire_nil.
Qed.

Lemma sendError_reply now w message s :
  sendError now w message s
  = (Ok tt, set_wire (λ l, l ++ reply w (error_frame now message) s) s).
Proof. apply sendMessage_reply. Qed.

Lemma broadcastToUser_deliver now uid utype type payload s :
  broadcastToUser now uid utype type payload s
  = (Ok tt, set_wire (λ l, l ++ deliver (Frame type payload now) (sessions uid utype s)) s).
Proof. apply broadcastToUser_run. Qed.

Lemma broadcastToUserType_deliver now utype type payload excludeUsers s :
  broadcastToUserType now utype type payload excludeUsers s
  = (Ok tt, set_wire (λ l, l ++ deliver (Frame type payload now)
                                   (sessions_of_type utype excludeUsers s)) s).
Proof. apply broadcastToUserType_run. Qed.

Lemma updateRide_fails id fields s :
  head (faults s) = Some true →
  updateRide id fields s = (Throw, called (UpdateRide id fields) s).
Proof. intros H. unfold updateRide, bind. by rewrite gateway_fails. Qed.

Lemma updateDriverLocation_fails id fields s :
  head (faults s) = Some true →
  updateDriverLocation id fields s = (Throw, called (UpdateDriverLocation id fields) s).
Proof. intros H. unfold updateDriverLocation, bind. by rewrite gateway_fails. Qed.

Lemma createRideRequest_fails fields s :
  head (faults s) = Some true →
  createRideRequest fields s = (Throw, called (CreateRideRequest fields) s).
Proof. intros H. unfold createRideRequest, bind. by rewrite gateway_fails. Qed.

Lemma getUser_ok id s :
  next_call_ok s →
  getUser id s = (Ok (key id ≫= λ k, users (storage s) !! k), called (GetUser id) s).
Proof. intros H. unfold getUser, bind. by rewrite gateway_ok. Qed.

Lemma getUser_fails id s :
  head (faults s) = Some true → getUser id s = (Throw, called (GetUser id) s).
Proof. intros H. unfold getUser, bind. by rewrite gateway_fails. Qed.

Lemma getDriverLocationByDriverId_fails id s :
  head (faults s) = Some true →
  getDriverLocationByDriverId id s = (Throw, called (GetDriverLocationByDriverId id) s).
Proof. intros H. unfold getDriverLocationByDriverId, bind. by rewrite gateway_fails. Qed.

Lemma createDriverLocation_ok fields s :
  next_call_ok s →
  createDriverLocation fields s
  = (Ok tt, set_storage (store_createDriverLocation fields) (called (CreateDriverLocation fields) s)).
Proof. intros H. unfold createDriverLocation, bind. by rewrite gateway_ok. Qed.

(** Runs a handler through its primitives, in the equation [E] of the state
    it leaves, as long as no gateway call rejects. *)
Ltac run_ok E :=
  repeat first
    [ rewrite getRideById_ok in E by calls_ok
    | rewrite getDriverLocationByDriverId_ok in E by calls_ok
    | rewrite getPassenger_ok in E by calls_ok
    | rewrite getUser_ok in E by calls_ok
    | rewrite updateRide_ok in E by calls_ok
    | rewrite updateDriverLocation_ok in E by calls_ok
    | rewrite createDriverLocation_ok in E by calls_ok
    | rewrite createRideRequest_ok in E by calls_ok
    | rewrite sendError_reply in E
    | rewrite sendMessage_reply in E
    | rewrite broadcastToUser_deliver in E
    | rewrite broadcastToUserType_deliver in E
    | progress cbv beta iota in E
    | progress cbn [key mbind option_bind negb andb orb snd fst] in E ].

Lemma driverLocations_updateRide id fields st :
  driverLocations (store_updateRide id fields st) = driverLocations st.
Proof. unfold store_updateRide. by repeat case_match. Qed.

(** Closes the comparison of the state reached with the one stated. *)
Ltac reached :=
  unfold sessions, sessions_of_type, reply; simpl;
  rewrite ?driverLocations_updateRide, ?rides_updateDriverLocation;
  rewrite <- ?app_assoc, ?app_nil_r; try done.

(** Names the state a handler leaves and opens the handler in its equation. *)
Ltac opened s' E :=
  assert (E : s' = s') by reflexivity; unfold s' at 2 in E; clearbody s';
  unfold exec in E.

Ltac leaves s' E := intros s'; opened s' E.

(** X5. When [ride_started] is handled for the driver assigned to a stored
    ride whose status is [accepted] and the gateway calls succeed, the
    handler reads the ride and updates it to the status [active] with its
    start time; the DriverLocation rows are not written; every open session
    of the ride's passenger is sent [ride_started] with the ride and the
    driver, and the driver is sent the success confirmation. *)
Theorem handleRideStarted_starts_ride now p client s k ride :
  is_driver client = true →
  prop p "rideRequestId" = JNum k →
  rides (storage s) !! k = Some ride →
  prop ride "driverId" = userId client →
  prop ride "status" = JStr "accepted" →
  no_faults s →
  let s' := exec (handleRideStarted now (Some p) client) s in
  let started := object_of [("status", JStr "active"); ("startTime", JNum now)] in
  gatewayLog s' = gatewayLog s ++ [GetRideById (JNum k); UpdateRide (JNum k) started]
  ∧ rides (storage s') = <[k := started ∪ ride]> (rides (storage s))
  ∧ driverLocations (storage s') = driverLocations (storage s)
  ∧ wire s'
    = wire s
      ++ (if truthy (prop ride "userId") then
            deliver (Frame MessageType.RIDE_STARTED
                       [("rideId", JV (JNum k)); ("driverId", JV (userId client));
                        ("message", JV (JStr "Sua corrida foi iniciada"))] now)
                    (sessions (prop ride "userId") "passenger" s)
          else [])
      ++ reply (ws client)
           (Frame MessageType.RIDE_STARTED
              [("success", JV (JBool true)); ("rideRequestId", JV (JNum k));
               ("message", JV (JStr "Corrida iniciada com sucesso"))] now) s.
Proof.
  intros Hdrv Hid Hride Hdid Hst Hnf. leaves s' E. intros started.
  unfold handleRideStarted in E. rewrite Hdrv in E.
  unfold try_catch, bind, destructure, ret in E. cbn [negb] in E. cbv beta iota zeta in E.
  rewrite Hid in E. run_ok E. rewrite Hride in E. run_ok E.
  rewrite Hdid, Hst, !strict_eq_refl in E. run_ok E.
  destruct (truthy (prop ride "userId")); run_ok E; subst s'; simpl;
    rewrite ?rides_updateDriverLocation, (rides_updateRide _ _ _ _ Hride); split_and!; reached.
Qed.

(** A [ride_started] frame for a driver who is not assigned to the ride, or
    for a ride that is not [accepted]. *)
Lemma handleRideStarted_refuses now p client s k ride :
  is_driver client = true →
  prop p "rideRequestId" = JNum k →
  rides (storage s) !! k = Some ride →
  next_call_ok s →
  prop ride "driverId" ≠ userId client ∨ prop ride "status" ≠ JStr "accepted" →
  let s' := exec (handleRideStarted now (Some p) client) s in
  storage s' = storage s
  ∧ gatewayLog s' = gatewayLog s ++ [GetRideById (JNum k)]
  ∧ wire s'
    = wire s
      ++ reply (ws client)
           (error_frame now
              (if decide (prop ride "driverId" = userId client)
               then "Esta corrida não pode ser iniciada"
               else "Você não está atribuído a esta corrida")) s.
Proof.
  intros Hdrv Hid Hride Hok Hno. leaves s' E.
  unfold handleRideStarted in E. rewrite Hdrv in E.
  unfold try_catch, bind, destructure, ret in E. cbn [negb] in E. cbv beta iota zeta in E.
  rewrite Hid in E. rewrite getRideById_ok in E by done. run_ok E. rewrite Hride in E.
  run_ok E. destruct (decide (prop ride "driverId" = userId client)) as [Hd|Hd].
  - destruct Hno as [Hno|Hno]; [done|].
    rewrite Hd, strict_eq_refl, (strict_eq_ne _ _ Hno) in E. run_ok E.
    subst s'. split_and!; reached.
  - rewrite (strict_eq_ne _ _ Hd) in E. run_ok E. subst s'. split_and!; reached.
Qed.

(** A [ride_completed] frame for a driver who is not assigned to the ride,
    or for a ride that is not [active]. *)
Lemma handleRideCompleted_refuses now p client s k ride :
  is_driver client = true →
  prop p "rideRequestId" = JNum k →
  rides (storage s) !! k = Some ride →
  next_call_ok s →
  prop ride "driverId" ≠ userId client ∨ prop ride "status" ≠ JStr "active" →
  let s' := exec (handleRideCompleted now (Some p) client) s in
  storage s' = storage s
  ∧ gatewayLog s' = gatewayLog s ++ [GetRideById (JNum k)]
  ∧ wire s'
    = wire s
      ++ reply (ws client)
           (error_frame now
              (if decide (prop ride "driverId" = userId client)
               then "Esta corrida não está ativa"
               else "Você não está atribuído a esta corrida")) s.
Proof.
  intros Hdrv Hid Hride Hok Hno. leaves s' E.
  unfold handleRideCompleted in E. rewrite Hdrv in E.
  unfold try_catch, bind, destructure, ret in E. cbn [negb] in E. cbv beta iota zeta in E.
  rewrite Hid in E. rewrite getRideById_ok in E by done. run_ok E. rewrite Hride in E.
  run_ok E. destruct (decide (prop ride "driverId" = userId client)) as [Hd|Hd].
  - destruct Hno as [Hno|Hno]; [done|].
    rewrite Hd, strict_eq_refl, (strict_eq_ne _ _ Hno) in E. run_ok E.
    subst s'. split_and!; reached.
  - rewrite (strict_eq_ne _ _ Hd) in E. run_ok E. subst s'. split_and!; reached.
Qed.

(** X6. A [ride_started] or [ride_completed] frame handled for a driver
    who is not the one assigned to the stored ride, or for a ride that is
    not in the state the transition starts from ([accepted] for a start,
    [active] for a completion), mutates nothing: the only gateway call is
    the read of the ride, and the driver is answered with one [error] frame,
    which names the assignment when that is what fails and the state of the
    ride otherwise. *)
Theorem start_and_complete_refuse now p client s k ride :
  is_driver client = true →
  prop p "rideRequestId" = JNum k →
  rides (storage s) !! k = Some ride →
  next_call_ok s →
  let refuses (h : Z → option obj → ConnectedClient → M unit) (required message : string) :=
    prop ride "driverId" ≠ userId client ∨ prop ride "status" ≠ JStr required →
    let s' := exec (h now (Some p) client) s in
    storage s' = storage s
    ∧ gatewayLog s' = gatewayLog s ++ [GetRideById (JNum k)]
    ∧ wire s'
      = wire s
        ++ reply (ws client)
             (error_frame now
                (if decide (prop ride "driverId" = userId client)
                 then message
                 else "Você não está atribuído a esta corrida")) s in
  refuses handleRideStarted "accepted" "Esta corrida não pode ser iniciada"
  ∧ refuses handleRideCompleted "active" "Esta corrida não está ativa".
Proof.
  intros Hdrv Hid Hride Hok refuses. split; intros Hno.
  - by apply handleRideStarted_refuses.
  - by apply handleRideCompleted_refuses.
Qed.

(** X7. When the identifier of the frame names no stored ride, each of
    the four lifecycle handlers (accept, start and complete for a driver,
    cancel for any client) only reads the ride, leaves the store unchanged
    and answers ['Corrida não encontrada']. *)
Theorem lifecycle_ride_not_found now p client s :
  (key (prop p "rideRequestId") ≫= λ k, rides (storage s) !! k) = None →
  next_call_ok s →
  let not_found h :=
    let s' := exec (h now (Some p) client) s in
    storage s' = storage s
    ∧ gatewayLog s' = gatewayLog s ++ [GetRideById (prop p "rideRequestId")]
    ∧ wire s' = wire s ++ reply (ws client) (error_frame now "Corrida não encontrada") s in
  (is_driver client = true →
   not_found handleRideAccepted ∧ not_found handleRideStarted
   ∧ not_found handleRideCompleted)
  ∧ not_found handleRideCanceled.
Proof.
  intros Hnone Hok not_found. split; [intros Hdrv; split; [|split]|].
  - unfold not_found. set (s' := exec _ s). opened s' E. unfold handleRideAccepted in E. rewrite Hdrv in E.
    unfold try_catch, bind, destructure, ret in E. cbn [negb] in E.
    cbv beta iota zeta in E. rewrite getRideById_ok in E by done. rewrite Hnone in E.
    run_ok E. subst s'. split_and!; reached.
  - unfold not_found. set (s' := exec _ s). opened s' E. unfold handleRideStarted in E. rewrite Hdrv in E.
    unfold try_catch, bind, destructure, ret in E. cbn [negb] in E.
    cbv beta iota zeta in E. rewrite getRideById_ok in E by done. rewrite Hnone in E.
    run_ok E. subst s'. split_and!; reached.
  - unfold not_found. set (s' := exec _ s). opened s' E. unfold handleRideCompleted in E. rewrite Hdrv in E.
    unfold try_catch, bind, destructure, ret in E. cbn [negb] in E.
    cbv beta iota zeta in E. rewrite getRideById_ok in E by done. rewrite Hnone in E.
    run_ok E. subst s'. split_and!; reached.
  - unfold not_found. set (s' := exec _ s). opened s' E. unfold handleRideCanceled in E.
    unfold try_catch, bind, destructure, ret in E.
    cbv beta iota zeta in E. rewrite getRideById_ok in E by done. rewrite Hnone in E.
    run_ok E. subst s'. split_and!; reached.
Qed.

(** X8. A passenger who does not own the ride and a driver who is not
    assigned to it cannot cancel it: the store is unchanged, the only
    gateway call is the read of the ride, and the client is answered with
    ['Você não pode cancelar esta corrida']. *)
Theorem handleRideCanceled_refuses_strangers now p client s k ride :
  prop p "rideRequestId" = JNum k →
  rides (storage s) !! k = Some ride →
  next_call_ok s →
  (is_passenger client = true ∧ prop ride "userId" ≠ userId client)
  ∨ (is_driver client = true ∧ prop ride "driverId" ≠ userId client) →
  let s' := exec (handleRideCanceled now (Some p) client) s in
  storage s' = storage s
  ∧ gatewayLog s' = gatewayLog s ++ [GetRideById (JNum k)]
  ∧ wire s'
    = wire s ++ reply (ws client) (error_frame now "Você não pode cancelar esta corrida") s.
Proof.
  intros Hid Hride Hok Hno. leaves s' E.
  unfold handleRideCanceled in E.
  unfold try_catch, bind, destructure, ret in E. cbv beta iota zeta in E.
  rewrite Hid in E. rewrite getRideById_ok in E by done. run_ok E. rewrite Hride in E.
  run_ok E. destruct Hno as [[Hp Hne]|[Hd Hne]].
  - rewrite Hp, (strict_eq_ne _ _ Hne) in E. run_ok E. subst s'. split_and!; reached.
  - rewrite Hd, (strict_eq_ne _ _ Hne) in E.
    destruct (is_passenger client && negb (strict_eq (prop ride "userId") (userId client)));
      run_ok E; subst s'; split_and!; reached.
Qed.

(** X9. When the owning passenger cancels a stored ride and the gateway
    calls succeed, the ride is updated to the status [canceled]; if the ride
    carries a driver, that driver's DriverLocation is updated to [available]
    with a null [currentRideId] and every open session of the driver is sent
    [ride_canceled] with the passenger's reason; the passenger is sent the
    success confirmation.  Without a driver nothing but the ride is
    written and nobody else is notified. *)
Theorem handleRideCanceled_by_passenger now p client s k ride :
  is_passenger client = true →
  prop p "rideRequestId" = JNum k →
  rides (storage s) !! k = Some ride →
  prop ride "userId" = userId client →
  no_faults s →
  let s' := exec (handleRideCanceled now (Some p) client) s in
  let canceled := object_of [("status", JStr "canceled")] in
  let freed := object_of [("currentRideId", JNull); ("status", JStr "available")] in
  let driver := prop ride "driverId" in
  gatewayLog s'
  = gatewayLog s
    ++ [GetRideById (JNum k); UpdateRide (JNum k) canceled]
    ++ (if truthy driver then [UpdateDriverLocation driver freed] else [])
  ∧ rides (storage s') = <[k := canceled ∪ ride]> (rides (storage s))
  ∧ wire s'
    = wire s
      ++ (if truthy driver then
            deliver (Frame MessageType.RIDE_CANCELED
                       [("rideId", JV (JNum k)); ("canceledBy", JV (JStr "passenger"));
                        ("reason", JV (prop p "reason"));
                        ("message", JV (JStr "Corrida cancelada pelo passageiro"))] now)
                    (sessions driver "driver" s)
          else [])
      ++ reply (ws client)
           (Frame MessageType.RIDE_CANCELED
              [("success", JV (JBool true)); ("rideRequestId", JV (JNum k));
               ("message", JV (JStr "Corrida cancelada com sucesso"))] now) s.
Proof.
  intros Hpas Hid Hride Hown Hnf. leaves s' E. intros canceled freed driver.
  unfold handleRideCanceled in E.
  rewrite Hpas, (is_passenger_not_driver _ Hpas) in E.
  unfold try_catch, bind, destructure, ret in E. cbv beta iota zeta in E.
  rewrite Hid in E. run_ok E. rewrite Hride in E. run_ok E.
  rewrite Hown, strict_eq_refl in E. run_ok E. fold driver in E.
  destruct (truthy driver); run_ok E; subst s'; simpl;
    rewrite ?rides_updateDriverLocation, (rides_updateRide _ _ _ _ Hride); split_and!; reached.
Qed.

(** X10. When the assigned driver cancels a stored ride and the gateway
    calls succeed, the ride is updated to the status [canceled], the
    driver's DriverLocation is updated to [available] with a null
    [currentRideId], every open session of the ride's passenger is sent
    [ride_canceled] with the driver's reason, and the driver is sent the
    success confirmation. *)
Theorem handleRideCanceled_by_driver now p client s k ride :
  is_driver client = true →
  prop p "rideRequestId" = JNum k →
  rides (storage s) !! k = Some ride →
  prop ride "driverId" = userId client →
  no_faults s →
  let s' := exec (handleRideCanceled now (Some p) client) s in
  let canceled := object_of [("status", JStr "canceled")] in
  let freed := object_of [("currentRideId", JNull); ("status", JStr "available")] in
  gatewayLog s'
  = gatewayLog s
    ++ [GetRideById (JNum k); UpdateRide (JNum k) canceled]
    ++ (if truthy (userId client) then [UpdateDriverLocation (userId client) freed] else [])
  ∧ rides (storage s') = <[k := canceled ∪ ride]> (rides (storage s))
  ∧ wire s'
    = wire s
      ++ (if truthy (prop ride "userId") then
            deliver (Frame MessageType.RIDE_CANCELED
                       [("rideId", JV (JNum k)); ("canceledBy", JV (JStr "driver"));
                        ("reason", JV (prop p "reason"));
                        ("message", JV (JStr "Corrida cancelada pelo motorista"))] now)
                    (sessions (prop ride "userId") "passenger" s)
          else [])
      ++ reply (ws client)
           (Frame MessageType.RIDE_CANCELED
              [("success", JV (JBool true)); ("rideRequestId", JV (JNum k));
               ("message", JV (JStr "Corrida cancelada com sucesso"))] now) s.
Proof.
  intros Hdrv Hid Hride Hown Hnf. leaves s' E. intros canceled freed.
  assert (Hpas : is_passenger client = false).
  { destruct (is_passenger client) eqn:Hp; [|done].
    apply is_passenger_not_driver in Hp. congruence. }
  unfold handleRideCanceled in E. rewrite Hpas, Hdrv in E.
  unfold try_catch, bind, destructure, ret in E. cbv beta iota zeta in E.
  rewrite Hid in E. run_ok E. rewrite Hride in E. run_ok E.
  rewrite Hown, strict_eq_refl in E. run_ok E.
  destruct (truthy (userId client)), (truthy (prop ride "userId")); run_ok E; subst s'; simpl;
    rewrite ?rides_updateDriverLocation, (rides_updateRide _ _ _ _ Hride); split_and!; reached.
Qed.

(** X11. When [ride_accepted] is handled for a driver without a current
    ride, on a stored ride whose status is [pending], and the gateway calls
    succeed, the handler issues the two reads and the two updates in that
    order, the ride row takes the driver and the status [accepted], and the
    frames sent are, in order: [ride_accepted] to every open session of the
    ride's passenger, [ride_rejected] to every open session of type driver
    whose user is not the accepting one, and the success confirmation to
    the accepting driver. *)
Theorem handleRideAccepted_notifies now p client s k ride :
  is_driver client = true →
  prop p "rideRequestId" = JNum k →
  rides (storage s) !! k = Some ride →
  prop ride "status" = JStr "pending" →
  truthy (opt_prop (key (userId client) ≫= λ i, driverLocations (storage s) !! i)
                   "currentRideId") = false →
  no_faults s →
  let s' := exec (handleRideAccepted now (Some p) client) s in
  let accepted := object_of [("driverId", userId client); ("status", JStr "accepted")] in
  let busy := object_of [("currentRideId", JNum k); ("status", JStr "busy")] in
  gatewayLog s'
  = gatewayLog s
    ++ [GetRideById (JNum k); GetDriverLocationByDriverId (userId client);
        UpdateRide (JNum k) accepted; UpdateDriverLocation (userId client) busy]
  ∧ rides (storage s') = <[k := accepted ∪ ride]> (rides (storage s))
  ∧ wire s'
    = wire s
      ++ (if truthy (prop ride "userId") then
            deliver (Frame MessageType.RIDE_ACCEPTED
                       [("rideId", JV (JNum k)); ("driverId", JV (userId client));
                        ("message", JV (JStr "Sua corrida foi aceita por um motorista"))] now)
                    (sessions (prop ride "userId") "passenger" s)
          else [])
      ++ deliver (Frame MessageType.RIDE_REJECTED
                    [("rideId", JV (JNum k));
                     ("message", JV (JStr "Esta corrida foi aceita por outro motorista"))] now)
                 (sessions_of_type "driver" [userId client] s)
      ++ reply (ws client) (accept_confirmation now (JNum k)) s.
Proof.
  intros Hdrv Hid Hride Hst Hfree Hnf. leaves s' E. intros accepted busy.
  unfold handleRideAccepted in E. rewrite Hdrv in E.
  unfold try_catch, bind, destructure, ret in E. cbn [negb] in E. cbv beta iota zeta in E.
  rewrite Hid in E. run_ok E. rewrite Hride in E. run_ok E.
  rewrite Hst, strict_eq_refl in E. run_ok E.
  rewrite ?storage_called, Hfree in E. run_ok E.
  destruct (truthy (prop ride "userId")); run_ok E; subst s'; simpl;
    rewrite rides_updateDriverLocation, (rides_updateRide _ _ _ _ Hride);
    split_and!; reached.
Qed.

(** X12. The two updates of an accept are separate gateway calls: when
    the update of the ride succeeds and the update of the driver's
    DriverLocation is rejected, the ride row keeps the driver and the status
    [accepted], the DriverLocation rows are as before, nobody is notified,
    and the driver is answered with ['Erro ao aceitar corrida']. *)
Theorem handleRideAccepted_half_done now p client s k ride fs :
  is_driver client = true →
  prop p "rideRequestId" = JNum k →
  rides (storage s) !! k = Some ride →
  prop ride "status" = JStr "pending" →
  truthy (opt_prop (key (userId client) ≫= λ i, driverLocations (storage s) !! i)
                   "currentRideId") = false →
  faults s = false :: false :: false :: true :: fs →
  let s' := exec (handleRideAccepted now (Some p) client) s in
  let accepted := object_of [("driverId", userId client); ("status", JStr "accepted")] in
  let busy := object_of [("currentRideId", JNum k); ("status", JStr "busy")] in
  gatewayLog s'
  = gatewayLog s
    ++ [GetRideById (JNum k); GetDriverLocationByDriverId (userId client);
        UpdateRide (JNum k) accepted; UpdateDriverLocation (userId client) busy]
  ∧ rides (storage s') = <[k := accepted ∪ ride]> (rides (storage s))
  ∧ driverLocations (storage s') = driverLocations (storage s)
  ∧ wire s' = wire s ++ reply (ws client) (error_frame now "Erro ao aceitar corrida") s.
Proof.
  intros Hdrv Hid Hride Hst Hfree Hf. leaves s' E. intros accepted busy.
  unfold handleRideAccepted in E. rewrite Hdrv in E.
  unfold try_catch, bind, destructure, ret in E. cbn [negb] in E. cbv beta iota zeta in E.
  rewrite Hid in E.
  rewrite getRideById_ok in E by (unfold next_call_ok; by rewrite Hf).
  run_ok E. rewrite Hride in E. run_ok E.
  rewrite Hst, strict_eq_refl in E. run_ok E.
  rewrite getDriverLocationByDriverId_ok in E by (unfold next_call_ok; simpl; by rewrite Hf).
  run_ok E. rewrite ?storage_called, Hfree in E. run_ok E.
  rewrite updateRide_ok in E by (unfold next_call_ok; simpl; by rewrite Hf).
  run_ok E.
  rewrite updateDriverLocation_fails in E by (simpl; by rewrite Hf).
  run_ok E. subst s'. simpl.
  rewrite (rides_updateRide _ _ _ _ Hride). split_and!; reached.
Qed.

(** ** Driver presence and position *)

Lemma object_of_lookup_None l k : k ∉ l.*1 → object_of l !! k = None.
Proof.
  intros Hk. unfold object_of. apply not_elem_of_list_to_map_1.
  intros Hin. apply Hk.
  apply list_elem_of_fmap in Hin as (kv & -> & Hin).
  apply list_elem_of_filter in Hin as [_ Hin].
  apply list_elem_of_fmap. eauto.
Qed.

(** X13. A [driver_status_update] frame handled for a driver issues
    exactly one gateway call, the update of the driver's DriverLocation with
    the [status] of the payload, whatever that value is.  When the call
    succeeds no frame is sent, not even an acknowledgement, and the driver's
    row carries the new status; when it is rejected the store is unchanged
    and the driver is answered with ['Erro ao atualizar status']. *)
Theorem handleDriverStatusUpdate_run now p client s :
  is_driver client = true →
  let s' := exec (handleDriverStatusUpdate now (Some p) client) s in
  let fields := object_of [("status", prop p "status")] in
  gatewayLog s' = gatewayLog s ++ [UpdateDriverLocation (userId client) fields]
  ∧ (next_call_ok s →
       storage s' = store_updateDriverLocation (userId client) fields (storage s)
       ∧ wire s' = wire s
       ∧ ∀ d, userId client = JNum d → prop p "status" ≠ JUndefined →
           opt_prop (driverLocations (storage s') !! d) "status" = prop p "status")
  ∧ (head (faults s) = Some true →
       storage s' = storage s
       ∧ wire s' = wire s ++ reply (ws client) (error_frame now "Erro ao atualizar status") s).
Proof.
  intros Hdrv. leaves s' E. intros fields.
  unfold handleDriverStatusUpdate in E. rewrite Hdrv in E.
  unfold try_catch, bind, destructure, ret in E. cbn [negb] in E. cbv beta iota zeta in E.
  fold fields in E.
  destruct (decide (head (faults s) = Some true)) as [Hf|Hf].
  - rewrite updateDriverLocation_fails in E by done. run_ok E. subst s'.
    split_and!; [done| |by intros _; split; reached].
    intros Hok. by destruct Hok.
  - rewrite updateDriverLocation_ok in E by done. run_ok E. subst s'.
    split_and!; [done| |done].
    intros _. split_and!; [done|done|].
    intros d Hd Hst. simpl. rewrite Hd, driverLocations_updateDriverLocation.
    rewrite lookup_insert_eq. simpl. apply prop_union_l.
    unfold fields. apply lookup_object_of; [|apply list_elem_of_here|done].
    simpl. apply NoDup_singleton.
Qed.

Lemma storage_set_storage f s : storage (set_storage f s) = f (storage s).
Proof. done. Qed.

(** X14. When [driver_location_update] is handled for driver [d] and the
    gateway calls succeed, the driver's DriverLocation is updated with the
    six position fields of the payload and read back; [currentRideId] is
    not among the fields written, so the row keeps it.  If it names a ride,
    that ride is read and, if the ride has a passenger, every open session
    of that passenger is sent the position with the ride; otherwise no frame
    is sent at all. *)
Theorem handleDriverLocationUpdate_relays now p client s d :
  is_driver client = true →
  userId client = JNum d →
  no_faults s →
  let s' := exec (handleDriverLocationUpdate now (Some p) client) s in
  let fields :=
    object_of [("latitude", prop p "latitude"); ("longitude", prop p "longitude");
               ("heading", prop p "heading"); ("speed", prop p "speed");
               ("accuracy", prop p "accuracy"); ("status", prop p "status")] in
  let rideId := opt_prop (driverLocations (storage s) !! d) "currentRideId" in
  let passenger := opt_prop (key rideId ≫= λ r, rides (storage s) !! r) "userId" in
  storage s' = store_updateDriverLocation (JNum d) fields (storage s)
  ∧ gatewayLog s'
    = gatewayLog s
      ++ [UpdateDriverLocation (JNum d) fields; GetDriverLocationByDriverId (JNum d)]
      ++ (if truthy rideId then [GetRideById rideId] else [])
  ∧ wire s'
    = wire s
      ++ (if truthy rideId && truthy passenger then
            deliver (Frame MessageType.DRIVER_LOCATION_UPDATE
                       [("driverId", JV (JNum d)); ("latitude", JV (prop p "latitude"));
                        ("longitude", JV (prop p "longitude"));
                        ("heading", JV (prop p "heading")); ("speed", JV (prop p "speed"));
                        ("accuracy", JV (prop p "accuracy")); ("rideId", JV rideId)] now)
                    (sessions passenger "passenger" s)
          else []).
Proof.
  intros Hdrv Hd Hnf. leaves s' E. intros fields rideId passenger.
  unfold handleDriverLocationUpdate in E. rewrite Hdrv in E.
  unfold try_catch, bind, destructure, ret in E. cbn [negb] in E. cbv beta iota zeta in E.
  rewrite Hd in E. fold fields in E. run_ok E.
  assert (Hrow : opt_prop (driverLocations
             (store_updateDriverLocation (JNum d) fields (storage s)) !! d) "currentRideId"
          = rideId).
  { rewrite driverLocations_updateDriverLocation, lookup_insert_eq. simpl.
    unfold prop. rewrite lookup_union_r.
    - unfold rideId. destruct (driverLocations (storage s) !! d); simpl; [done|].
      by rewrite lookup_singleton_ne.
    - apply object_of_lookup_None. apply (bool_decide_unpack _). vm_compute. exact I. }
  rewrite !storage_set_storage, !storage_called, !Hrow in E.
  destruct (truthy rideId) eqn:Hr; run_ok E.
  - rewrite ?storage_called, ?storage_set_storage, ?storage_called, rides_updateDriverLocation in E.
    fold passenger in E.
    destruct (truthy passenger); run_ok E; subst s'; split_and!; reached.
  - subst s'. split_and!; reached.
Qed.

(** ** Ride requests *)

Section Requests.
Variable withinRadius : jsval → jsval → Z → obj → bool.
Variable toISOString : Z → string.

Lemma forEach_open_drivers now type payload (l : list ConnectedClient) s :
  forEach l (λ connectedClient,
    let* s' := get in
    if is_driver connectedClient && readyState_OPEN (ws connectedClient) s' then
      sendMessage now (ws connectedClient) type payload
    else ret tt) s
  = (Ok tt,
     set_wire (λ l', l' ++ deliver (Frame type payload now)
        (filter (λ c, is_driver c = true ∧ readyState_OPEN (ws c) s = true) l)) s).
Proof.
  revert s. induction l as [|c l IH]; intros s.
  - simpl. unfold ret. by rewrite set_wire_nil.
  - simpl forEach. unfold bind at 1. unfold bind at 1. unfold get. cbv beta iota.
    rewrite filter_cons.
    destruct (is_driver c) eqn:Hd; cbn [andb].
    + destruct (readyState_OPEN (ws c) s) eqn:Ho.
      * rewrite decide_True by done.
        rewrite sendMessage_open by (by apply bool_decide_eq_true in Ho).
        rewrite IH. unfold set_wire, deliver; simpl. by rewrite <- app_assoc.
      * rewrite decide_False by (intros [_ ?]; congruence).
        unfold ret. by rewrite IH.
    + rewrite decide_False by (intros [? _]; congruence).
      unfold ret. by rewrite IH.
Qed.

(** X15. A [ride_request] frame handled for a driver is a notification
    drill: no gateway call is issued and the store is unchanged, so no ride
    is created.  Every registered driver entry whose socket is OPEN, the
    sender's included, is sent one [new_ride_request] frame with the test
    ride, whose identifier is the clock reading; their number is what
    [getDriverCount] returns afterwards; and the sender is sent
    [ride_request_success]. *)
Theorem ride_request_of_a_driver_is_a_drill now p client s :
  is_driver client = true →
  let s' := exec (handleRideRequest withinRadius toISOString now (Some p) client) s in
  let notice :=
    Frame MessageType.NEW_RIDE_REQUEST
      [("rideRequest",
        JO [("id", JNum now); ("passengerId", JNum 999999);
            ("passengerName", JStr "Passageiro Teste");
            ("passengerPhone", JStr "(19) 99999-9999");
            ("originAddress", prop p "originAddress");
            ("destinationAddress", prop p "destinationAddress");
            ("estimatedDistance", prop p "estimatedDistance");
            ("estimatedDuration", prop p "estimatedDuration");
            ("estimatedPrice", prop p "estimatedPrice");
            ("requestTime", JStr (toISOString now));
            ("notes", js_or (prop p "notes") (JStr "Solicitação de teste"))]);
       ("distance", if truthy (prop p "estimatedDistance")
                    then JV (prop p "estimatedDistance") else ratio 26 5);
       ("estimatedArrival", JV (js_or (prop p "estimatedDuration") (JNum 15)))] now in
  let notified :=
    filter (λ c, is_driver c = true ∧ readyState_OPEN (ws c) s = true) (clients s) in
  storage s' = storage s
  ∧ gatewayLog s' = gatewayLog s
  ∧ faults s' = faults s
  ∧ length notified = getDriverCount s'
  ∧ wire s'
    = wire s
      ++ deliver notice notified
      ++ reply (ws client)
           (Frame MessageType.RIDE_REQUEST_SUCCESS
              [("success", JV (JBool true)); ("rideId", JV (JNum now));
               ("message", JV (JStr "Teste de notificação enviado com sucesso"))] now) s.
Proof.
  intros Hdrv. leaves s' E. intros notice notified.
  unfold handleRideRequest in E. rewrite Hdrv in E.
  rewrite andb_false_r in E. cbv iota in E.
  unfold simulateRideRequestForTesting in E.
  unfold bind at 1 in E. unfold destructure, ret in E. cbv beta iota zeta in E.
  unfold bind at 1 in E. unfold bind at 1 in E. unfold get at 1 in E. cbv beta iota in E.
  rewrite forEach_open_drivers in E. run_ok E. subst s'.
  split_and!; unfold getDriverCount, readyState_OPEN; reached.
Qed.


Lemma sessions_set_wire uid utype f s : sessions uid utype (set_wire f s) = sessions uid utype s.
Proof. done. Qed.



Lemma getAvailableDriversNearLocation_fails lat lng radius s :
  head (faults s) = Some true →
  getAvailableDriversNearLocation withinRadius lat lng radius s
  = (Throw, called (GetAvailableDriversNearLocation lat lng radius) s).
Proof. intros H. unfold getAvailableDriversNearLocation, bind. by rewrite gateway_fails. Qed.

Lemma getPassenger_fails id s :
  head (faults s) = Some true → getPassenger id s = (Throw, called (GetPassenger id) s).
Proof. intros H. unfold getPassenger, bind. by rewrite gateway_fails. Qed.

(** X17. When a gateway call of a passenger's [ride_request] is rejected,
    no driver is notified and the passenger is answered with
    ['Erro ao criar solicitação de corrida'].  If the rejected call is the
    creation, the store is unchanged; if it is the locator query or the read
    of the passenger record, the ride row created before it stays in the
    store. *)
Theorem handleRideRequest_gateway_rejections now p client s fs :
  is_passenger client = true →
  let s' := exec (handleRideRequest withinRadius toISOString now (Some p) client) s in
  let id := nextRideId (storage s) in
  let lat := prop p "originLatitude" in
  let lng := prop p "originLongitude" in
  let refused :=
    wire s' = wire s
              ++ reply (ws client) (error_frame now "Erro ao criar solicitação de corrida") s in
  ∃ data,
    (faults s = true :: fs →
       refused ∧ storage s' = storage s
       ∧ gatewayLog s' = gatewayLog s ++ [CreateRideRequest data])
    ∧ (faults s = false :: true :: fs →
       refused ∧ rides (storage s') = <[id := new_ride_row id data]> (rides (storage s))
       ∧ gatewayLog s'
         = gatewayLog s
           ++ [CreateRideRequest data; GetAvailableDriversNearLocation lat lng 10000])
    ∧ (faults s = false :: false :: true :: fs →
       refused ∧ rides (storage s') = <[id := new_ride_row id data]> (rides (storage s))
       ∧ gatewayLog s'
         = gatewayLog s
           ++ [CreateRideRequest data; GetAvailableDriversNearLocation lat lng 10000;
               GetPassenger (userId client)]).
Proof.
  intros Hpas. leaves s' E. intros id lat lng refused. unfold refused.
  unfold handleRideRequest in E. rewrite Hpas, (is_passenger_not_driver _ Hpas) in E.
  cbn [negb andb] in E. cbv iota in E.
  unfold try_catch, bind, destructure, ret in E. cbv beta iota zeta in E.
  match type of E with context [createRideRequest ?d] => set (data := d) in * end.
  exists data. split_and!; intros Hf.
  - rewrite createRideRequest_fails in E by (by rewrite Hf). run_ok E.
    subst s'. split_and!; reached.
  - rewrite createRideRequest_ok in E by (unfold next_call_ok; by rewrite Hf). run_ok E.
    rewrite getAvailableDriversNearLocation_fails in E by (simpl; by rewrite Hf).
    run_ok E. subst s'. split_and!; reached.
  - rewrite createRideRequest_ok in E by (unfold next_call_ok; by rewrite Hf). run_ok E.
    rewrite getAvailableDriversNearLocation_ok in E
      by (unfold next_call_ok; simpl; by rewrite Hf).
    run_ok E.
    destruct (bool_decide _) in E; unfold get in E; run_ok E;
      rewrite getPassenger_fails in E by (simpl; by rewrite Hf);
      run_ok E; subst s'; split_and!; reached.
Qed.
End Requests.

(** ** The router, frame types and roles *)

Section Router.
Variable withinRadius : jsval → jsval → Z → obj → bool.
Variable toISOString : Z → string.
Local Abbreviation on_message := (on_message withinRadius toISOString).
Local Abbreviation handleMessage := (handleMessage withinRadius toISOString).
Local Abbreviation handle := (handle withinRadius toISOString).
Local Abbreviation run := (run withinRadius toISOString).

(** Decides the [case] labels of the router for a type given in full. *)
Ltac dispatch :=
  unfold handleMessage;
  repeat first [ rewrite strict_eq_refl
               | rewrite (strict_eq_ne (JStr _) (JStr _)) by (by vm_compute) ];
  cbv iota.

(** The five handlers reserved to drivers test the role before anything
    else, the payload included. *)
Lemma handleMessage_driver_only now type message payload client s :
  (type, message) ∈ driver_only →
  is_driver client = false →
  handleMessage now (JStr type) payload client s
  = (Ok tt, set_wire (λ l, l ++ reply (ws client) (error_frame now message) s) s).
Proof.
  intros Hin Hdrv. unfold driver_only in Hin.
  repeat (apply elem_of_cons in Hin as [Hin|Hin]; [injection Hin as -> ->|]).
  6: by apply elem_of_nil in Hin.
  all: dispatch.
  - unfold handleDriverLocationUpdate. rewrite Hdrv. cbn [negb].
    unfold try_catch. by rewrite sendError_reply.
  - unfold handleDriverStatusUpdate. rewrite Hdrv. cbn [negb].
    unfold try_catch. by rewrite sendError_reply.
  - unfold handleRideAccepted. rewrite Hdrv. cbn [negb].
    unfold try_catch. by rewrite sendError_reply.
  - unfold handleRideStarted. rewrite Hdrv. cbn [negb].
    unfold try_catch. by rewrite sendError_reply.
  - unfold handleRideCompleted. rewrite Hdrv. cbn [negb].
    unfold try_catch. by rewrite sendError_reply.
Qed.

Lemma is_driver_touch now c : is_driver (touch now c) = is_driver c.
Proof. done. Qed.

(** X18. A frame of a type reserved to drivers (position, status, accept,
    start, complete) that arrives on a connection whose first registry entry
    is not of type driver is answered with the [error] frame of that
    handler's role test and nothing else happens: no gateway call, no store
    change, whatever the payload; only the entry's [lastActivity] is
    refreshed. *)
Theorem driver_frames_of_other_roles now w type message payload s i c :
  (type, message) ∈ driver_only →
  findIndex_ws w (clients s) = Some (i, c) →
  is_driver c = false →
  on_message now w (Inbound (JStr type) payload) s
  = (Ok tt, set_wire (λ l, l ++ reply w (error_frame now message) s)
                     (set_clients (<[i := touch now c]>) s)).
Proof.
  intros Hin Hfind Hdrv.
  assert (Hw : ws c = w).
  { apply list_find_Some in Hfind as (_ & Hw & _). exact Hw. }
  rewrite (on_message_resolves _ _ now w (JStr type) payload s i c); [|clear -Hin|done].
  - rewrite (handleMessage_driver_only now type message) by done.
    unfold reply. simpl. by rewrite Hw.
  - unfold driver_only in Hin.
    repeat (apply elem_of_cons in Hin as [Hin|Hin]; [injection Hin as -> ->; by vm_compute|]).
    by apply elem_of_nil in Hin.
Qed.

(** X19. A frame of a routed type other than [ping] whose payload is
    missing ([undefined] or [null]) is answered with exactly one [error]
    frame and causes no gateway call.  For a driver the message is always
    ['Erro interno do servidor']: the payload is destructured outside the
    handler's own [try]. *)
Theorem frames_without_payload now type client s :
  type ∈ routed → type ≠ MessageType.PING →
  ∃ message,
    handleMessage now (JStr type) None client s
    = (Ok tt, set_wire (λ l, l ++ reply (ws client) (error_frame now message) s) s)
    ∧ (is_driver client = true → message = "Erro interno do servidor").
Proof.
  intros Hin Hping. unfold routed in Hin.
  repeat (apply elem_of_cons in Hin as [->|Hin]).
  9: by apply elem_of_nil in Hin.
  8: done.
  all: dispatch.
  - unfold handleDriverLocationUpdate. destruct (is_driver client); cbn [negb].
    + unfold try_catch, bind, destructure, throw. rewrite sendError_reply. eauto.
    + unfold try_catch. rewrite sendError_reply. eexists. split; [done|]. done.
  - unfold handleDriverStatusUpdate. destruct (is_driver client); cbn [negb].
    + unfold try_catch, bind, destructure, throw. rewrite sendError_reply. eauto.
    + unfold try_catch. rewrite sendError_reply. eexists. split; [done|]. done.
  - unfold handleRideRequest. destruct (is_driver client) eqn:Hd; cbn [negb andb].
    + rewrite andb_false_r. unfold simulateRideRequestForTesting.
      unfold try_catch, bind, destructure, throw. rewrite sendError_reply. eauto.
    + rewrite andb_true_r. destruct (is_passenger client); cbn [negb].
      * unfold try_catch, bind, destructure, throw. rewrite sendError_reply.
        eexists. split; [done|]. done.
      * unfold try_catch. rewrite sendError_reply. eexists. split; [done|]. done.
  - unfold handleRideAccepted. destruct (is_driver client); cbn [negb].
    + unfold try_catch, bind, destructure, throw. rewrite sendError_reply. eauto.
    + unfold try_catch. rewrite sendError_reply. eexists. split; [done|]. done.
  - unfold handleRideStarted. destruct (is_driver client); cbn [negb].
    + unfold try_catch, bind, destructure, throw. rewrite sendError_reply. eauto.
    + unfold try_catch. rewrite sendError_reply. eexists. split; [done|]. done.
  - unfold handleRideCompleted. destruct (is_driver client); cbn [negb].
    + unfold try_catch, bind, destructure, throw. rewrite sendError_reply. eauto.
    + unfold try_catch. rewrite sendError_reply. eexists. split; [done|]. done.
  - unfold handleRideCanceled.
    unfold try_catch, bind, destructure, throw. rewrite sendError_reply. eauto.
Qed.

(** X20. A frame whose type is neither ['auth'] nor one the router has a
    case for is dropped without any answer; on a registered connection its
    only effect is to refresh the [lastActivity] of the connection's first
    registry entry. *)
Theorem unrouted_frames_are_dropped now w type payload s i c :
  type ∉ JStr <$> ("auth" :: routed) →
  findIndex_ws w (clients s) = Some (i, c) →
  on_message now w (Inbound type payload) s
  = (Ok tt, set_clients (<[i := touch now c]>) s).
Proof.
  intros Hnot Hfind.
  assert (Hne : ∀ t, t ∈ "auth" :: routed → strict_eq type (JStr t) = false).
  { intros t Ht. apply strict_eq_ne. intros ->. apply Hnot.
    apply list_elem_of_fmap. eauto. }
  rewrite (on_message_resolves _ _ now w type payload s i c); [| |done].
  - unfold handleMessage.
    rewrite !Hne by (apply (bool_decide_unpack _); vm_compute; exact I).
    done.
  - rewrite !Hne by (apply (bool_decide_unpack _); vm_compute; exact I). done.
Qed.

Lemma sendError_returns now w message s : (sendError now w message s).1 = Ok tt.
Proof. by rewrite sendError_reply. Qed.

(** No event handler lets an exception escape, whatever the frame and
    whichever gateway calls are rejected. *)
Lemma handle_never_throws now e s : (handle now e s).1 = Ok tt.
Proof.
  destruct e as [w|w message|w|w|]; simpl.
  - done.
  - unfold on_message, try_catch.
    match goal with |- (match ?b s with _ => _ end).1 = _ =>
      destruct (b s) as [[[]|] s1] end; [done|apply sendError_returns].
  - unfold on_close, bind, modify, get. cbv beta iota.
    destruct (findIndex_ws _ _) as [[i c]|]; [|done].
    destruct (is_driver c); [|done].
    unfold try_catch. destruct (updateDriverLocation _ _ _) as [[[]|] s1]; done.
  - unfold on_authTimeout, bind, get. cbv beta iota.
    case_bool_decide; [|done]. simpl. destruct (readyState_OPEN _ _); [|done].
    by rewrite sendError_reply.
  - change (heartbeat now s)
      with (heartbeat_loop now (length (clients s)) (length (@nil ConnectedClient)) s).
    by rewrite (heartbeat_loop_scanned now _ [] (clients s) s eq_refl (le_n _)).
Qed.
End Router.

(** ** Connections: timer, close, registry entries *)

#[global] Instance same_timers_refl : Reflexive same_timers.
Proof. by intros s. Qed.
#[global] Instance same_timers_trans : Transitive same_timers.
Proof. unfold same_timers. intros s1 s2 s3 H1 H2. congruence. Qed.

Lemma gateway_same_timers c : steps same_timers (gateway c).
Proof. intros s. by rewrite gateway_state. Qed.

Lemma sendMessage_same_timers now w type payload :
  steps same_timers (sendMessage now w type payload).
Proof. intros s. rewrite sendMessage_state. by case_bool_decide. Qed.

Lemma modify_same_timers (f : Server → Server) :
  (∀ s, authTimers (f s) = authTimers s) → steps same_timers (modify f).
Proof. intros Hf s. apply Hf. Qed.

Ltac same_timers_prim :=
  first [ apply sendMessage_same_timers
        | by apply modify_same_timers
        | apply gateway_same_timers
        | gateway_op;
          first [ apply _ | apply gateway_same_timers | intros; by apply modify_same_timers ] ].

Section Connections.
Variable withinRadius : jsval → jsval → Z → obj → bool.
Variable toISOString : Z → string.
Local Abbreviation on_message := (on_message withinRadius toISOString).
Local Abbreviation handleMessage := (handleMessage withinRadius toISOString).
Local Abbreviation handle := (handle withinRadius toISOString).
Local Abbreviation run := (run withinRadius toISOString).

Lemma on_message_auth_splits now w type payload s :
  strict_eq type (JStr "auth") || strict_eq type (JStr MessageType.PING) = true →
  ∃ rest : M unit,
    on_message now w (Inbound type payload) s
    = try_catch rest (sendError now w "Erro ao processar mensagem")
                (set_authTimers (λ t, t ∖ {[w]}) s)
    ∧ steps same_timers rest.
Proof.
  intros Ht. unfold on_message. rewrite Ht.
  eexists. split.
  - unfold try_catch at 1. unfold bind at 1. unfold modify at 1. cbv beta iota.
    reflexivity.
  - steps_structure; try same_timers_prim.
Qed.

(** X21. Any [auth] or [ping] frame disarms the authentication timer of
    its connection, whatever its payload and whatever becomes of it (also
    when it is refused or a gateway call is rejected); when the timer's
    callback runs afterwards it does nothing: the socket is neither sent the
    timeout error nor closed. *)
Theorem auth_or_ping_disarms_timer now now' w type payload s :
  type = JStr "auth" ∨ type = JStr MessageType.PING →
  let s' := exec (on_message now w (Inbound type payload)) s in
  authTimers s' = authTimers s ∖ {[w]}
  ∧ on_authTimeout now' w s' = (Ok tt, s').
Proof.
  intros Ht s'.
  assert (Htest : strict_eq type (JStr "auth") || strict_eq type (JStr MessageType.PING)
                  = true).
  { destruct Ht as [-> | ->]; by vm_compute. }
  destruct (on_message_auth_splits now w type payload s Htest) as (rest & E & Hrest).
  assert (Ht' : authTimers s' = authTimers s ∖ {[w]}).
  { subst s'. unfold exec. rewrite E. unfold try_catch.
    pose proof (Hrest (set_authTimers (λ t, t ∖ {[w]}) s)) as H1.
    destruct (rest _) as [[[]|] s1]; simpl in *.
    - exact H1.
    - rewrite sendError_reply. simpl. exact H1. }
  split; [done|].
  unfold on_authTimeout, bind, get. cbv beta iota.
  rewrite bool_decide_eq_false_2; [done|]. rewrite Ht'.
  intros [_ Hw]%elem_of_difference. apply Hw. by apply elem_of_singleton.
Qed.

(** X22. Frames of any other type do not disarm the authentication timer:
    on a connection whose socket is OPEN and whose timer is armed, the timer
    is still armed after such a frame has been handled, and its callback
    then sends ['Timeout de autenticação'] and closes the socket; the
    registry is left as it is, the entry being removed by the close event
    only. *)
Theorem other_frames_leave_timer_armed now now' w type payload s :
  strict_eq type (JStr "auth") || strict_eq type (JStr MessageType.PING) = false →
  w ∈ authTimers s → w ∈ wsOpen s →
  let s1 := exec (on_message now w (Inbound type payload)) s in
  let s2 := exec (on_authTimeout now' w) s1 in
  authTimers s1 = authTimers s
  ∧ wsOpen s2 = wsOpen s ∖ {[w]}
  ∧ wire s2 = wire s1 ++ [(w, error_frame now' "Timeout de autenticação")]
  ∧ clients s2 = clients s1.
Proof.
  intros Ht Harmed Hopen s1 s2.
  assert (H1 : authTimers s1 = authTimers s ∧ wsOpen s1 = wsOpen s).
  { opened s1 E. unfold on_message in E. rewrite Ht in E. unfold try_catch in E.
    unfold bind at 1 in E. unfold get at 1 in E. cbv beta iota in E.
    destruct (findIndex_ws w (clients s)) as [[i c]|].
    - unfold bind at 1 in E. unfold modify at 1 in E. cbv beta iota in E.
      pose proof (handleMessage_keeps_footprint withinRadius toISOString now type payload
                    (touch now c) (set_clients (<[i:=touch now c]>) s)) as Hfp.
      pose proof (handleMessage_returns withinRadius toISOString now type payload
                    (touch now c) (set_clients (<[i:=touch now c]>) s)) as Hret.
      destruct (handleMessage _ _ _ _ _) as [o s3].
      simpl in Hfp, Hret. subst o. simpl in E. subst s3.
      by destruct Hfp as (_ & Ho & Hti & _).
    - rewrite sendError_reply in E. by subst s1. }
  clearbody s1.
  destruct H1 as [Hti Ho]. split; [done|].
  subst s2. unfold exec, on_authTimeout, bind, get. cbv beta iota.
  rewrite bool_decide_eq_true_2 by (by rewrite Hti). cbn [modify].
  unfold readyState_OPEN. rewrite bool_decide_eq_true_2 by (by rewrite Ho).
  rewrite sendError_reply. unfold reply. simpl.
  rewrite bool_decide_eq_true_2 by (by rewrite Ho). by rewrite Ho.
Qed.

Lemma entries_of_delete_first w cs i c :
  findIndex_ws w cs = Some (i, c) →
  entries_of w (delete i cs) = tail (entries_of w cs)
  ∧ ∀ w', w' ≠ w → entries_of w' (delete i cs) = entries_of w' cs.
Proof.
  unfold entries_of. revert i. induction cs as [|x cs IH]; intros i Hf; [done|].
  rewrite findIndex_ws_cons in Hf. destruct (decide (ws x = w)) as [Hx|Hx].
  - simplify_eq. simpl. split.
    + rewrite filter_cons. by rewrite decide_True.
    + intros w' Hw'. rewrite filter_cons. by rewrite decide_False.
  - destruct (findIndex_ws w cs) as [[j y]|] eqn:Hj; [|done]. simpl in Hf.
    simplify_eq. destruct (IH j eq_refl) as [IH1 IH2]. simpl. split.
    + rewrite !filter_cons. rewrite !decide_False by done. exact IH1.
    + intros w' Hw'. rewrite !filter_cons. rewrite IH2 by done. done.
Qed.

Lemma on_close_returns w s : (on_close w s).1 = Ok tt.
Proof.
  unfold on_close, bind, modify, get. cbv beta iota.
  destruct (findIndex_ws _ _) as [[i c]|]; [|done].
  destruct (is_driver c); [|done].
  unfold try_catch. destruct (updateDriverLocation _ _ _) as [[[]|] s1]; done.
Qed.

(** X23. A close event removes at most one registry entry, the first one
    that carries the socket, and leaves the entries of every other socket
    alone.  If that entry is of type driver, the update of its DriverLocation
    to [offline] is issued, and the entry is removed also when the update is
    rejected; otherwise no gateway call is made.  No frame is sent, and the
    socket and its timer are cleared. *)
Theorem on_close_removes_one_entry w s :
  let s' := exec (on_close w) s in
  let first := findIndex_ws w (clients s) in
  (on_close w s).1 = Ok tt
  ∧ clients s' = from_option (λ ic, delete ic.1 (clients s)) (clients s) first
  ∧ entries_of w (clients s') = tail (entries_of w (clients s))
  ∧ (∀ w', w' ≠ w → entries_of w' (clients s') = entries_of w' (clients s))
  ∧ gatewayLog s'
    = gatewayLog s
      ++ match first with
         | Some (_, c) =>
             if is_driver c
             then [UpdateDriverLocation (userId c) (object_of [("status", JStr "offline")])]
             else []
         | None => []
         end
  ∧ wire s' = wire s
  ∧ wsOpen s' = wsOpen s ∖ {[w]}
  ∧ authTimers s' = authTimers s ∖ {[w]}.
Proof.
  intros s' first.
  assert (E : on_close w s = (Ok tt, s')).
  { subst s'. unfold exec. rewrite (surjective_pairing (on_close w s)) at 1. f_equal.
    apply on_close_returns. }
  split; [by rewrite E|]. clearbody s'.
  unfold on_close, bind, modify, get in E. cbv beta iota in E.
  change (clients (set_authTimers _ (set_wsOpen _ s))) with (clients s) in E.
  fold first in E. destruct first as [[i c]|] eqn:Hfirst.
  - destruct (entries_of_delete_first _ _ _ _ Hfirst) as [Ht Ho].
    destruct (is_driver c).
    + unfold try_catch in E.
      destruct (decide (head (faults s) = Some true)) as [Hf|Hf].
      * rewrite updateDriverLocation_fails in E by done. simpl in E.
        injection E as <-. by split_and!.
      * rewrite updateDriverLocation_ok in E by done. simpl in E.
        injection E as <-. by split_and!.
    + injection E as <-. simpl. rewrite app_nil_r. by split_and!.
  - injection E as <-. simpl. rewrite app_nil_r. split_and!; try done.
    unfold entries_of. unfold first, findIndex_ws in Hfirst.
    apply list_find_None in Hfirst.
    assert (filter (λ c, ws c = w) (clients s) = []) as ->; [|done].
    induction Hfirst as [|x l Hx Hl IH]; [done|].
    rewrite filter_cons. by rewrite decide_False.
Qed.

Lemma on_close_not_driver w s i c :
  findIndex_ws w (clients s) = Some (i, c) → is_driver c = false →
  on_close w s
  = (Ok tt, set_clients (delete i)
              (set_authTimers (λ t, t ∖ {[w]}) (set_wsOpen (λ o, o ∖ {[w]}) s))).
Proof.
  intros Hf Hd. unfold on_close, bind, modify, get. cbv beta iota.
  change (clients (set_authTimers _ (set_wsOpen _ s))) with (clients s).
  rewrite Hf. by rewrite Hd.
Qed.

Lemma entries_of_fresh w cs : w ∉ ws <$> cs → entries_of w cs = [].
Proof.
  intros Hw. unfold entries_of. induction cs as [|x cs IH]; [done|].
  rewrite fmap_cons, not_elem_of_cons in Hw. destruct Hw as [Hx Hw].
  rewrite filter_cons. rewrite decide_False by done. by apply IH.
Qed.

Lemma entries_of_app w cs1 cs2 : entries_of w (cs1 ++ cs2) = entries_of w cs1 ++ entries_of w cs2.
Proof. unfold entries_of. apply filter_app. Qed.

Lemma entries_of_filter_fresh w (Q : ConnectedClient → Prop) `{!∀ c, Decision (Q c)} cs :
  w ∉ ws <$> cs → entries_of w (filter Q cs) = [].
Proof.
  intros Hw. apply entries_of_fresh. intros Hin. apply Hw.
  apply list_elem_of_fmap in Hin as (c & -> & Hc). apply list_elem_of_filter in Hc as [_ Hc].
  apply list_elem_of_fmap. eauto.
Qed.

(** The registry entries of a connection that was opened on a socket not
    yet registered and then authenticated: the placeholder, then the
    authenticated entry. *)
Lemma entries_after_auth now0 now1 w payload s :
  w ∉ ws <$> clients s →
  let uid := prop (default ∅ payload) "userId" in
  let utype := prop (default ∅ payload) "userType" in
  truthy uid = true → truthy utype = true →
  user_exists (storage s) uid utype = true →
  next_call_ok s →
  let s2 := exec (on_message now1 w (Inbound (JStr "auth") payload))
                 (exec (on_connection now0 w) s) in
  entries_of w (clients s2)
  = [Client w (JNum 0) (JStr "passenger") now0; Client w uid utype now1]
  ∧ w ∈ wsOpen s2.
Proof.
  intros Hfresh uid utype Hu Ht Hex Hok s2.
  destruct (on_message_auth_accepted withinRadius toISOString now1 w payload
              (exec (on_connection now0 w) s) Hu Ht Hex Hok) as [Hc Ho].
  fold uid utype s2 in Hc, Ho. rewrite Hc, Ho. split.
  - simpl. rewrite filter_app, !entries_of_app.
    rewrite entries_of_filter_fresh by done.
    rewrite filter_cons, filter_nil.
    rewrite decide_True.
    + unfold entries_of. rewrite !filter_cons, !filter_nil. simpl.
      by rewrite !decide_True.
    + simpl. intros [<- _]. done.
  - simpl. apply elem_of_union_l. by apply elem_of_singleton.
Qed.

(** X24. A connection that is opened on a socket not yet registered,
    authenticates and is then closed leaves its authenticated entry in the
    registry: the close event removes the placeholder of the connection,
    issues no gateway call and does not touch the store, the DriverLocation
    of a driver included. *)
Theorem close_after_auth_leaves_entry now0 now1 w payload s :
  w ∉ ws <$> clients s →
  let uid := prop (default ∅ payload) "userId" in
  let utype := prop (default ∅ payload) "userType" in
  truthy uid = true → truthy utype = true →
  user_exists (storage s) uid utype = true →
  next_call_ok s →
  let s2 := exec (on_message now1 w (Inbound (JStr "auth") payload))
                 (exec (on_connection now0 w) s) in
  let s3 := exec (on_close w) s2 in
  entries_of w (clients s3) = [Client w uid utype now1]
  ∧ gatewayLog s3 = gatewayLog s2
  ∧ storage s3 = storage s2.
Proof.
  intros Hfresh uid utype Hu Ht Hex Hok s2 s3.
  destruct (entries_after_auth now0 now1 w payload s Hfresh Hu Ht Hex Hok) as [Hent _].
  fold uid utype s2 in Hent.
  assert (Hph : placeholder_first w s2).
  { apply (on_message_keeps_placeholders withinRadius toISOString).
    by apply on_connection_placeholder_first. }
  destruct Hph as (i & c & Hfind & Hid & Hty).
  assert (Hd : is_driver c = false).
  { unfold is_driver. rewrite Hty. by apply strict_eq_ne. }
  subst s3. unfold exec. rewrite (on_close_not_driver _ _ _ _ Hfind Hd). simpl.
  destruct (entries_of_delete_first _ _ _ _ Hfind) as [-> _]. by rewrite Hent.
Qed.
End Connections.

(** ** Authentication and public broadcasts *)

Section Authentication.
Variable withinRadius : jsval → jsval → Z → obj → bool.
Variable toISOString : Z → string.
Local Abbreviation on_message := (on_message withinRadius toISOString).

(** X25. An [auth] frame that is refused registers nothing.  Without a
    truthy [userId] and [userType] (a missing payload included) it is
    answered with ['Dados de autenticação inválidos'] and only the timer of
    the connection changes.  With an identity of type driver or passenger
    that the store does not know, the one lookup is issued, the registry and
    the store are unchanged and the answer is ['Usuário não encontrado']. *)
Theorem rejected_auth_registers_nothing now w payload s :
  let uid := prop (default ∅ payload) "userId" in
  let utype := prop (default ∅ payload) "userType" in
  let s' := exec (on_message now w (Inbound (JStr "auth") payload)) s in
  (truthy uid = false ∨ truthy utype = false →
     s' = set_wire (λ l, l ++ reply w (error_frame now "Dados de autenticação inválidos") s)
                   (set_authTimers (λ t, t ∖ {[w]}) s))
  ∧ (truthy uid = true → truthy utype = true →
     user_exists (storage s) uid utype = false → next_call_ok s →
     clients s' = clients s
     ∧ storage s' = storage s
     ∧ gatewayLog s'
       = gatewayLog s
         ++ [if strict_eq utype (JStr "driver") then GetUser uid else GetPassenger uid]
     ∧ wire s' = wire s ++ reply w (error_frame now "Usuário não encontrado") s).
Proof.
  intros uid utype. leaves s' E.
  unfold on_message in E. rewrite strict_eq_refl, orb_true_l in E.
  fold uid utype in E.
  unfold try_catch in E. unfold bind at 1 in E. unfold modify at 1 in E. cbv beta iota in E.
  split.
  - intros Hno.
    assert (negb (truthy uid) || negb (truthy utype) = true) as Hb.
    { destruct Hno as [-> | ->]; [done|]. by rewrite orb_true_r. }
    rewrite Hb in E. run_ok E. by subst s'.
  - intros Hu Ht Hex Hok. rewrite Hu, Ht in E. cbn [negb orb] in E. cbv iota in E.
    unfold user_exists in Hex. unfold bind at 1 in E.
    destruct (strict_eq utype (JStr "driver")).
    + unfold bind at 1 in E. rewrite getUser_ok in E by done. unfold ret in E.
      cbv beta iota in E. rewrite ?storage_called in E.
      change (storage (set_authTimers _ s)) with (storage s) in E.
      rewrite Hex in E. run_ok E. subst s'. split_and!; reached.
    + destruct (strict_eq utype (JStr "passenger")); [|done].
      unfold bind at 1 in E. rewrite getPassenger_ok in E by done. unfold ret in E.
      cbv beta iota in E. rewrite ?storage_called in E.
      change (storage (set_authTimers _ s)) with (storage s) in E.
      rewrite Hex in E. run_ok E. subst s'. split_and!; reached.
Qed.

(** X26. When a known driver authenticates and the gateway calls succeed,
    the entry is registered, [auth_success] is sent and the driver's
    presence is initialised: an existing DriverLocation is updated to [busy]
    if it carries a current ride and to [available] otherwise; without a
    row, one is created at latitude and longitude 0 with the status
    [offline]. *)
Theorem driver_auth_initialises_presence now w p s d :
  prop p "userId" = JNum d → d ≠ 0 →
  prop p "userType" = JStr "driver" →
  is_Some (users (storage s) !! d) →
  no_faults s →
  let s' := exec (on_message now w (Inbound (JStr "auth") (Some p))) s in
  let location := driverLocations (storage s) !! d in
  let status :=
    match location with
    | Some row => if truthy (prop row "currentRideId") then JStr "busy" else JStr "available"
    | None => JStr "offline"
    end in
  gatewayLog s'
  = gatewayLog s
    ++ [GetUser (JNum d); GetDriverLocationByDriverId (JNum d);
        match location with
        | Some _ => UpdateDriverLocation (JNum d) (object_of [("status", status)])
        | None =>
            CreateDriverLocation
              (object_of [("driverId", JNum d); ("latitude", JNum 0);
                          ("longitude", JNum 0); ("status", JStr "offline")])
        end]
  ∧ opt_prop (driverLocations (storage s') !! d) "status" = status
  ∧ wire s'
    = wire s ++ [(w, Frame "auth_success"
                       [("userId", JV (JNum d)); ("userType", JV (JStr "driver"))] now)]
  ∧ clients s'
    = filter (λ c, ¬ (userId c = JNum d ∧ userType c = JStr "driver")) (clients s)
      ++ [Client w (JNum d) (JStr "driver") now].
Proof.
  intros Hid Hd Hty Hex Hnf. leaves s' E. intros location status.
  unfold on_message in E. rewrite strict_eq_refl, orb_true_l in E.
  change (default ∅ (Some p)) with p in E. rewrite Hid, Hty in E.
  assert (truthy (JNum d) = true) as Htr.
  { simpl. apply negb_true_iff. by apply Z.eqb_neq. }
  rewrite Htr in E. cbn [truthy negb orb String.eqb Ascii.eqb Bool.eqb] in E.
  rewrite !strict_eq_refl in E.
  unfold try_catch, bind, ws_send, modify, ret in E. cbv beta iota in E.
  rewrite getUser_ok in E by calls_ok. cbv beta iota in E.
  rewrite ?storage_called in E. change (storage (set_authTimers _ s)) with (storage s) in E.
  cbn [key mbind option_bind] in E.
  rewrite bool_decide_eq_true_2 in E by done. cbn [negb] in E. cbv iota in E.
  rewrite getDriverLocationByDriverId_ok in E by calls_ok. cbv beta iota in E.
  cbn [key mbind option_bind] in E.
  change (driverLocations (storage _) !! d) with location in E.
  unfold status. destruct location as [row|] eqn:Hloc.
  - rewrite updateDriverLocation_ok in E by calls_ok. cbv beta iota in E.
    subst s'. simpl. split_and!; reached.
    rewrite lookup_insert_eq. simpl. apply prop_union_l.
    apply lookup_object_of; [apply NoDup_singleton|apply list_elem_of_here|].
    by destruct (truthy _).
  - rewrite createDriverLocation_ok in E by calls_ok. cbv beta iota in E.
    subst s'. simpl. split_and!; reached.
    unfold store_createDriverLocation.
    rewrite (prop_object_of _ "driverId" (JNum d));
      [|apply (bool_decide_unpack _); vm_compute; exact I|apply list_elem_of_here].
    simpl. rewrite lookup_insert_eq. simpl.
    apply prop_object_of; [apply (bool_decide_unpack _); vm_compute; exact I|].
    do 3 apply list_elem_of_further. apply list_elem_of_here.
Qed.

(** X27. Gateway rejections during a driver's authentication are answered
    with ['Erro ao processar mensagem'].  When the lookup of the user is
    rejected nothing is registered.  When the lookup succeeds and the read
    of the DriverLocation is rejected, the entry has already been registered
    and [auth_success] already sent: the connection stays authenticated and
    the store is untouched. *)
Theorem auth_gateway_rejections now w p s d fs :
  prop p "userId" = JNum d → d ≠ 0 →
  prop p "userType" = JStr "driver" →
  let s' := exec (on_message now w (Inbound (JStr "auth") (Some p))) s in
  let refused := reply w (error_frame now "Erro ao processar mensagem") s in
  (faults s = true :: fs →
     clients s' = clients s
     ∧ storage s' = storage s
     ∧ gatewayLog s' = gatewayLog s ++ [GetUser (JNum d)]
     ∧ wire s' = wire s ++ refused)
  ∧ (faults s = false :: true :: fs → is_Some (users (storage s) !! d) →
     clients s'
     = filter (λ c, ¬ (userId c = JNum d ∧ userType c = JStr "driver")) (clients s)
       ++ [Client w (JNum d) (JStr "driver") now]
     ∧ storage s' = storage s
     ∧ gatewayLog s'
       = gatewayLog s ++ [GetUser (JNum d); GetDriverLocationByDriverId (JNum d)]
     ∧ wire s'
       = wire s
         ++ [(w, Frame "auth_success"
                   [("userId", JV (JNum d)); ("userType", JV (JStr "driver"))] now)]
         ++ refused).
Proof.
  intros Hid Hd Hty. leaves s' E. intros refused. unfold refused.
  unfold on_message in E. rewrite strict_eq_refl, orb_true_l in E.
  change (default ∅ (Some p)) with p in E. rewrite Hid, Hty in E.
  assert (truthy (JNum d) = true) as Htr.
  { simpl. apply negb_true_iff. by apply Z.eqb_neq. }
  rewrite Htr in E. cbn [truthy negb orb String.eqb Ascii.eqb Bool.eqb] in E.
  rewrite !strict_eq_refl in E.
  unfold try_catch, bind, ws_send, modify, ret in E. cbv beta iota in E.
  split.
  - intros Hf. rewrite getUser_fails in E by (simpl; by rewrite Hf).
    run_ok E. subst s'. split_and!; reached.
  - intros Hf Hex.
    rewrite getUser_ok in E by (unfold next_call_ok; simpl; by rewrite Hf).
    cbv beta iota in E. rewrite ?storage_called in E.
    change (storage (set_authTimers _ s)) with (storage s) in E.
    cbn [key mbind option_bind] in E.
    rewrite bool_decide_eq_true_2 in E by done. cbn [negb] in E. cbv iota in E.
    rewrite getDriverLocationByDriverId_fails in E by (simpl; by rewrite Hf).
    run_ok E. subst s'. split_and!; reached.
Qed.

Lemma received_deliver w f (O : gset nat) cs :
  (filter (λ wf : nat * frame, wf.1 = w) (deliver f (filter (λ c, ws c ∈ O) cs))).*2
  = if bool_decide (w ∈ O) then replicate (length (entries_of w cs)) f else [].
Proof.
  unfold deliver, entries_of. induction cs as [|c cs IH].
  - by case_bool_decide.
  - rewrite !filter_cons. destruct (decide (ws c ∈ O)) as [Ho|Ho].
    + rewrite fmap_cons, filter_cons. simpl.
      destruct (decide (ws c = w)) as [<-|Hw].
      * rewrite fmap_cons, IH. simpl. by rewrite bool_decide_eq_true_2.
      * exact IH.
    + destruct (decide (ws c = w)) as [<-|Hw]; [|exact IH].
      rewrite IH. by rewrite bool_decide_eq_false_2.
Qed.

Lemma received_broadcast now w type payload s :
  let s' := exec (let* s0 := get in
                  forEach (clients s0) (λ client, sendMessage now (ws client) type payload)) s in
  clients s' = clients s
  ∧ storage s' = storage s
  ∧ gatewayLog s' = gatewayLog s
  ∧ received w s'
    = received w s
      ++ (if bool_decide (w ∈ wsOpen s)
          then replicate (length (entries_of w (clients s))) (Frame type payload now)
          else []).
Proof.
  intros s'. subst s'. unfold exec, bind, get. cbv beta iota.
  rewrite forEach_sendMessage. simpl. split_and!; try done.
  unfold received. simpl. rewrite filter_app, fmap_app. f_equal.
  apply (received_deliver w (Frame type payload now)).
Qed.

(** X28. Each of the three public broadcasts (feature toggle, negotiation
    settings, dynamic pricing) hands one copy of its frame to every registry
    entry whose socket is OPEN: a socket receives as many copies as it has
    entries in the registry, and none when it is not OPEN.  Registry, store
    and gateway log are untouched. *)
Theorem public_broadcasts_reach_every_entry now w s :
  let copies (f : frame) (s' : Server) :=
    clients s' = clients s
    ∧ storage s' = storage s
    ∧ gatewayLog s' = gatewayLog s
    ∧ received w s'
      = received w s
        ++ (if bool_decide (w ∈ wsOpen s)
            then replicate (length (entries_of w (clients s))) f else []) in
  (∀ featureName isEnabled,
     copies (Frame MessageType.FEATURE_TOGGLE_UPDATE
               [("featureName", JV (JStr featureName)); ("isEnabled", JV (JBool isEnabled))]
               now)
            (exec (broadcastFeatureToggleUpdate now featureName isEnabled) s))
  ∧ (∀ settings,
       copies (Frame MessageType.NEGOTIATION_SETTINGS_UPDATE settings now)
              (exec (broadcastNegotiationSettingsUpdate now settings) s))
  ∧ (∀ pricingData,
       copies (Frame MessageType.DYNAMIC_PRICING_UPDATE pricingData now)
              (exec (broadcastDynamicPricingUpdate now pricingData) s)).
Proof.
  intros copies. split_and!; intros; apply received_broadcast.
Qed.
End Authentication.

(** ** Frames on a live connection *)

Section LiveConnections.
Variable withinRadius : jsval → jsval → Z → obj → bool.
Variable toISOString : Z → string.
Local Abbreviation on_message := (on_message withinRadius toISOString).
Local Abbreviation handleMessage := (handleMessage withinRadius toISOString).
Local Abbreviation run := (run withinRadius toISOString).

(** X29. A [ping] frame is handled exactly as an [auth] frame with the
    same payload, in every state: it is validated, looked up, registered and
    answered as an authentication. *)
Theorem ping_is_handled_as_auth now w payload s :
  on_message now w (Inbound (JStr MessageType.PING) payload) s
  = on_message now w (Inbound (JStr "auth") payload) s.
Proof.
  unfold on_message.
  replace (strict_eq (JStr MessageType.PING) (JStr "auth")
           || strict_eq (JStr MessageType.PING) (JStr MessageType.PING)) with true
    by (by vm_compute).
  replace (strict_eq (JStr "auth") (JStr "auth")
           || strict_eq (JStr "auth") (JStr MessageType.PING)) with true
    by (by vm_compute).
  reflexivity.
Qed.

(** X30. From the opening of a connection on, and as long as no close
    event and no heartbeat tick has occurred, every frame on the connection
    that is neither [auth] nor [ping] is handled for the client registered
    when the connection was opened, of user 0 and type passenger, whatever
    frames were handled before, an accepted authentication included; only
    that entry's [lastActivity] is refreshed. *)
Theorem live_connection_is_served_as_placeholder now0 now w es type payload s :
  w ∉ ws <$> clients s →
  Forall (λ ne, registry_shrinking ne.2 = false) es →
  strict_eq type (JStr "auth") || strict_eq type (JStr MessageType.PING) = false →
  let s1 := run es (exec (on_connection now0 w) s) in
  let served := Client w (JNum 0) (JStr "passenger") now in
  ∃ i, on_message now w (Inbound type payload) s1
       = handleMessage now type payload served (set_clients (<[i := served]>) s1)
       ∧ ws <$> clients s1 !! i = Some w.
Proof.
  intros Hfresh Hes Ht s1 served.
  assert (Hph : placeholder_first w s1).
  { apply run_keeps_placeholders; [done|]. by apply on_connection_placeholder_first. }
  destruct Hph as (i & c & Hfind & Hid & Hty).
  pose proof Hfind as Hfind'.
  apply list_find_Some in Hfind' as (Hi & Hw & _).
  assert (touch now c = served) as Hc.
  { unfold touch, served. by rewrite Hw, Hid, Hty. }
  exists i. split.
  - rewrite (on_message_resolves _ _ now w type payload s1 i c) by done.
    by rewrite Hc.
  - by rewrite Hi, <- Hw.
Qed.
End LiveConnections.

(** ** Instances of the statements above on the scenes *)

Lemma heartbeat_evicts_inactive_apart_witness :
  clients (exec (heartbeat 70000) aging_sessions)
  = [Client 2 (JNum 20) (JStr "driver") 50000].
Proof.
  assert (Hap : inactive_apart 70000 (clients aging_sessions)).
  { intros [|[|[|i]]] c c' Hc Hc' Hin; simplify_eq/=; unfold inactive; simpl.
    - unfold HEARTBEAT_TIMEOUT. lia.
    - unfold inactive, HEARTBEAT_TIMEOUT in Hin. simpl in Hin. lia. }
  destruct (heartbeat_evicts_inactive_apart 70000 aging_sessions Hap) as [Hc _].
  rewrite Hc. reflexivity.
Defined.

Lemma handleRideStarted_starts_ride_witness :
  let s := three_sessions (store_with_ride (ride_of_D1 "accepted")) in
  let s' := exec (handleRideStarted 5 (Some {["rideRequestId" := JNum 1]}) driver_D1) s in
  gatewayLog s'
  = [GetRideById (JNum 1);
     UpdateRide (JNum 1) (object_of [("status", JStr "active"); ("startTime", JNum 5)])]
  ∧ wire s'
    = [(1%nat, Frame MessageType.RIDE_STARTED
                 [("rideId", JV (JNum 1)); ("driverId", JV (JNum 20));
                  ("message", JV (JStr "Sua corrida foi iniciada"))] 5);
       (2%nat, Frame MessageType.RIDE_STARTED
                 [("success", JV (JBool true)); ("rideRequestId", JV (JNum 1));
                  ("message", JV (JStr "Corrida iniciada com sucesso"))] 5)].
Proof.
  intros s s'.
  destruct (handleRideStarted_starts_ride 5 {["rideRequestId" := JNum 1]} driver_D1 s 1
              (ride_of_D1 "accepted")) as (Hlog & _ & _ & Hwire).
  - reflexivity.
  - reflexivity.
  - reflexivity.
  - reflexivity.
  - reflexivity.
  - unfold no_faults. simpl. constructor.
  - split; [exact Hlog|]. fold s' in Hwire. rewrite Hwire. vm_compute. reflexivity.
Defined.

Lemma start_and_complete_refuse_witness :
  let s := three_sessions (store_with_ride (ride_of_D1 "pending")) in
  let p : obj := {["rideRequestId" := JNum 1]} in
  wire (exec (handleRideStarted 5 (Some p) driver_D1) s)
  = [(2%nat, error_frame 5 "Esta corrida não pode ser iniciada")]
  ∧ wire (exec (handleRideCompleted 5 (Some p) driver_D2) s)
    = [(3%nat, error_frame 5 "Você não está atribuído a esta corrida")].
Proof.
  intros s p.
  destruct (start_and_complete_refuse 5 p driver_D1 s 1 (ride_of_D1 "pending"))
    as [Hstart _]; [reflexivity..|by vm_compute|].
  destruct (start_and_complete_refuse 5 p driver_D2 s 1 (ride_of_D1 "pending"))
    as [_ Hdone]; [reflexivity..|by vm_compute|].
  split.
  - destruct Hstart as (_ & _ & ->); [right; by vm_compute|]. vm_compute. reflexivity.
  - destruct Hdone as (_ & _ & ->); [left; by vm_compute|]. vm_compute. reflexivity.
Defined.

Lemma lifecycle_ride_not_found_witness :
  let s := three_sessions example_store in
  let p : obj := {["rideRequestId" := JNum 7]} in
  wire (exec (handleRideAccepted 5 (Some p) driver_D1) s)
  = [(2%nat, error_frame 5 "Corrida não encontrada")]
  ∧ wire (exec (handleRideCanceled 5 (Some p) passenger_P) s)
    = [(1%nat, error_frame 5 "Corrida não encontrada")].
Proof.
  intros s p.
  destruct (lifecycle_ride_not_found 5 p driver_D1 s) as [Hdrv _];
    [reflexivity|by vm_compute|].
  destruct (lifecycle_ride_not_found 5 p passenger_P s) as [_ Hany];
    [reflexivity|by vm_compute|].
  split.
  - destruct (Hdrv eq_refl) as ((_ & _ & ->) & _). vm_compute. reflexivity.
  - destruct Hany as (_ & _ & ->). vm_compute. reflexivity.
Defined.

Lemma handleRideCanceled_refuses_strangers_witness :
  let s := three_sessions (store_with_ride (ride_of_D1 "accepted")) in
  let s' := exec (handleRideCanceled 5 (Some {["rideRequestId" := JNum 1]}) driver_D2) s in
  storage s' = storage s
  ∧ wire s' = [(3%nat, error_frame 5 "Você não pode cancelar esta corrida")].
Proof.
  intros s s'.
  destruct (handleRideCanceled_refuses_strangers 5 {["rideRequestId" := JNum 1]} driver_D2 s 1
              (ride_of_D1 "accepted")) as (Hst & _ & Hwire).
  - reflexivity.
  - reflexivity.
  - by vm_compute.
  - right. split; [reflexivity|by vm_compute].
  - split; [exact Hst|]. fold s' in Hwire. rewrite Hwire. vm_compute. reflexivity.
Defined.

Lemma handleRideCanceled_by_passenger_witness :
  let s := three_sessions (store_with_ride (ride_of_D1 "accepted")) in
  let p : obj := {["rideRequestId" := JNum 1; "reason" := JStr "late"]} in
  let s' := exec (handleRideCanceled 5 (Some p) passenger_P) s in
  gatewayLog s'
  = [GetRideById (JNum 1); UpdateRide (JNum 1) (object_of [("status", JStr "canceled")]);
     UpdateDriverLocation (JNum 20)
       (object_of [("currentRideId", JNull); ("status", JStr "available")])]
  ∧ wire s'
    = [(2%nat, Frame MessageType.RIDE_CANCELED
                 [("rideId", JV (JNum 1)); ("canceledBy", JV (JStr "passenger"));
                  ("reason", JV (JStr "late"));
                  ("message", JV (JStr "Corrida cancelada pelo passageiro"))] 5);
       (1%nat, Frame MessageType.RIDE_CANCELED
                 [("success", JV (JBool true)); ("rideRequestId", JV (JNum 1));
                  ("message", JV (JStr "Corrida cancelada com sucesso"))] 5)].
Proof.
  intros s p s'.
  destruct (handleRideCanceled_by_passenger 5 p passenger_P s 1 (ride_of_D1 "accepted"))
    as (Hlog & _ & Hwire).
  - reflexivity.
  - reflexivity.
  - reflexivity.
  - reflexivity.
  - unfold no_faults. simpl. constructor.
  - fold s' in Hlog, Hwire. rewrite Hlog, Hwire. split; vm_compute; reflexivity.
Defined.

Lemma handleRideCanceled_by_driver_witness :
  let s := three_sessions (store_with_ride (ride_of_D1 "accepted")) in
  let p : obj := {["rideRequestId" := JNum 1; "reason" := JStr "flat tyre"]} in
  let s' := exec (handleRideCanceled 5 (Some p) driver_D1) s in
  gatewayLog s'
  = [GetRideById (JNum 1); UpdateRide (JNum 1) (object_of [("status", JStr "canceled")]);
     UpdateDriverLocation (JNum 20)
       (object_of [("currentRideId", JNull); ("status", JStr "available")])]
  ∧ wire s'
    = [(1%nat, Frame MessageType.RIDE_CANCELED
                 [("rideId", JV (JNum 1)); ("canceledBy", JV (JStr "driver"));
                  ("reason", JV (JStr "flat tyre"));
                  ("message", JV (JStr "Corrida cancelada pelo motorista"))] 5);
       (2%nat, Frame MessageType.RIDE_CANCELED
                 [("success", JV (JBool true)); ("rideRequestId", JV (JNum 1));
                  ("message", JV (JStr "Corrida cancelada com sucesso"))] 5)].
Proof.
  intros s p s'.
  destruct (handleRideCanceled_by_driver 5 p driver_D1 s 1 (ride_of_D1 "accepted"))
    as (Hlog & _ & Hwire).
  - reflexivity.
  - reflexivity.
  - reflexivity.
  - reflexivity.
  - unfold no_faults. simpl. constructor.
  - fold s' in Hlog, Hwire. rewrite Hlog, Hwire. split; vm_compute; reflexivity.
Defined.

Lemma handleRideAccepted_notifies_witness :
  let s := three_sessions (store_with_ride pending_ride) in
  let s' := exec (handleRideAccepted 5 (Some {["rideRequestId" := JNum 1]}) driver_D1) s in
  wire s'
  = [(1%nat, Frame MessageType.RIDE_ACCEPTED
               [("rideId", JV (JNum 1)); ("driverId", JV (JNum 20));
                ("message", JV (JStr "Sua corrida foi aceita por um motorista"))] 5);
     (3%nat, Frame MessageType.RIDE_REJECTED
               [("rideId", JV (JNum 1));
                ("message", JV (JStr "Esta corrida foi aceita por outro motorista"))] 5);
     (2%nat, accept_confirmation 5 (JNum 1))].
Proof.
  intros s s'.
  destruct (handleRideAccepted_notifies 5 {["rideRequestId" := JNum 1]} driver_D1 s 1
              pending_ride) as (_ & _ & Hwire).
  - reflexivity.
  - reflexivity.
  - reflexivity.
  - reflexivity.
  - reflexivity.
  - unfold no_faults. simpl. constructor.
  - fold s' in Hwire. rewrite Hwire. vm_compute. reflexivity.
Defined.

Lemma handleRideAccepted_half_done_witness :
  let s := with_faults [false; false; false; true]
             (three_sessions (store_with_ride pending_ride)) in
  let s' := exec (handleRideAccepted 5 (Some {["rideRequestId" := JNum 1]}) driver_D1) s in
  driverLocations (storage s') = driverLocations (storage s)
  ∧ wire s' = [(2%nat, error_frame 5 "Erro ao aceitar corrida")].
Proof.
  intros s s'.
  destruct (handleRideAccepted_half_done 5 {["rideRequestId" := JNum 1]} driver_D1 s 1
              pending_ride []) as (_ & _ & Hloc & Hwire).
  - reflexivity.
  - reflexivity.
  - reflexivity.
  - reflexivity.
  - reflexivity.
  - reflexivity.
  - split; [exact Hloc|]. fold s' in Hwire. rewrite Hwire. vm_compute. reflexivity.
Defined.

Lemma handleDriverStatusUpdate_run_witness :
  let s := three_sessions example_store in
  let s' := exec (handleDriverStatusUpdate 5 (Some {["status" := JStr "busy"]}) driver_D1) s in
  gatewayLog s' = [UpdateDriverLocation (JNum 20) (object_of [("status", JStr "busy")])]
  ∧ wire s' = []
  ∧ opt_prop (driverLocations (storage s') !! 20) "status" = JStr "busy".
Proof.
  intros s s'.
  destruct (handleDriverStatusUpdate_run 5 {["status" := JStr "busy"]} driver_D1 s eq_refl)
    as (Hlog & Hok & _).
  destruct Hok as (_ & Hwire & Hrow); [by vm_compute|].
  split_and!; [exact Hlog|exact Hwire|].
  apply (Hrow 20); [reflexivity|by vm_compute].
Defined.

Lemma handleDriverLocationUpdate_relays_witness :
  let s := three_sessions
             (set_driverLocations
                (<[20 := {["driverId" := JNum 20; "status" := JStr "busy";
                           "currentRideId" := JNum 1]}]>)
                (store_with_ride (ride_of_D1 "active"))) in
  let p : obj := {["latitude" := JNum (-23); "longitude" := JNum (-47)]} in
  wire (exec (handleDriverLocationUpdate 5 (Some p) driver_D1) s)
  = [(1%nat, Frame MessageType.DRIVER_LOCATION_UPDATE
               [("driverId", JV (JNum 20)); ("latitude", JV (JNum (-23)));
                ("longitude", JV (JNum (-47))); ("heading", JV JUndefined);
                ("speed", JV JUndefined); ("accuracy", JV JUndefined);
                ("rideId", JV (JNum 1))] 5)].
Proof.
  intros s p.
  destruct (handleDriverLocationUpdate_relays 5 p driver_D1 s 20) as (_ & _ & Hwire).
  - reflexivity.
  - reflexivity.
  - unfold no_faults. simpl. constructor.
  - rewrite Hwire. vm_compute. reflexivity.
Defined.

Lemma ride_request_of_a_driver_is_a_drill_witness :
  let s := three_sessions example_store in
  let s' := exec (handleRideRequest nowhere plain_date 5 (Some ∅) driver_D1) s in
  storage s' = storage s
  ∧ gatewayLog s' = []
  ∧ getDriverCount s' = 2%nat
  ∧ ftype <$> received 3 s' = [MessageType.NEW_RIDE_REQUEST]
  ∧ ftype <$> received 2 s'
    = [MessageType.NEW_RIDE_REQUEST; MessageType.RIDE_REQUEST_SUCCESS].
Proof.
  intros s s'.
  destruct (ride_request_of_a_driver_is_a_drill nowhere plain_date 5 ∅ driver_D1 s eq_refl)
    as (Hst & Hlog & _ & Hn & Hwire).
  fold s' in Hst, Hlog, Hn, Hwire. split_and!.
  - exact Hst.
  - exact Hlog.
  - rewrite <- Hn. vm_compute. reflexivity.
  - unfold received. rewrite Hwire. vm_compute. reflexivity.
  - unfold received. rewrite Hwire. vm_compute. reflexivity.
Defined.


Lemma handleRideRequest_gateway_rejections_witness :
  let p : obj := {["originLatitude" := JNum (-23); "originLongitude" := JNum (-47)]} in
  let s := with_faults [false; true] (three_sessions example_store) in
  let s' := exec (handleRideRequest everywhere plain_date 6 (Some p) passenger_P) s in
  wire s' = [(1%nat, error_frame 6 "Erro ao criar solicitação de corrida")]
  ∧ is_Some (rides (storage s') !! 1).
Proof.
  intros p s s'.
  destruct (handleRideRequest_gateway_rejections everywhere plain_date 6 p passenger_P s []
              eq_refl) as (data & _ & Hlocator & _).
  destruct (Hlocator eq_refl) as (Hwire & Hrides & _).
  fold s' in Hwire, Hrides. split.
  - rewrite Hwire. vm_compute. reflexivity.
  - rewrite Hrides. eexists. apply lookup_insert_eq.
Defined.

Lemma driver_frames_of_other_roles_witness :
  let s := three_sessions example_store in
  (on_message nowhere plain_date 5 1
     (Inbound (JStr MessageType.RIDE_ACCEPTED) (Some {["rideRequestId" := JNum 1]})) s).2
  = set_wire (λ l, l ++ [(1%nat, error_frame 5 "Apenas motoristas podem aceitar corridas")])
             (set_clients (<[0%nat := touch 5 passenger_P]>) s).
Proof.
  intros s.
  rewrite (driver_frames_of_other_roles nowhere plain_date 5 1 MessageType.RIDE_ACCEPTED
             "Apenas motoristas podem aceitar corridas"
             (Some {["rideRequestId" := JNum 1]}) s 0 passenger_P).
  - reflexivity.
  - apply (bool_decide_unpack _). vm_compute. exact I.
  - reflexivity.
  - reflexivity.
Defined.

Lemma frames_without_payload_witness :
  ∃ message,
    handleMessage nowhere plain_date 5 (JStr MessageType.RIDE_STARTED) None driver_D1
                  (three_sessions example_store)
    = (Ok tt, set_wire (λ l, l ++ [(2%nat, error_frame 5 message)])
                       (three_sessions example_store))
    ∧ message = "Erro interno do servidor".
Proof.
  destruct (frames_without_payload nowhere plain_date 5 MessageType.RIDE_STARTED driver_D1
              (three_sessions example_store)) as (message & Hrun & Hmsg).
  - apply (bool_decide_unpack _). vm_compute. exact I.
  - by vm_compute.
  - exists message. split; [|by apply Hmsg]. rewrite Hrun. reflexivity.
Defined.

Lemma unrouted_frames_are_dropped_witness :
  let s := three_sessions example_store in
  on_message nowhere plain_date 5 2 (Inbound (JStr "hello") None) s
  = (Ok tt, set_clients (<[1%nat := touch 5 driver_D1]>) s).
Proof.
  intros s.
  apply (unrouted_frames_are_dropped nowhere plain_date 5 2 (JStr "hello") None s 1 driver_D1).
  - apply (bool_decide_unpack _). vm_compute. exact I.
  - reflexivity.
Defined.

Lemma auth_or_ping_disarms_timer_witness :
  let s' := exec (on_message nowhere plain_date 5 1 (Inbound (JStr "auth") None))
                 one_connection in
  authTimers s' = authTimers one_connection ∖ {[1%nat]}
  ∧ on_authTimeout 30000 1 s' = (Ok tt, s').
Proof.
  apply (auth_or_ping_disarms_timer nowhere plain_date 5 30000 1 (JStr "auth") None
           one_connection).
  by left.
Defined.

Lemma other_frames_leave_timer_armed_witness :
  let s1 := exec (on_message nowhere plain_date 5 1 (ride_frame "ride_canceled" 1))
                 one_connection in
  let s2 := exec (on_authTimeout 30000 1) s1 in
  wsOpen s2 = wsOpen one_connection ∖ {[1%nat]}
  ∧ wire s2 = wire s1 ++ [(1%nat, error_frame 30000 "Timeout de autenticação")].
Proof.
  intros s1 s2.
  destruct (other_frames_leave_timer_armed nowhere plain_date 5 30000 1
              (JStr "ride_canceled") (Some {["rideRequestId" := JNum 1]}) one_connection)
    as (_ & Ho & Hw & _).
  - by vm_compute.
  - apply (bool_decide_unpack _). vm_compute. exact I.
  - apply (bool_decide_unpack _). vm_compute. exact I.
  - by split.
Defined.

Lemma close_after_auth_leaves_entry_witness :
  let s2 := exec (on_message nowhere plain_date 1 1 (auth_frame 20 "driver")) one_connection in
  let s3 := exec (on_close 1) s2 in
  entries_of 1 (clients s3) = [Client 1 (JNum 20) (JStr "driver") 1]
  ∧ gatewayLog s3 = gatewayLog s2
  ∧ storage s3 = storage s2.
Proof.
  assert (Hfresh : (1%nat ∉ ws <$> clients (fresh_server example_store)))
    by apply not_elem_of_nil.
  assert (Hok : next_call_ok (fresh_server example_store)) by (by vm_compute).
  exact (close_after_auth_leaves_entry nowhere plain_date 0 1 1
           (Some {["userId" := JNum 20; "userType" := JStr "driver"]})
           (fresh_server example_store) Hfresh eq_refl eq_refl eq_refl Hok).
Defined.

Lemma rejected_auth_registers_nothing_witness :
  let s := one_connection in
  exec (on_message nowhere plain_date 5 1 (Inbound (JStr "auth") None)) s
  = set_wire (λ l, l ++ [(1%nat, error_frame 5 "Dados de autenticação inválidos")])
             (set_authTimers (λ t, t ∖ {[1%nat]}) s)
  ∧ wire (exec (on_message nowhere plain_date 5 1 (auth_frame 99 "driver")) s)
    = [(1%nat, error_frame 5 "Usuário não encontrado")].
Proof.
  intros s. split.
  - destruct (rejected_auth_registers_nothing nowhere plain_date 5 1 None s) as [Hbad _].
    rewrite Hbad by (by left). reflexivity.
  - destruct (rejected_auth_registers_nothing nowhere plain_date 5 1
                (Some {["userId" := JNum 99; "userType" := JStr "driver"]}) s) as [_ Hunknown].
    destruct Hunknown as (_ & _ & _ & Hwire); [reflexivity|reflexivity|reflexivity|by vm_compute|].
    unfold auth_frame. rewrite Hwire. vm_compute. reflexivity.
Defined.

Lemma driver_auth_initialises_presence_witness :
  let s' := exec (on_message nowhere plain_date 1 1 (auth_frame 20 "driver")) one_connection in
  gatewayLog s'
  = [GetUser (JNum 20); GetDriverLocationByDriverId (JNum 20);
     UpdateDriverLocation (JNum 20) (object_of [("status", JStr "available")])]
  ∧ opt_prop (driverLocations (storage s') !! 20) "status" = JStr "available".
Proof.
  intros s'.
  destruct (driver_auth_initialises_presence nowhere plain_date 1 1
              {["userId" := JNum 20; "userType" := JStr "driver"]} one_connection 20)
    as (Hlog & Hrow & _).
  - reflexivity.
  - done.
  - reflexivity.
  - by eexists.
  - unfold no_faults. simpl. constructor.
  - split; [exact Hlog|exact Hrow].
Defined.

Lemma auth_gateway_rejections_witness :
  let s := with_faults [false; true] one_connection in
  let s' := exec (on_message nowhere plain_date 1 1 (auth_frame 20 "driver")) s in
  Client 1 (JNum 20) (JStr "driver") 1 ∈ clients s'
  ∧ ftype <$> (wire s').*2 = ["auth_success"; MessageType.ERROR].
Proof.
  intros s s'.
  destruct (auth_gateway_rejections nowhere plain_date 1 1
              {["userId" := JNum 20; "userType" := JStr "driver"]} s 20 [])
    as [_ Hsecond]; [reflexivity|done|reflexivity|].
  destruct Hsecond as (Hc & _ & _ & Hwire); [reflexivity|by eexists|].
  fold (auth_frame 20 "driver") in Hc, Hwire. fold s' in Hc, Hwire. split.
  - rewrite Hc. apply elem_of_app. right. apply list_elem_of_here.
  - rewrite Hwire. vm_compute. reflexivity.
Defined.

Lemma live_connection_is_served_as_placeholder_witness :
  let s1 := run nowhere plain_date [(1, Message 1 (auth_frame 20 "driver"))] one_connection in
  let served := Client 1 (JNum 0) (JStr "passenger") 7 in
  ∃ i, on_message nowhere plain_date 7 1 (ride_frame "ride_accepted" 1) s1
       = handleMessage nowhere plain_date 7 (JStr "ride_accepted")
           (Some {["rideRequestId" := JNum 1]}) served (set_clients (<[i := served]>) s1)
       ∧ ws <$> clients s1 !! i = Some 1%nat.
Proof.
  apply (live_connection_is_served_as_placeholder nowhere plain_date 0 7 1
           [(1, Message 1 (auth_frame 20 "driver"))] (JStr "ride_accepted")
           (Some {["rideRequestId" := JNum 1]}) (fresh_server example_store)).
  - apply not_elem_of_nil.
  - repeat constructor.
  - by vm_compute.
Defined.
